(** * serp_email: the Leads page and the SERP settings page

    A shallow embedding of the client-side logic of
    [app/auth/leads/page.tsx] (lead filtering, pagination, exclusion and
    restore) and of [app/auth/serp-settings/page.tsx] (autosave and the
    pre-save normalisation), followed by the properties the specification
    states about them. It goes on to the row selection of the Leads page,
    the validation of the settings fields, the start of a search, and the
    two dialogs of [components/email-settings-modal.tsx] (the email
    settings and the search preview), with further properties of these
    handlers in the last part.

    Conventions of the embedding:
    - a JavaScript string is the list of its UTF-16 code units;
    - React state is a record, a state setter is a record update, and a
      handler is a function from the state (and the database) to the new
      state (and the new database);
    - the Supabase tables are lists of rows; a query is a function of the
      tables, and the backend is an oracle that says, per request, whether
      it answers, answers with an error object, or rejects (throws). *)

From Stdlib Require Import ZArith NArith List Bool Lia String Ascii.
From Stdlib Require Import DecimalString Permutation.
Import ListNotations.

Local Open Scope Z_scope.

(* ================================================================== *)
(** * Part I: definitions                                              *)
(* ================================================================== *)

(** ** JavaScript strings *)

Module Js.

(** A UTF-16 code unit. *)
Definition char := N.
Definition str := list char.

(** String literals of the source, written as Rocq strings. *)
Definition lit (s : string) : str :=
  map N_of_ascii (list_ascii_of_string s).

Fixpoint eqb (a b : str) : bool :=
  match a, b with
  | [], [] => true
  | x :: a', y :: b' => N.eqb x y && eqb a' b'
  | _, _ => false
  end.

(** [ToBoolean] of a string: the empty string is the only falsy one. *)
Definition truthy (s : str) : bool :=
  match s with [] => false | _ :: _ => true end.

(** [value || fallback] on a nullable string: null, undefined and the
    empty string all give the fallback. *)
Definition or_else (v : option str) (fallback : str) : str :=
  match v with
  | Some s => if truthy s then s else fallback
  | None => fallback
  end.

(** [cleaned || null]. *)
Definition or_null (s : str) : option str :=
  if truthy s then Some s else None.

(** ECMAScript WhiteSpace and LineTerminator code points: what
    [String.prototype.trim] strips and what [\s] matches. *)
Definition isWhiteSpace (c : char) : bool :=
  ((9 <=? c) && (c <=? 13) || (c =? 32) || (c =? 160) || (c =? 5760)
   || (8192 <=? c) && (c <=? 8202) || (c =? 8232) || (c =? 8233)
   || (c =? 8239) || (c =? 8287) || (c =? 12288) || (c =? 65279))%N.

Fixpoint dropWhile (p : char -> bool) (s : str) : str :=
  match s with
  | [] => []
  | c :: s' => if p c then dropWhile p s' else s
  end.

Definition trimStart (s : str) : str := dropWhile isWhiteSpace s.
Definition trimEnd (s : str) : str := rev (dropWhile isWhiteSpace (rev s)).

(** [s.trim()] *)
Definition trim (s : str) : str := trimEnd (trimStart s).

(** [s.replace(/\s/g, '')] *)
Definition removeWhiteSpace (s : str) : str :=
  filter (fun c => negb (isWhiteSpace c)) s.

(** [s.split(sep)] for a one-character separator: never the empty list,
    [''.split(',')] is [['']]. *)
Fixpoint split (sep : char) (s : str) : list str :=
  match s with
  | [] => [[]]
  | c :: s' =>
      if N.eqb c sep then [] :: split sep s'
      else match split sep s' with
           | [] => [[c]]
           | t :: ts => (c :: t) :: ts
           end
  end.

(** [parts.join(sep)] *)
Fixpoint join (sep : str) (parts : list str) : str :=
  match parts with
  | [] => []
  | [p] => p
  | p :: rest => p ++ sep ++ join sep rest
  end.

Definition comma : char := 44%N.
Definition space : char := 32%N.

(** Membership in an array or a [Set] of strings ([includes], [has]). *)
Definition includes (l : list str) (x : str) : bool := existsb (eqb x) l.

(** Whether the strings of a list are pairwise different. *)
Fixpoint distinct (l : list str) : bool :=
  match l with
  | [] => true
  | x :: l' => negb (includes l' x) && distinct l'
  end.

(** A [Set<string>] is kept as the list of its elements in insertion
    order, which is the order [Array.from] and iteration give. *)
Definition StrSet := list str.

Definition set_add (x : str) (s : StrSet) : StrSet :=
  if includes s x then s else s ++ [x].

Definition set_delete (x : str) (s : StrSet) : StrSet :=
  filter (fun y => negb (eqb x y)) s.

(** [new Set(array)] *)
Definition set_of_list (l : list str) : StrSet :=
  fold_left (fun s x => set_add x s) l [].

(** Code-unit lexicographic order, the default order of
    [Array.prototype.sort]. *)
Fixpoint leb (a b : str) : bool :=
  match a, b with
  | [], _ => true
  | _ :: _, [] => false
  | x :: a', y :: b' => (x <? y)%N || (N.eqb x y && leb a' b')
  end.

Fixpoint sort_insert (x : str) (l : list str) : list str :=
  match l with
  | [] => [x]
  | y :: l' => if leb x y then x :: l else y :: sort_insert x l'
  end.

Definition sort (l : list str) : list str :=
  fold_right sort_insert [] l.

(** Decimal rendering of a count in a template literal. *)
Definition of_nat (n : nat) : str :=
  lit (NilZero.string_of_uint (Nat.to_uint n)).

(** A JavaScript number as the modelled code produces it: an integer, or
    one of the two non-finite results of a division by zero. *)
Inductive number :=
| Int (z : Z)
| Infinity
| NaN.

(** [Math.ceil(n / d)] for a list length [n] (so [0 <= n]) and an
    integer [d]. Division by zero gives [NaN] (0/0) or [Infinity];
    otherwise the quotient is exact in the rationals and the ceiling is
    [- floor (- n / d)]. *)
Definition ceil_div (n d : Z) : number :=
  if d =? 0 then (if n =? 0 then NaN else Infinity)
  else Int (- ((- n) / d)).

(** [array.slice(from, to)], with the relative indexing of negative
    arguments and clamping to the length. *)
Definition slice {A : Type} (l : list A) (from to : Z) : list A :=
  let len := Z.of_nat (List.length l) in
  let k := if from <? 0 then Z.max (len + from) 0 else Z.min from len in
  let final := if to <? 0 then Z.max (len + to) 0 else Z.min to len in
  firstn (Z.to_nat (final - k)) (skipn (Z.to_nat k) l).

End Js.

(** ** Regular expressions

    The two patterns of the source are anchored at both ends and use only
    character classes, literals, concatenation, [+] and [*], so
    [pattern.test(s)] is membership of the whole of [s] in the language.
    The matcher below decides it by derivatives. *)

Module Regex.

Inductive regex :=
| Void
| Eps
| Class (p : Js.char -> bool)
| Lit (c : Js.char)
| Alt (r1 r2 : regex)
| Cat (r1 r2 : regex)
| Star (r : regex)
| Plus (r : regex).

Fixpoint nullable (r : regex) : bool :=
  match r with
  | Void => false
  | Eps => true
  | Class _ => false
  | Lit _ => false
  | Alt r1 r2 => nullable r1 || nullable r2
  | Cat r1 r2 => nullable r1 && nullable r2
  | Star _ => true
  | Plus r1 => nullable r1
  end.

Fixpoint deriv (c : Js.char) (r : regex) : regex :=
  match r with
  | Void => Void
  | Eps => Void
  | Class p => if p c then Eps else Void
  | Lit c' => if N.eqb c c' then Eps else Void
  | Alt r1 r2 => Alt (deriv c r1) (deriv c r2)
  | Cat r1 r2 =>
      if nullable r1 then Alt (Cat (deriv c r1) r2) (deriv c r2)
      else Cat (deriv c r1) r2
  | Star r1 => Cat (deriv c r1) (Star r1)
  | Plus r1 => Cat (deriv c r1) (Star r1)
  end.

(** [/^r$/.test(s)] *)
Fixpoint test (r : regex) (s : Js.str) : bool :=
  match s with
  | [] => nullable r
  | c :: s' => test (deriv c r) s'
  end.

(** The language of a pattern. *)
Inductive matches : regex -> Js.str -> Prop :=
| MEps : matches Eps []
| MClass p c : p c = true -> matches (Class p) [c]
| MLit c : matches (Lit c) [c]
| MAltL r1 r2 s : matches r1 s -> matches (Alt r1 r2) s
| MAltR r1 r2 s : matches r2 s -> matches (Alt r1 r2) s
| MCat r1 r2 s1 s2 :
    matches r1 s1 -> matches r2 s2 -> matches (Cat r1 r2) (s1 ++ s2)
| MStar0 r : matches (Star r) []
| MStarS r s1 s2 :
    matches r s1 -> matches (Star r) s2 -> matches (Star r) (s1 ++ s2)
| MPlus r s1 s2 :
    matches r s1 -> matches (Star r) s2 -> matches (Plus r) (s1 ++ s2).

(** A non-empty run of characters of one class. *)
Definition group (p : Js.char -> bool) (g : Js.str) : Prop :=
  g <> [] /\ Forall (fun c => p c = true) g.

(** [[a-z_]] *)
Definition lower_or_underscore (c : Js.char) : bool :=
  ((97 <=? c) && (c <=? 122) || (c =? 95))%N.

(** [[a-zA-Z_]] *)
Definition letter_or_underscore (c : Js.char) : bool :=
  ((97 <=? c) && (c <=? 122) || (65 <=? c) && (c <=? 90) || (c =? 95))%N.

(** [/^[a-z_]+(,[a-z_]+)*$/], the custom-category pattern of the Leads
    page. *)
Definition customCategoryPattern : regex :=
  Cat (Plus (Class lower_or_underscore))
      (Star (Cat (Lit Js.comma) (Plus (Class lower_or_underscore)))).

(** [/^[a-zA-Z_]+$/], the category-item pattern of the settings page. *)
Definition categoryItemPattern : regex :=
  Plus (Class letter_or_underscore).

End Regex.

(** ** The relational store *)

Module Db.

Definition LeadId := Js.str.

(** A [timestamptz], as milliseconds since the epoch. *)
Definition Timestamp := Z.

(** [user_leads]: the association of an account with a lead. *)
Record UserLead := {
  ul_id : Z;
  ul_user_id : Z;
  ul_lead_id : LeadId;
  ul_excluded : option Timestamp
}.

(** [serp_leads_v2]: the columns the Leads page computes with; the
    display-only columns (title, address, phone, urls) are left out. *)
Record SerpLead := {
  sl_id : LeadId;
  sl_email : option Js.str;
  sl_categories : option Js.str
}.

(** [email_drafts] *)
Record EmailDraft := {
  ed_user_id : Z;
  ed_lead_id : option LeadId
}.

(** [user_accounts] *)
Record UserAccount := {
  ua_id : Z;
  ua_clerk_id : Js.str;
  serp_keywords : option Js.str;
  serp_cat : option Js.str;
  serp_exc_cat : option Js.str;
  serp_locations : option Js.str;
  serp_states : option Js.str
}.

Record Database := {
  user_leads : list UserLead;
  serp_leads_v2 : list SerpLead;
  email_drafts : list EmailDraft;
  user_accounts : list UserAccount;
  google_locations : list Z
}.

(** What a request can come back with: [{ data, error: null }],
    [{ data: null, error }], or a rejected promise. *)
Inductive Reply (A : Type) :=
| Data (a : A)
| Error (message : Js.str)
| Rejected.
Arguments Data {A} a.
Arguments Error {A} message.
Arguments Rejected {A}.

Inductive Fault :=
| Healthy
| Fails (message : Js.str)
| Throws.

(** The call sites of the two pages. *)
Inductive Request :=
| SelectUserLeads
| SelectLeadEmails
| SelectDrafts
| SelectLeadRows
| UpdateUserLeads
| SelectAccount
| UpdateAccount
| SelectLocations
| UpdateSettings.

Inductive TokenResult :=
| TokenIssued
| TokenNull
| TokenThrows.

(** The environment of a handler run: the identity provider's answer to
    [getToken], the fate of each request, and the clock. *)
Record Backend := {
  getToken : TokenResult;
  fault : Request -> Fault;
  now : Timestamp
}.

(** A backend that issues the token and answers every request. *)
Definition answers (be : Backend) : Prop :=
  getToken be = TokenIssued /\ forall r, fault be r = Healthy.

Definition request {A : Type} (be : Backend) (r : Request) (rows : A)
  : Reply A :=
  match fault be r with
  | Healthy => Data rows
  | Fails m => Error m
  | Throws => Rejected
  end.

(** [order(column, { ascending: false })] on an integer key; rows with
    equal keys keep their table order. *)
Fixpoint insert_desc {A : Type} (key : A -> Z) (x : A) (l : list A)
  : list A :=
  match l with
  | [] => [x]
  | y :: l' =>
      if key y <=? key x then x :: l else y :: insert_desc key x l'
  end.

Definition order_desc {A : Type} (key : A -> Z) (l : list A) : list A :=
  fold_right (insert_desc key) [] l.

Definition is_null {A : Type} (v : option A) : bool :=
  match v with None => true | Some _ => false end.

(** Step 1 of [loadLeads]:
    [from('user_leads').select(...).eq('user_id', uid)] followed by
    [.not('excluded','is',null).order('excluded', desc)] in excluded
    view and by [.is('excluded', null).order('id', desc)] otherwise. *)
Definition select_user_leads (db : Database) (uid : Z)
  (excludedView : bool) : list UserLead :=
  let mine := filter (fun ul => ul_user_id ul =? uid) (user_leads db) in
  if excludedView then
    order_desc (fun ul => match ul_excluded ul with
                           | Some t => t
                           | None => 0
                           end)
               (filter (fun ul => negb (is_null (ul_excluded ul))) mine)
  else
    order_desc ul_id (filter (fun ul => is_null (ul_excluded ul)) mine).

(** [from('serp_leads_v2').select(...).in('id', ids)] *)
Definition select_leads_in (db : Database) (ids : list LeadId)
  : list SerpLead :=
  filter (fun l => Js.includes ids (sl_id l)) (serp_leads_v2 db).

(** [from('email_drafts').select('lead_id').eq('user_id', uid)] *)
Definition select_draft_lead_ids (db : Database) (uid : Z)
  : list (option LeadId) :=
  map ed_lead_id (filter (fun d => ed_user_id d =? uid) (email_drafts db)).

Definition with_user_leads (rows : list UserLead) (db : Database)
  : Database :=
  {| user_leads := rows; serp_leads_v2 := serp_leads_v2 db;
     email_drafts := email_drafts db; user_accounts := user_accounts db;
     google_locations := google_locations db |}.

Definition with_user_accounts (rows : list UserAccount) (db : Database)
  : Database :=
  {| user_leads := user_leads db; serp_leads_v2 := serp_leads_v2 db;
     email_drafts := email_drafts db; user_accounts := rows;
     google_locations := google_locations db |}.

Definition set_excluded (v : option Timestamp) (ul : UserLead) : UserLead :=
  {| ul_id := ul_id ul; ul_user_id := ul_user_id ul;
     ul_lead_id := ul_lead_id ul; ul_excluded := v |}.

(** [from('user_leads').update({ excluded: v }).eq('user_id', uid)
    .in('lead_id', ids)] *)
Definition update_excluded (uid : Z) (ids : list LeadId)
  (v : option Timestamp) (db : Database) : Database :=
  with_user_leads
    (map (fun ul =>
            if (ul_user_id ul =? uid) && Js.includes ids (ul_lead_id ul)
            then set_excluded v ul else ul)
         (user_leads db))
    db.

(** [from('user_accounts').select('serp_exc_cat').eq('id', uid).single()]:
    an error object unless exactly one row matches. *)
Definition select_account_single (db : Database) (uid : Z)
  : option UserAccount :=
  match filter (fun a => ua_id a =? uid) (user_accounts db) with
  | [a] => Some a
  | _ => None
  end.

Definition set_serp_exc_cat (v : option Js.str) (a : UserAccount)
  : UserAccount :=
  {| ua_id := ua_id a; ua_clerk_id := ua_clerk_id a;
     serp_keywords := serp_keywords a; serp_cat := serp_cat a;
     serp_exc_cat := v; serp_locations := serp_locations a;
     serp_states := serp_states a |}.

(** [from('user_accounts').update({ serp_exc_cat: v }).eq('id', uid)] *)
Definition update_serp_exc_cat (uid : Z) (v : Js.str) (db : Database)
  : Database :=
  with_user_accounts
    (map (fun a => if ua_id a =? uid then set_serp_exc_cat (Some v) a
                   else a)
         (user_accounts db))
    db.

(** How a [try] block ends: normally (also by [return]) or by a thrown
    exception; either way with the state its setters have built. *)
Inductive Completion (S : Type) :=
| Done (s : S)
| Raised (s : S).
Arguments Done {S} s.
Arguments Raised {S} s.

End Db.

(** ** The Leads page ([app/auth/leads/page.tsx]) *)

Module Leads.
Import Db.

(** A row of the table on screen: the lead with the exclusion timestamp
    of its association merged in. *)
Record LeadRow := {
  lead : SerpLead;
  excluded : option Timestamp
}.

(** The [useState] cells of [LeadsPage]. *)
Record LeadsPage := {
  isLoading : bool;
  error : Js.str;
  successMessage : Js.str;
  userAccountId : option Z;
  leads : list LeadRow;
  showWithoutEmails : bool;
  showEmailedLeads : bool;
  currentPage : Z;
  recordsPerPage : Z;
  totalRecords : Z;
  totalPages : Js.number;
  selectedLeads : Js.StrSet;
  showExcludedLeads : bool;
  excludeDialogOpen : bool;
  availableCategories : list Js.str;
  selectedCategories : Js.StrSet;
  customCategory : Js.str;
  customCategoryError : Js.str
}.

Definition setIsLoading (v : bool) (st : LeadsPage) : LeadsPage :=
  {| isLoading := v; error := error st;
     successMessage := successMessage st;
     userAccountId := userAccountId st; leads := leads st;
     showWithoutEmails := showWithoutEmails st;
     showEmailedLeads := showEmailedLeads st;
     currentPage := currentPage st; recordsPerPage := recordsPerPage st;
     totalRecords := totalRecords st; totalPages := totalPages st;
     selectedLeads := selectedLeads st;
     showExcludedLeads := showExcludedLeads st;
     excludeDialogOpen := excludeDialogOpen st;
     availableCategories := availableCategories st;
     selectedCategories := selectedCategories st;
     customCategory := customCategory st;
     customCategoryError := customCategoryError st |}.

Definition setError (v : Js.str) (st : LeadsPage) : LeadsPage :=
  {| isLoading := isLoading st; error := v;
     successMessage := successMessage st;
     userAccountId := userAccountId st; leads := leads st;
     showWithoutEmails := showWithoutEmails st;
     showEmailedLeads := showEmailedLeads st;
     currentPage := currentPage st; recordsPerPage := recordsPerPage st;
     totalRecords := totalRecords st; totalPages := totalPages st;
     selectedLeads := selectedLeads st;
     showExcludedLeads := showExcludedLeads st;
     excludeDialogOpen := excludeDialogOpen st;
     availableCategories := availableCategories st;
     selectedCategories := selectedCategories st;
     customCategory := customCategory st;
     customCategoryError := customCategoryError st |}.

Definition setSuccessMessage (v : Js.str) (st : LeadsPage) : LeadsPage :=
  {| isLoading := isLoading st; error := error st; successMessage := v;
     userAccountId := userAccountId st; leads := leads st;
     showWithoutEmails := showWithoutEmails st;
     showEmailedLeads := showEmailedLeads st;
     currentPage := currentPage st; recordsPerPage := recordsPerPage st;
     totalRecords := totalRecords st; totalPages := totalPages st;
     selectedLeads := selectedLeads st;
     showExcludedLeads := showExcludedLeads st;
     excludeDialogOpen := excludeDialogOpen st;
     availableCategories := availableCategories st;
     selectedCategories := selectedCategories st;
     customCategory := customCategory st;
     customCategoryError := customCategoryError st |}.

Definition setUserAccountId (v : option Z) (st : LeadsPage) : LeadsPage :=
  {| isLoading := isLoading st; error := error st;
     successMessage := successMessage st; userAccountId := v;
     leads := leads st; showWithoutEmails := showWithoutEmails st;
     showEmailedLeads := showEmailedLeads st;
     currentPage := currentPage st; recordsPerPage := recordsPerPage st;
     totalRecords := totalRecords st; totalPages := totalPages st;
     selectedLeads := selectedLeads st;
     showExcludedLeads := showExcludedLeads st;
     excludeDialogOpen := excludeDialogOpen st;
     availableCategories := availableCategories st;
     selectedCategories := selectedCategories st;
     customCategory := customCategory st;
     customCategoryError := customCategoryError st |}.

Definition setLeads (v : list LeadRow) (st : LeadsPage) : LeadsPage :=
  {| isLoading := isLoading st; error := error st;
     successMessage := successMessage st;
     userAccountId := userAccountId st; leads := v;
     showWithoutEmails := showWithoutEmails st;
     showEmailedLeads := showEmailedLeads st;
     currentPage := currentPage st; recordsPerPage := recordsPerPage st;
     totalRecords := totalRecords st; totalPages := totalPages st;
     selectedLeads := selectedLeads st;
     showExcludedLeads := showExcludedLeads st;
     excludeDialogOpen := excludeDialogOpen st;
     availableCategories := availableCategories st;
     selectedCategories := selectedCategories st;
     customCategory := customCategory st;
     customCategoryError := customCategoryError st |}.

Definition setShowWithoutEmails (v : bool) (st : LeadsPage) : LeadsPage :=
  {| isLoading := isLoading st; error := error st;
     successMessage := successMessage st;
     userAccountId := userAccountId st; leads := leads st;
     showWithoutEmails := v; showEmailedLeads := showEmailedLeads st;
     currentPage := currentPage st; recordsPerPage := recordsPerPage st;
     totalRecords := totalRecords st; totalPages := totalPages st;
     selectedLeads := selectedLeads st;
     showExcludedLeads := showExcludedLeads st;
     excludeDialogOpen := excludeDialogOpen st;
     availableCategories := availableCategories st;
     selectedCategories := selectedCategories st;
     customCategory := customCategory st;
     customCategoryError := customCategoryError st |}.

Definition setShowEmailedLeads (v : bool) (st : LeadsPage) : LeadsPage :=
  {| isLoading := isLoading st; error := error st;
     successMessage := successMessage st;
     userAccountId := userAccountId st; leads := leads st;
     showWithoutEmails := showWithoutEmails st; showEmailedLeads := v;
     currentPage := currentPage st; recordsPerPage := recordsPerPage st;
     totalRecords := totalRecords st; totalPages := totalPages st;
     selectedLeads := selectedLeads st;
     showExcludedLeads := showExcludedLeads st;
     excludeDialogOpen := excludeDialogOpen st;
     availableCategories := availableCategories st;
     selectedCategories := selectedCategories st;
     customCategory := customCategory st;
     customCategoryError := customCategoryError st |}.

Definition setCurrentPage (v : Z) (st : LeadsPage) : LeadsPage :=
  {| isLoading := isLoading st; error := error st;
     successMessage := successMessage st;
     userAccountId := userAccountId st; leads := leads st;
     showWithoutEmails := showWithoutEmails st;
     showEmailedLeads := showEmailedLeads st; currentPage := v;
     recordsPerPage := recordsPerPage st; totalRecords := totalRecords st;
     totalPages := totalPages st; selectedLeads := selectedLeads st;
     showExcludedLeads := showExcludedLeads st;
     excludeDialogOpen := excludeDialogOpen st;
     availableCategories := availableCategories st;
     selectedCategories := selectedCategories st;
     customCategory := customCategory st;
     customCategoryError := customCategoryError st |}.

Definition setRecordsPerPage (v : Z) (st : LeadsPage) : LeadsPage :=
  {| isLoading := isLoading st; error := error st;
     successMessage := successMessage st;
     userAccountId := userAccountId st; leads := leads st;
     showWithoutEmails := showWithoutEmails st;
     showEmailedLeads := showEmailedLeads st;
     currentPage := currentPage st; recordsPerPage := v;
     totalRecords := totalRecords st; totalPages := totalPages st;
     selectedLeads := selectedLeads st;
     showExcludedLeads := showExcludedLeads st;
     excludeDialogOpen := excludeDialogOpen st;
     availableCategories := availableCategories st;
     selectedCategories := selectedCategories st;
     customCategory := customCategory st;
     customCategoryError := customCategoryError st |}.

Definition setTotalRecords (v : Z) (st : LeadsPage) : LeadsPage :=
  {| isLoading := isLoading st; error := error st;
     successMessage := successMessage st;
     userAccountId := userAccountId st; leads := leads st;
     showWithoutEmails := showWithoutEmails st;
     showEmailedLeads := showEmailedLeads st;
     currentPage := currentPage st; recordsPerPage := recordsPerPage st;
     totalRecords := v; totalPages := totalPages st;
     selectedLeads := selectedLeads st;
     showExcludedLeads := showExcludedLeads st;
     excludeDialogOpen := excludeDialogOpen st;
     availableCategories := availableCategories st;
     selectedCategories := selectedCategories st;
     customCategory := customCategory st;
     customCategoryError := customCategoryError st |}.

Definition setTotalPages (v : Js.number) (st : LeadsPage) : LeadsPage :=
  {| isLoading := isLoading st; error := error st;
     successMessage := successMessage st;
     userAccountId := userAccountId st; leads := leads st;
     showWithoutEmails := showWithoutEmails st;
     showEmailedLeads := showEmailedLeads st;
     currentPage := currentPage st; recordsPerPage := recordsPerPage st;
     totalRecords := totalRecords st; totalPages := v;
     selectedLeads := selectedLeads st;
     showExcludedLeads := showExcludedLeads st;
     excludeDialogOpen := excludeDialogOpen st;
     availableCategories := availableCategories st;
     selectedCategories := selectedCategories st;
     customCategory := customCategory st;
     customCategoryError := customCategoryError st |}.

Definition setSelectedLeads (v : Js.StrSet) (st : LeadsPage) : LeadsPage :=
  {| isLoading := isLoading st; error := error st;
     successMessage := successMessage st;
     userAccountId := userAccountId st; leads := leads st;
     showWithoutEmails := showWithoutEmails st;
     showEmailedLeads := showEmailedLeads st;
     currentPage := currentPage st; recordsPerPage := recordsPerPage st;
     totalRecords := totalRecords st; totalPages := totalPages st;
     selectedLeads := v; showExcludedLeads := showExcludedLeads st;
     excludeDialogOpen := excludeDialogOpen st;
     availableCategories := availableCategories st;
     selectedCategories := selectedCategories st;
     customCategory := customCategory st;
     customCategoryError := customCategoryError st |}.

Definition setShowExcludedLeads (v : bool) (st : LeadsPage) : LeadsPage :=
  {| isLoading := isLoading st; error := error st;
     successMessage := successMessage st;
     userAccountId := userAccountId st; leads := leads st;
     showWithoutEmails := showWithoutEmails st;
     showEmailedLeads := showEmailedLeads st;
     currentPage := currentPage st; recordsPerPage := recordsPerPage st;
     totalRecords := totalRecords st; totalPages := totalPages st;
     selectedLeads := selectedLeads st; showExcludedLeads := v;
     excludeDialogOpen := excludeDialogOpen st;
     availableCategories := availableCategories st;
     selectedCategories := selectedCategories st;
     customCategory := customCategory st;
     customCategoryError := customCategoryError st |}.

Definition setExcludeDialogOpen (v : bool) (st : LeadsPage) : LeadsPage :=
  {| isLoading := isLoading st; error := error st;
     successMessage := successMessage st;
     userAccountId := userAccountId st; leads := leads st;
     showWithoutEmails := showWithoutEmails st;
     showEmailedLeads := showEmailedLeads st;
     currentPage := currentPage st; recordsPerPage := recordsPerPage st;
     totalRecords := totalRecords st; totalPages := totalPages st;
     selectedLeads := selectedLeads st;
     showExcludedLeads := showExcludedLeads st; excludeDialogOpen := v;
     availableCategories := availableCategories st;
     selectedCategories := selectedCategories st;
     customCategory := customCategory st;
     customCategoryError := customCategoryError st |}.

Definition setAvailableCategories (v : list Js.str) (st : LeadsPage) : LeadsPage :=
  {| isLoading := isLoading st; error := error st;
     successMessage := successMessage st;
     userAccountId := userAccountId st; leads := leads st;
     showWithoutEmails := showWithoutEmails st;
     showEmailedLeads := showEmailedLeads st;
     currentPage := currentPage st; recordsPerPage := recordsPerPage st;
     totalRecords := totalRecords st; totalPages := totalPages st;
     selectedLeads := selectedLeads st;
     showExcludedLeads := showExcludedLeads st;
     excludeDialogOpen := excludeDialogOpen st; availableCategories := v;
     selectedCategories := selectedCategories st;
     customCategory := customCategory st;
     customCategoryError := customCategoryError st |}.

Definition setSelectedCategories (v : Js.StrSet) (st : LeadsPage) : LeadsPage :=
  {| isLoading := isLoading st; error := error st;
     successMessage := successMessage st;
     userAccountId := userAccountId st; leads := leads st;
     showWithoutEmails := showWithoutEmails st;
     showEmailedLeads := showEmailedLeads st;
     currentPage := currentPage st; recordsPerPage := recordsPerPage st;
     totalRecords := totalRecords st; totalPages := totalPages st;
     selectedLeads := selectedLeads st;
     showExcludedLeads := showExcludedLeads st;
     excludeDialogOpen := excludeDialogOpen st;
     availableCategories := availableCategories st;
     selectedCategories := v; customCategory := customCategory st;
     customCategoryError := customCategoryError st |}.

Definition setCustomCategory (v : Js.str) (st : LeadsPage) : LeadsPage :=
  {| isLoading := isLoading st; error := error st;
     successMessage := successMessage st;
     userAccountId := userAccountId st; leads := leads st;
     showWithoutEmails := showWithoutEmails st;
     showEmailedLeads := showEmailedLeads st;
     currentPage := currentPage st; recordsPerPage := recordsPerPage st;
     totalRecords := totalRecords st; totalPages := totalPages st;
     selectedLeads := selectedLeads st;
     showExcludedLeads := showExcludedLeads st;
     excludeDialogOpen := excludeDialogOpen st;
     availableCategories := availableCategories st;
     selectedCategories := selectedCategories st; customCategory := v;
     customCategoryError := customCategoryError st |}.

Definition setCustomCategoryError (v : Js.str) (st : LeadsPage) : LeadsPage :=
  {| isLoading := isLoading st; error := error st;
     successMessage := successMessage st;
     userAccountId := userAccountId st; leads := leads st;
     showWithoutEmails := showWithoutEmails st;
     showEmailedLeads := showEmailedLeads st;
     currentPage := currentPage st; recordsPerPage := recordsPerPage st;
     totalRecords := totalRecords st; totalPages := totalPages st;
     selectedLeads := selectedLeads st;
     showExcludedLeads := showExcludedLeads st;
     excludeDialogOpen := excludeDialogOpen st;
     availableCategories := availableCategories st;
     selectedCategories := selectedCategories st;
     customCategory := customCategory st; customCategoryError := v |}.

(** The page together with what its handlers act on: the store, the
    [alert] boxes shown, and the delays of the pending [setTimeout]
    callbacks that clear the success notice. *)
Record World := {
  db : Database;
  page : LeadsPage;
  alerts : list Js.str;
  timers : list Z
}.

Definition on_page (f : LeadsPage -> LeadsPage) (w : World) : World :=
  {| db := db w; page := f (page w); alerts := alerts w;
     timers := timers w |}.

Definition on_db (f : Database -> Database) (w : World) : World :=
  {| db := f (db w); page := page w; alerts := alerts w;
     timers := timers w |}.

Definition alert (m : Js.str) (w : World) : World :=
  {| db := db w; page := page w; alerts := alerts w ++ [m];
     timers := timers w |}.

Definition setTimeout (delay : Z) (w : World) : World :=
  {| db := db w; page := page w; alerts := alerts w;
     timers := timers w ++ [delay] |}.

(** [!userAccountId] is true for [null] and for [0]; the account id the
    guard lets through. *)
Definition account (st : LeadsPage) : option Z :=
  match userAccountId st with
  | Some uid => if uid =? 0 then None else Some uid
  | None => None
  end.

(** [lead.email && lead.email !== 'EmailNotFound'] *)
Definition hasValidEmail (l : SerpLead) : bool :=
  match sl_email l with
  | Some e => Js.truthy e && negb (Js.eqb e (Js.lit "EmailNotFound"))
  | None => false
  end.

(** The [Set] of the ids of the leads with a valid email. *)
Definition leadsWithEmailSet (allLeadsData : list SerpLead) : Js.StrSet :=
  Js.set_of_list (map sl_id (filter hasValidEmail allLeadsData)).

(** [(draftIds || []).map(d => d.lead_id).filter(id => id)] *)
Definition truthyIds (draftIds : list (option LeadId)) : list LeadId :=
  flat_map (fun d => match d with
                     | Some id => if Js.truthy id then [id] else []
                     | None => []
                     end)
           draftIds.

(** Step 3: the drafted lead ids, fetched only in normal view with
    "show already emailed" off; an error object leaves the list empty,
    a rejection is thrown. *)
Definition fetchEmailedLeadIds (be : Backend) (db : Database)
  (st : LeadsPage) (uid : Z) : option (list LeadId) :=
  if negb (showEmailedLeads st) && negb (showExcludedLeads st) then
    match request be SelectDrafts (select_draft_lead_ids db uid) with
    | Data draftIds => Some (truthyIds draftIds)
    | Error _ => Some []
    | Rejected => None
    end
  else Some [].

(** Step 4: the callback of [allUserLeadsData.filter]. *)
Definition keepUserLead (st : LeadsPage) (emailedLeadIds : list LeadId)
  (withEmail : Js.StrSet) (ul : UserLead) : bool :=
  if negb (showExcludedLeads st) && negb (showEmailedLeads st)
     && Js.includes emailedLeadIds (ul_lead_id ul)
  then false
  else if negb (showExcludedLeads st) && negb (showWithoutEmails st)
          && negb (Js.includes withEmail (ul_lead_id ul))
  then false
  else true.

Definition filterUserLeads (st : LeadsPage) (emailedLeadIds : list LeadId)
  (withEmail : Js.StrSet) (allUserLeadsData : list UserLead)
  : list UserLead :=
  filter (keepUserLead st emailedLeadIds withEmail) allUserLeadsData.

(** Step 5: [filteredUserLeads.slice(from, to)]. *)
Definition paginate (page pageSize : Z) (filteredUserLeads : list UserLead)
  : list UserLead :=
  let from := (page - 1) * pageSize in
  let to := from + pageSize in
  Js.slice filteredUserLeads from to.

(** [new Map(pairs).get(key)]: of two pairs with one key the later
    wins. *)
Definition excludedMap_get (paginated : list UserLead) (key : LeadId)
  : option Timestamp :=
  match find (fun ul => Js.eqb key (ul_lead_id ul)) (rev paginated) with
  | Some ul => ul_excluded ul
  | None => None
  end.

Definition mergeLeads (paginated : list UserLead)
  (leadsData : list SerpLead) : list LeadRow :=
  map (fun l => {| lead := l; excluded := excludedMap_get paginated (sl_id l) |})
      leadsData.

Definition loadFailed (m : Js.str) : Js.str :=
  Js.lit "Failed to load leads: " ++ m.

(** The body of the [try] block of [loadLeads]. *)
Definition loadLeads_try (be : Backend) (db : Database) (st : LeadsPage)
  : Completion LeadsPage :=
  match getToken be with
  | TokenThrows => Raised st
  | TokenNull =>
      Done (setError (Js.lit "Authentication failed. Please sign in again.")
                     st)
  | TokenIssued =>
    match account st with
    | None => Done (setIsLoading false st)
    | Some uid =>
      (* Step 1 *)
      match request be SelectUserLeads
              (select_user_leads db uid (showExcludedLeads st)) with
      | Rejected => Raised st
      | Error m => Done (setError (loadFailed m) st)
      | Data [] =>
          Done (setLeads [] (setTotalPages (Js.Int 0) (setTotalRecords 0 st)))
      | Data allUserLeadsData =>
        (* Step 2 *)
        let allLeadIds := map ul_lead_id allUserLeadsData in
        match request be SelectLeadEmails (select_leads_in db allLeadIds)
        with
        | Rejected => Raised st
        | Error m => Done (setError (loadFailed m) st)
        | Data allLeadsData =>
          let withEmail := leadsWithEmailSet allLeadsData in
          (* Step 3 *)
          match fetchEmailedLeadIds be db st uid with
          | None => Raised st
          | Some emailedLeadIds =>
            (* Step 4 *)
            let filteredUserLeads :=
              filterUserLeads st emailedLeadIds withEmail allUserLeadsData in
            (* Step 5 *)
            let paginatedUserLeads :=
              paginate (currentPage st) (recordsPerPage st)
                       filteredUserLeads in
            let totalCount := Z.of_nat (List.length filteredUserLeads) in
            let st := setTotalRecords totalCount st in
            let st :=
              setTotalPages (Js.ceil_div totalCount (recordsPerPage st)) st in
            match paginatedUserLeads with
            | [] => Done (setLeads [] st)
            | _ :: _ =>
              (* Step 6 *)
              let paginatedLeadIds := map ul_lead_id paginatedUserLeads in
              match request be SelectLeadRows
                      (select_leads_in db paginatedLeadIds) with
              | Rejected => Raised st
              | Error m => Done (setError (loadFailed m) st)
              | Data leadsData =>
                  Done (setLeads (mergeLeads paginatedUserLeads leadsData) st)
              end
            end
          end
        end
      end
    end
  end.

Definition loadLeads (be : Backend) (db : Database) (st : LeadsPage)
  : LeadsPage :=
  let st := setError [] (setIsLoading true st) in
  let st :=
    match loadLeads_try be db st with
    | Done st' => st'
    | Raised st' =>
        setError (Js.lit "Failed to load leads. Please try again.") st'
    end in
  setIsLoading false st.

(** The filtered, unpaginated list of Step 4 in a run in which the
    requests of Steps 1 to 3 are answered. *)
Definition filteredUserLeads (db : Database) (st : LeadsPage) (uid : Z)
  : list UserLead :=
  let allUserLeadsData :=
    select_user_leads db uid (showExcludedLeads st) in
  let withEmail :=
    leadsWithEmailSet
      (select_leads_in db (map ul_lead_id allUserLeadsData)) in
  let emailedLeadIds :=
    if negb (showEmailedLeads st) && negb (showExcludedLeads st)
    then truthyIds (select_draft_lead_ids db uid) else [] in
  filterUserLeads st emailedLeadIds withEmail allUserLeadsData.

(** [`Successfully ${verb} ${count} lead${count === 1 ? '' : 's'}!`] *)
Definition successNotice (verb : Js.str) (count : nat) : Js.str :=
  Js.lit "Successfully " ++ verb ++ Js.lit " " ++ Js.of_nat count
  ++ Js.lit " lead" ++ (if Nat.eqb count 1 then [] else Js.lit "s")
  ++ Js.lit "!".

(** The categories of the selected rows, for the checkboxes of the
    dialog: split on spaces, trimmed, collected in a [Set], sorted. *)
Definition extractCategories (st : LeadsPage) : list Js.str :=
  let selected :=
    filter (fun r => Js.includes (selectedLeads st) (sl_id (lead r)))
           (leads st) in
  let allCategories :=
    fold_left
      (fun acc r =>
         match sl_categories (lead r) with
         | Some cats =>
             if Js.truthy cats then
               fold_left (fun acc cat => Js.set_add (Js.trim cat) acc)
                         (filter (fun cat => Js.truthy (Js.trim cat))
                                 (Js.split Js.space cats))
                         acc
             else acc
         | None => acc
         end)
      selected [] in
  Js.sort allCategories.

(** [handleRemoveLeads]: opens the exclusion dialog. *)
Definition handleRemoveLeads (st : LeadsPage) : LeadsPage :=
  if Nat.eqb (List.length (selectedLeads st)) 0 then st
  else
    let st := setAvailableCategories (extractCategories st) st in
    let st := setSelectedCategories [] st in
    let st := setCustomCategory [] st in
    let st := setCustomCategoryError [] st in
    setExcludeDialogOpen true st.

Definition restoreFailed : Js.str :=
  Js.lit "Failed to restore leads. Please try again.".
Definition excludeFailed : Js.str :=
  Js.lit "Failed to exclude leads. Please try again.".
Definition authFailed : Js.str :=
  Js.lit "Authentication failed. Please sign in again.".

Definition handleRestoreLeads_try (be : Backend) (uid : Z) (w : World)
  : Completion World :=
  match getToken be with
  | TokenThrows => Raised w
  | TokenNull => Done (alert authFailed w)
  | TokenIssued =>
      let leadIds := selectedLeads (page w) in
      match fault be UpdateUserLeads with
      | Throws => Raised w
      | Fails _ => Done (alert restoreFailed w)
      | Healthy =>
          let w := on_db (update_excluded uid leadIds None) w in
          let count := List.length (selectedLeads (page w)) in
          let w :=
            on_page (setSuccessMessage
                       (successNotice (Js.lit "restored") count)) w in
          let w := on_page (setSelectedLeads []) w in
          let w := setTimeout 3000 w in
          Done (on_page (loadLeads be (db w)) w)
      end
  end.

(** [handleRestoreLeads] *)
Definition handleRestoreLeads (be : Backend) (w : World) : World :=
  match Nat.eqb (List.length (selectedLeads (page w))) 0, account (page w)
  with
  | false, Some uid =>
      let w := on_page (setIsLoading true) w in
      let w :=
        match handleRestoreLeads_try be uid w with
        | Done w' => w'
        | Raised w' => alert restoreFailed w'
        end in
      on_page (setIsLoading false) w
  | _, _ => w
  end.

(** The categories chosen in the dialog: the ticked checkboxes, then the
    non-blank pieces of the custom field. *)
Definition categoriesToAdd (st : LeadsPage) : list Js.str :=
  selectedCategories st
  ++ (if Js.truthy (Js.trim (customCategory st))
      then filter (fun c => Js.truthy (Js.trim c))
                  (Js.split Js.comma (customCategory st))
      else []).

(** The merge of the chosen categories into the stored
    [serp_exc_cat]. *)
Definition existingCategories (stored : option Js.str) : list Js.str :=
  filter (fun c => Js.truthy (Js.trim c))
         (Js.split Js.comma (Js.or_else stored [])).

Definition mergeCategories (stored : option Js.str)
  (categoriesToAdd : list Js.str) : Js.str :=
  let existingCategories := existingCategories stored in
  let existingSet := Js.set_of_list existingCategories in
  let newCategories :=
    filter (fun cat => negb (Js.includes existingSet cat)) categoriesToAdd in
  let allCategories :=
    match existingCategories with
    | _ :: _ => existingCategories ++ newCategories
    | [] => newCategories
    end in
  Js.join [Js.comma] allCategories.

(** The [serp_exc_cat] part of [confirmExcludeLeads]. *)
Definition updateExcludedCategories (be : Backend) (uid : Z) (w : World)
  : Completion World :=
  match categoriesToAdd (page w) with
  | [] => Done w
  | toAdd =>
      match fault be SelectAccount with
      | Throws => Raised w
      | Fails _ => Done w
      | Healthy =>
          match select_account_single (db w) uid with
          | None => Done w
          | Some userData =>
              let newSerpExcCat :=
                mergeCategories (serp_exc_cat userData) toAdd in
              match fault be UpdateAccount with
              | Throws => Raised w
              | Fails _ => Done w
              | Healthy =>
                  Done (on_db (update_serp_exc_cat uid newSerpExcCat) w)
              end
          end
      end
  end.

Definition confirmExcludeLeads_try (be : Backend) (uid : Z) (w : World)
  : Completion World :=
  match getToken be with
  | TokenThrows => Raised w
  | TokenNull => Done (alert authFailed w)
  | TokenIssued =>
      let leadIds := selectedLeads (page w) in
      match fault be UpdateUserLeads with
      | Throws => Raised w
      | Fails _ =>
          Done (on_page (setIsLoading false) (alert excludeFailed w))
      | Healthy =>
          let w := on_db (update_excluded uid leadIds (Some (now be))) w in
          match updateExcludedCategories be uid w with
          | Raised w' => Raised w'
          | Done w =>
              let count := List.length (selectedLeads (page w)) in
              let w :=
                on_page (setSuccessMessage
                           (successNotice (Js.lit "excluded") count)) w in
              let w := on_page (setSelectedLeads []) w in
              let w := on_page (setExcludeDialogOpen false) w in
              let w := on_page (setSelectedCategories []) w in
              let w := on_page (setCustomCategory []) w in
              let w := on_page (setCustomCategoryError []) w in
              let w := setTimeout 3000 w in
              Done (on_page (loadLeads be (db w)) w)
          end
      end
  end.

(** [confirmExcludeLeads] *)
Definition confirmExcludeLeads (be : Backend) (w : World) : World :=
  match account (page w) with
  | None => w
  | Some uid =>
      if Js.truthy (Js.trim (customCategory (page w)))
         && negb (Regex.test Regex.customCategoryPattern
                             (customCategory (page w)))
      then w
      else
        let w := on_page (setIsLoading true) w in
        let w :=
          match confirmExcludeLeads_try be uid w with
          | Done w' => w'
          | Raised w' => alert excludeFailed w'
          end in
        on_page (setIsLoading false) w
  end.

Definition customCategoryMessage : Js.str :=
  Js.lit "Categories must be lowercase letters and underscores only, separated by commas with no spaces (example: plumber,electrician,contractor)".

(** [validateCustomCategory] *)
Definition validateCustomCategory (value : Js.str) (st : LeadsPage)
  : LeadsPage :=
  let st := setCustomCategory value st in
  if negb (Js.truthy (Js.trim value)) then setCustomCategoryError [] st
  else if Regex.test Regex.customCategoryPattern value
  then setCustomCategoryError [] st
  else setCustomCategoryError customCategoryMessage st.

(** [toggleCategorySelection] *)
Definition toggleCategorySelection (category : Js.str) (st : LeadsPage)
  : LeadsPage :=
  if Js.includes (selectedCategories st) category
  then setSelectedCategories (Js.set_delete category (selectedCategories st)) st
  else setSelectedCategories (Js.set_add category (selectedCategories st)) st.

(** [toggleLeadSelection] *)
Definition toggleLeadSelection (leadId : LeadId) (st : LeadsPage)
  : LeadsPage :=
  if Js.includes (selectedLeads st) leadId
  then setSelectedLeads (Js.set_delete leadId (selectedLeads st)) st
  else setSelectedLeads (Js.set_add leadId (selectedLeads st)) st.

(** The "Confirm Removal" button is [disabled={isLoading ||
    !!customCategoryError}]. *)
Definition confirmDisabled (st : LeadsPage) : bool :=
  isLoading st || Js.truthy (customCategoryError st).

End Leads.

(** ** The SERP settings page ([app/auth/serp-settings/page.tsx]) *)

Module Settings.
Import Db.

(** The [useState] cells of [SerpSettingsPage] that validation and
    autosave read or write, with [isSignedIn] and [userId] of the
    identity hook. *)
Record SettingsPage := {
  isSignedIn : bool;
  userId : option Js.str;
  error : Js.str;
  message : Js.str;
  serpKeywords : Js.str;
  serpCategory : Js.str;
  serpExcludedCategory : Js.str;
  serpLocations : Js.str;
  serpStates : Js.str;
  serpDataLoaded : bool;
  isSaving : bool;
  invalidLocationCodes : list Js.str;
  isValidatingCodes : bool;
  invalidCategoryItems : list Js.str;
  invalidExcludedCategoryItems : list Js.str
}.

Definition setError (v : Js.str) (st : SettingsPage) : SettingsPage :=
  {| isSignedIn := isSignedIn st; userId := userId st; error := v;
     message := message st; serpKeywords := serpKeywords st;
     serpCategory := serpCategory st;
     serpExcludedCategory := serpExcludedCategory st;
     serpLocations := serpLocations st; serpStates := serpStates st;
     serpDataLoaded := serpDataLoaded st; isSaving := isSaving st;
     invalidLocationCodes := invalidLocationCodes st;
     isValidatingCodes := isValidatingCodes st;
     invalidCategoryItems := invalidCategoryItems st;
     invalidExcludedCategoryItems := invalidExcludedCategoryItems st |}.

Definition setMessage (v : Js.str) (st : SettingsPage) : SettingsPage :=
  {| isSignedIn := isSignedIn st; userId := userId st; error := error st;
     message := v; serpKeywords := serpKeywords st;
     serpCategory := serpCategory st;
     serpExcludedCategory := serpExcludedCategory st;
     serpLocations := serpLocations st; serpStates := serpStates st;
     serpDataLoaded := serpDataLoaded st; isSaving := isSaving st;
     invalidLocationCodes := invalidLocationCodes st;
     isValidatingCodes := isValidatingCodes st;
     invalidCategoryItems := invalidCategoryItems st;
     invalidExcludedCategoryItems := invalidExcludedCategoryItems st |}.

Definition setSerpKeywords (v : Js.str) (st : SettingsPage) : SettingsPage :=
  {| isSignedIn := isSignedIn st; userId := userId st; error := error st;
     message := message st; serpKeywords := v;
     serpCategory := serpCategory st;
     serpExcludedCategory := serpExcludedCategory st;
     serpLocations := serpLocations st; serpStates := serpStates st;
     serpDataLoaded := serpDataLoaded st; isSaving := isSaving st;
     invalidLocationCodes := invalidLocationCodes st;
     isValidatingCodes := isValidatingCodes st;
     invalidCategoryItems := invalidCategoryItems st;
     invalidExcludedCategoryItems := invalidExcludedCategoryItems st |}.

Definition setSerpCategory (v : Js.str) (st : SettingsPage) : SettingsPage :=
  {| isSignedIn := isSignedIn st; userId := userId st; error := error st;
     message := message st; serpKeywords := serpKeywords st;
     serpCategory := v; serpExcludedCategory := serpExcludedCategory st;
     serpLocations := serpLocations st; serpStates := serpStates st;
     serpDataLoaded := serpDataLoaded st; isSaving := isSaving st;
     invalidLocationCodes := invalidLocationCodes st;
     isValidatingCodes := isValidatingCodes st;
     invalidCategoryItems := invalidCategoryItems st;
     invalidExcludedCategoryItems := invalidExcludedCategoryItems st |}.

Definition setSerpExcludedCategory (v : Js.str) (st : SettingsPage) : SettingsPage :=
  {| isSignedIn := isSignedIn st; userId := userId st; error := error st;
     message := message st; serpKeywords := serpKeywords st;
     serpCategory := serpCategory st; serpExcludedCategory := v;
     serpLocations := serpLocations st; serpStates := serpStates st;
     serpDataLoaded := serpDataLoaded st; isSaving := isSaving st;
     invalidLocationCodes := invalidLocationCodes st;
     isValidatingCodes := isValidatingCodes st;
     invalidCategoryItems := invalidCategoryItems st;
     invalidExcludedCategoryItems := invalidExcludedCategoryItems st |}.

Definition setSerpLocations (v : Js.str) (st : SettingsPage) : SettingsPage :=
  {| isSignedIn := isSignedIn st; userId := userId st; error := error st;
     message := message st; serpKeywords := serpKeywords st;
     serpCategory := serpCategory st;
     serpExcludedCategory := serpExcludedCategory st; serpLocations := v;
     serpStates := serpStates st; serpDataLoaded := serpDataLoaded st;
     isSaving := isSaving st;
     invalidLocationCodes := invalidLocationCodes st;
     isValidatingCodes := isValidatingCodes st;
     invalidCategoryItems := invalidCategoryItems st;
     invalidExcludedCategoryItems := invalidExcludedCategoryItems st |}.

Definition setSerpStates (v : Js.str) (st : SettingsPage) : SettingsPage :=
  {| isSignedIn := isSignedIn st; userId := userId st; error := error st;
     message := message st; serpKeywords := serpKeywords st;
     serpCategory := serpCategory st;
     serpExcludedCategory := serpExcludedCategory st;
     serpLocations := serpLocations st; serpStates := v;
     serpDataLoaded := serpDataLoaded st; isSaving := isSaving st;
     invalidLocationCodes := invalidLocationCodes st;
     isValidatingCodes := isValidatingCodes st;
     invalidCategoryItems := invalidCategoryItems st;
     invalidExcludedCategoryItems := invalidExcludedCategoryItems st |}.

Definition setSerpDataLoaded (v : bool) (st : SettingsPage) : SettingsPage :=
  {| isSignedIn := isSignedIn st; userId := userId st; error := error st;
     message := message st; serpKeywords := serpKeywords st;
     serpCategory := serpCategory st;
     serpExcludedCategory := serpExcludedCategory st;
     serpLocations := serpLocations st; serpStates := serpStates st;
     serpDataLoaded := v; isSaving := isSaving st;
     invalidLocationCodes := invalidLocationCodes st;
     isValidatingCodes := isValidatingCodes st;
     invalidCategoryItems := invalidCategoryItems st;
     invalidExcludedCategoryItems := invalidExcludedCategoryItems st |}.

Definition setIsSaving (v : bool) (st : SettingsPage) : SettingsPage :=
  {| isSignedIn := isSignedIn st; userId := userId st; error := error st;
     message := message st; serpKeywords := serpKeywords st;
     serpCategory := serpCategory st;
     serpExcludedCategory := serpExcludedCategory st;
     serpLocations := serpLocations st; serpStates := serpStates st;
     serpDataLoaded := serpDataLoaded st; isSaving := v;
     invalidLocationCodes := invalidLocationCodes st;
     isValidatingCodes := isValidatingCodes st;
     invalidCategoryItems := invalidCategoryItems st;
     invalidExcludedCategoryItems := invalidExcludedCategoryItems st |}.

Definition setInvalidLocationCodes (v : list Js.str) (st : SettingsPage) : SettingsPage :=
  {| isSignedIn := isSignedIn st; userId := userId st; error := error st;
     message := message st; serpKeywords := serpKeywords st;
     serpCategory := serpCategory st;
     serpExcludedCategory := serpExcludedCategory st;
     serpLocations := serpLocations st; serpStates := serpStates st;
     serpDataLoaded := serpDataLoaded st; isSaving := isSaving st;
     invalidLocationCodes := v; isValidatingCodes := isValidatingCodes st;
     invalidCategoryItems := invalidCategoryItems st;
     invalidExcludedCategoryItems := invalidExcludedCategoryItems st |}.

Definition setIsValidatingCodes (v : bool) (st : SettingsPage) : SettingsPage :=
  {| isSignedIn := isSignedIn st; userId := userId st; error := error st;
     message := message st; serpKeywords := serpKeywords st;
     serpCategory := serpCategory st;
     serpExcludedCategory := serpExcludedCategory st;
     serpLocations := serpLocations st; serpStates := serpStates st;
     serpDataLoaded := serpDataLoaded st; isSaving := isSaving st;
     invalidLocationCodes := invalidLocationCodes st;
     isValidatingCodes := v;
     invalidCategoryItems := invalidCategoryItems st;
     invalidExcludedCategoryItems := invalidExcludedCategoryItems st |}.

Definition setInvalidCategoryItems (v : list Js.str) (st : SettingsPage) : SettingsPage :=
  {| isSignedIn := isSignedIn st; userId := userId st; error := error st;
     message := message st; serpKeywords := serpKeywords st;
     serpCategory := serpCategory st;
     serpExcludedCategory := serpExcludedCategory st;
     serpLocations := serpLocations st; serpStates := serpStates st;
     serpDataLoaded := serpDataLoaded st; isSaving := isSaving st;
     invalidLocationCodes := invalidLocationCodes st;
     isValidatingCodes := isValidatingCodes st; invalidCategoryItems := v;
     invalidExcludedCategoryItems := invalidExcludedCategoryItems st |}.

Definition setInvalidExcludedCategoryItems (v : list Js.str) (st : SettingsPage) : SettingsPage :=
  {| isSignedIn := isSignedIn st; userId := userId st; error := error st;
     message := message st; serpKeywords := serpKeywords st;
     serpCategory := serpCategory st;
     serpExcludedCategory := serpExcludedCategory st;
     serpLocations := serpLocations st; serpStates := serpStates st;
     serpDataLoaded := serpDataLoaded st; isSaving := isSaving st;
     invalidLocationCodes := invalidLocationCodes st;
     isValidatingCodes := isValidatingCodes st;
     invalidCategoryItems := invalidCategoryItems st;
     invalidExcludedCategoryItems := v |}.

Definition nonEmpty (s : Js.str) : bool :=
  negb (Nat.eqb (List.length s) 0).

(** [cleanCommaSeparatedValues(value, allowSpaces = false)] *)
Definition cleanCommaSeparatedValues (value : Js.str) (allowSpaces : bool)
  : Js.str :=
  if negb (Js.truthy value) then []
  else
    let values :=
      filter nonEmpty (map Js.trim (Js.split Js.comma value)) in
    if negb allowSpaces
    then Js.join [Js.comma] (map Js.removeWhiteSpace values)
    else Js.join [Js.comma] values.

(** A token that normalisation leaves alone: not empty, trimmed, free
    of commas and, when spaces are not allowed, free of white space. *)
Definition settled (allowSpaces : bool) (t : Js.str) : Prop :=
  t <> [] /\ Js.trim t = t /\ ~ In Js.comma t
  /\ (allowSpaces = false -> Js.removeWhiteSpace t = t).

(** [validateCategoryField]: the items handed to [setInvalid]. *)
Definition validateCategoryField (value : Js.str) : list Js.str :=
  if negb (Js.truthy (Js.trim value)) then []
  else
    let items :=
      filter nonEmpty (map Js.trim (Js.split Js.comma value)) in
    filter (fun item => negb (Regex.test Regex.categoryItemPattern item))
           items.

(** The effect on [serpCategory]. *)
Definition categoryEffect (st : SettingsPage) : SettingsPage :=
  if negb (Js.truthy (serpCategory st)) then setInvalidCategoryItems [] st
  else setInvalidCategoryItems (validateCategoryField (serpCategory st)) st.

(** The effect on [serpExcludedCategory]. *)
Definition excludedCategoryEffect (st : SettingsPage) : SettingsPage :=
  if negb (Js.truthy (serpExcludedCategory st))
  then setInvalidExcludedCategoryItems [] st
  else setInvalidExcludedCategoryItems
         (validateCategoryField (serpExcludedCategory st)) st.

(** The effect on [serpLocations]: the new state, and whether the
    1.5 s validation timer is armed. *)
Definition locationEffect (st : SettingsPage) : SettingsPage * bool :=
  if negb (Js.truthy (serpLocations st)) || negb (isSignedIn st)
  then (setInvalidLocationCodes [] st, false)
  else (st, true).

Definition anyInvalid (st : SettingsPage) : bool :=
  (0 <? List.length (invalidCategoryItems st))%nat
  || (0 <? List.length (invalidExcludedCategoryItems st))%nat
  || (0 <? List.length (invalidLocationCodes st))%nat.

(** The autosave effect: whether it arms the 2 s timer. Its cleanup
    clears the timer whenever one of its dependencies changes. *)
Definition autosaveEffect (st : SettingsPage) : bool :=
  if negb (isSignedIn st) || negb (serpDataLoaded st) then false
  else if isValidatingCodes st then false
  else if anyInvalid st then false
  else true.

(** [.update({ serp_keywords: ..., ... }).eq('clerk_id', userId)] *)
Definition update_settings (userId : Js.str)
  (keywords cat exc_cat locations states : option Js.str) (db : Database)
  : Database :=
  with_user_accounts
    (map (fun a =>
            if Js.eqb (ua_clerk_id a) userId
            then {| ua_id := ua_id a; ua_clerk_id := ua_clerk_id a;
                    serp_keywords := keywords; serp_cat := cat;
                    serp_exc_cat := exc_cat; serp_locations := locations;
                    serp_states := states |}
            else a)
         (user_accounts db))
    db.

(** [!userId] *)
Definition signedInUser (st : SettingsPage) : option Js.str :=
  match userId st with
  | Some u => if Js.truthy u then Some u else None
  | None => None
  end.

(** The body of the [try] block of [autoSaveSerpSettings]. The values
    saved are those of the render the callback closes over; the setters
    act on the current state. *)
Definition autoSave_try (be : Backend) (user : Js.str)
  (closure : SettingsPage) (w : Database * SettingsPage)
  : Completion (Database * SettingsPage) :=
  let (db, st) := w in
  match getToken be with
  | TokenThrows => Raised (db, st)
  | TokenNull =>
      Done (db, setError
                  (Js.lit "Authentication failed. Please sign in again.") st)
  | TokenIssued =>
      let cleanedKeywords :=
        cleanCommaSeparatedValues (serpKeywords closure) true in
      let cleanedCategory :=
        cleanCommaSeparatedValues (serpCategory closure) false in
      let cleanedExcludedCategory :=
        cleanCommaSeparatedValues (serpExcludedCategory closure) false in
      let cleanedLocations :=
        cleanCommaSeparatedValues (serpLocations closure) false in
      let cleanedStates :=
        cleanCommaSeparatedValues (serpStates closure) true in
      match fault be UpdateSettings with
      | Throws => Raised (db, st)
      | Fails _ =>
          Done (db, setError
                      (Js.lit "Failed to save settings. Changes may be lost.")
                      st)
      | Healthy =>
          Done (update_settings user
                  (Js.or_null cleanedKeywords)
                  (Js.or_null cleanedCategory)
                  (Js.or_null cleanedExcludedCategory)
                  (Js.or_null cleanedLocations)
                  (Js.or_null cleanedStates) db,
                setMessage (Js.lit "Settings saved automatically")
                           (setError [] st))
      end
  end.

(** [autoSaveSerpSettings], run as the callback of the autosave timer.
    The 2 s timer that clears [message] again is not kept. *)
Definition autoSaveSerpSettings (be : Backend) (closure : SettingsPage)
  (w : Database * SettingsPage) : Database * SettingsPage :=
  match signedInUser closure with
  | None => w
  | Some user =>
      if isValidatingCodes closure then w
      else if anyInvalid closure then w
      else
        let w := (fst w, setIsSaving true (snd w)) in
        let w :=
          match autoSave_try be user closure w with
          | Done w' => w'
          | Raised (db, st) =>
              (db, setError
                     (Js.lit "Failed to save settings. Please check your connection.")
                     st)
          end in
        (fst w, setIsSaving false (snd w))
  end.

(** The location codes of the field: split, trimmed, blanks dropped. *)
Definition locationCodes (st : SettingsPage) : list Js.str :=
  filter nonEmpty (map Js.trim (Js.split Js.comma (serpLocations st))).

(** [row.location_code.toString()] *)
Definition code_toString (code : Z) : Js.str :=
  Js.lit (NilZero.string_of_int (Z.to_int code)).

(** [from('google_locations').select('location_code')
    .in('location_code', codes)] *)
Definition select_locations (db : Database) (codes : list Js.str)
  : list Z :=
  filter (fun code => Js.includes codes (code_toString code))
         (google_locations db).

(** [validateLocationCodes] up to its first [await]: the new state, and
    whether a validation is now in flight. *)
Definition validateLocationCodes_start (closure st : SettingsPage)
  : SettingsPage * bool :=
  if negb (Js.truthy (Js.trim (serpLocations closure)))
  then (setInvalidLocationCodes [] st, false)
  else (setIsValidatingCodes true st, true).

(** [validateLocationCodes] from its first [await] on. *)
Definition validateLocationCodes_finish (be : Backend) (db : Database)
  (closure st : SettingsPage) : SettingsPage :=
  let st :=
    match getToken be with
    | TokenThrows => st
    | TokenNull => st
    | TokenIssued =>
        match locationCodes closure with
        | [] => setInvalidLocationCodes [] st
        | codes =>
            match request be SelectLocations (select_locations db codes)
            with
            | Rejected => st
            | Error _ => st
            | Data data =>
                let validCodes := Js.set_of_list (map code_toString data) in
                setInvalidLocationCodes
                  (filter (fun code => negb (Js.includes validCodes code))
                          codes)
                  st
            end
        end
    end in
  setIsValidatingCodes false st.

(** *** The autosave machine

    One step is one run of an event handler, an effect, or a timer
    callback. A pending timer is kept with the render its callback
    closes over; a validation that awaits the backend is kept the same
    way. These are the steps of validation and autosave, with [Edit]
    for a change of the text of a field; the page as a whole, with the
    search handlers, the timer that clears the notice of a save, and
    edits that change nothing, is [Session.step] below. *)

Record Machine := {
  page : SettingsPage;
  store : Database;
  saveTimer : option SettingsPage;
  validateTimer : option SettingsPage;
  inFlight : list SettingsPage
}.

Inductive Field :=
| Keywords
| Category
| ExcludedCategory
| Locations
| States.

Inductive Event :=
| Load (row : UserAccount)
| Edit (f : Field) (value : Js.str)
| ValidateTimerFires
| ValidationReturns (n : nat) (be : Backend)
| SaveTimerFires (be : Backend).

(** [value.replace(/[^0-9,]/g, '')], the filter of the location
    textarea. *)
Definition digitsAndCommas (v : Js.str) : Js.str :=
  filter (fun c => ((48 <=? c) && (c <=? 57) || (c =? 44))%N) v.

(** The [onChange] handlers of the five fields. *)
Definition setField (f : Field) (v : Js.str) (st : SettingsPage)
  : SettingsPage :=
  match f with
  | Keywords => setSerpKeywords v st
  | Category => setSerpCategory v st
  | ExcludedCategory => setSerpExcludedCategory v st
  | Locations => setSerpLocations (digitsAndCommas v) st
  | States => setSerpStates v st
  end.

(** The autosave effect after a render that changed one of its
    dependencies: the cleanup clears the pending timer, then the effect
    arms a new one or returns early. *)
Definition rearm (m : Machine) : Machine :=
  {| page := page m; store := store m;
     saveTimer := if autosaveEffect (page m) then Some (page m) else None;
     validateTimer := validateTimer m; inFlight := inFlight m |}.

(** The location effect after a render that changed [serpLocations]. *)
Definition rearmValidation (m : Machine) : Machine :=
  let (st, armed) := locationEffect (page m) in
  {| page := st; store := store m; saveTimer := saveTimer m;
     validateTimer := if armed then Some st else None;
     inFlight := inFlight m |}.

Definition on_page (f : SettingsPage -> SettingsPage) (m : Machine)
  : Machine :=
  {| page := f (page m); store := store m; saveTimer := saveTimer m;
     validateTimer := validateTimer m; inFlight := inFlight m |}.

(** [loadSerpSettings] with a row: fills the five fields and enables
    autosave. *)
Definition loaded (row : UserAccount) (st : SettingsPage) : SettingsPage :=
  let st := setSerpKeywords (Js.or_else (serp_keywords row) []) st in
  let st := setSerpCategory (Js.or_else (serp_cat row) []) st in
  let st := setSerpExcludedCategory (Js.or_else (serp_exc_cat row) []) st in
  let st := setSerpLocations (Js.or_else (serp_locations row) []) st in
  let st := setSerpStates (Js.or_else (serp_states row) []) st in
  setSerpDataLoaded true st.

Fixpoint remove_nth {A : Type} (n : nat) (l : list A) : list A :=
  match n, l with
  | _, [] => []
  | O, _ :: l' => l'
  | S n', x :: l' => x :: remove_nth n' l'
  end.

Definition step (e : Event) (m : Machine) : Machine :=
  match e with
  | Load row =>
      let m := on_page (loaded row) m in
      let m := on_page categoryEffect m in
      let m := on_page excludedCategoryEffect m in
      let m := rearmValidation m in
      rearm m
  | Edit f v =>
      let m := on_page (setField f v) m in
      let m :=
        match f with
        | Category => on_page categoryEffect m
        | ExcludedCategory => on_page excludedCategoryEffect m
        | Locations => rearmValidation m
        | Keywords | States => m
        end in
      rearm m
  | ValidateTimerFires =>
      match validateTimer m with
      | None => m
      | Some closure =>
          let (st, flying) := validateLocationCodes_start closure (page m) in
          rearm {| page := st; store := store m; saveTimer := saveTimer m;
                   validateTimer := None;
                   inFlight := if flying then inFlight m ++ [closure]
                               else inFlight m |}
      end
  | ValidationReturns n be =>
      match nth_error (inFlight m) n with
      | None => m
      | Some closure =>
          rearm {| page := validateLocationCodes_finish be (store m)
                             closure (page m);
                   store := store m; saveTimer := saveTimer m;
                   validateTimer := validateTimer m;
                   inFlight := remove_nth n (inFlight m) |}
      end
  | SaveTimerFires be =>
      match saveTimer m with
      | None => m
      | Some closure =>
          let (db', st') :=
            autoSaveSerpSettings be closure (store m, page m) in
          {| page := st'; store := db'; saveTimer := None;
             validateTimer := validateTimer m; inFlight := inFlight m |}
      end
  end.

(** The page as first rendered: empty fields, nothing loaded. *)
Definition initialPage (signedIn : bool) (user : option Js.str)
  : SettingsPage :=
  {| isSignedIn := signedIn; userId := user; error := []; message := [];
     serpKeywords := []; serpCategory := []; serpExcludedCategory := [];
     serpLocations := []; serpStates := []; serpDataLoaded := false;
     isSaving := false; invalidLocationCodes := [];
     isValidatingCodes := false; invalidCategoryItems := [];
     invalidExcludedCategoryItems := [] |}.

Definition initial (signedIn : bool) (user : option Js.str)
  (db : Database) : Machine :=
  {| page := initialPage signedIn user; store := db; saveTimer := None;
     validateTimer := None; inFlight := [] |}.

Definition run (events : list Event) (m : Machine) : Machine :=
  fold_left (fun m e => step e m) events m.

(** A pending autosave timer closes over the current render, and that
    render passed the guards of the effect. *)
Definition timerFresh (m : Machine) : Prop :=
  forall closure,
    saveTimer m = Some closure ->
    closure = page m /\ autosaveEffect (page m) = true.

(** The two category lists are those of the text now in the fields. *)
Definition listsCurrent (m : Machine) : Prop :=
  invalidCategoryItems (page m) = validateCategoryField (serpCategory (page m))
  /\ invalidExcludedCategoryItems (page m)
     = validateCategoryField (serpExcludedCategory (page m)).

(** The states the machine can be in, from a given start. *)
Inductive reachable (start : Machine) : Machine -> Prop :=
| reach_start : reachable start start
| reach_step m e : reachable start m -> reachable start (step e m).

End Settings.

(** ** Row selection on the Leads page *)

Module LeadsTable.
Import Db Leads.

(** The ids of the rows on screen, as [leads.map(lead => lead.id!)
    .filter(id => id)] gives them. *)
Definition rowIds (st : LeadsPage) : list LeadId :=
  filter Js.truthy (map (fun r => sl_id (lead r)) (leads st)).

(** [toggleSelectAll] *)
Definition toggleSelectAll (st : LeadsPage) : LeadsPage :=
  if Nat.eqb (List.length (selectedLeads st)) (List.length (leads st))
  then setSelectedLeads [] st
  else setSelectedLeads (Js.set_of_list (rowIds st)) st.

(** The header checkbox is
    [checked={selectedLeads.size === leads.length && leads.length > 0}]. *)
Definition headerChecked (st : LeadsPage) : bool :=
  Nat.eqb (List.length (selectedLeads st)) (List.length (leads st))
  && (0 <? List.length (leads st))%nat.

(** Sortedness in the order of [Array.prototype.sort]. *)
Fixpoint ascending (l : list Js.str) : Prop :=
  match l with
  | [] => True
  | x :: l' =>
      match l' with
      | [] => True
      | y :: _ => Js.leb x y = true /\ ascending l'
      end
  end.

(** A category that survives the parser of the stored exclusion set as
    one entry: free of commas and not blank. *)
Definition wellFormed (c : Js.str) : Prop :=
  ~ In Js.comma c /\ Js.trim c <> [].

(** What the loop of [handleRemoveLeads] takes from one row: a trimmed,
    non-empty piece of its space-separated categories. *)
Definition offeredBy (r : LeadRow) (c : Js.str) : Prop :=
  exists cats piece,
    sl_categories (lead r) = Some cats
    /\ In piece (Js.split Js.space cats)
    /\ Js.trim piece = c /\ c <> [].

End LeadsTable.

(** ** Starting a search from the settings page *)

Module SearchStart.
Import Db Settings.

(** The settings page with the cells the search handlers add:
    [accountNumber], [isLoading] and [searchPreviewModalOpen]. *)
Record SearchPage := {
  form : SettingsPage;
  accountNumber : option Z;
  isLoading : bool;
  searchPreviewModalOpen : bool
}.

Definition on_form (f : SettingsPage -> SettingsPage) (sp : SearchPage)
  : SearchPage :=
  {| form := f (form sp); accountNumber := accountNumber sp;
     isLoading := isLoading sp;
     searchPreviewModalOpen := searchPreviewModalOpen sp |}.

Definition setIsLoading (v : bool) (sp : SearchPage) : SearchPage :=
  {| form := form sp; accountNumber := accountNumber sp; isLoading := v;
     searchPreviewModalOpen := searchPreviewModalOpen sp |}.

Definition setSearchPreviewModalOpen (v : bool) (sp : SearchPage)
  : SearchPage :=
  {| form := form sp; accountNumber := accountNumber sp;
     isLoading := isLoading sp; searchPreviewModalOpen := v |}.

(** The user that passes the guard [!isSignedIn || !userId]. *)
Definition sessionUser (st : SettingsPage) : option Js.str :=
  if isSignedIn st then signedInUser st else None.

Definition pleaseLogIn : Js.str := Js.lit "Please log in first".
Definition fixValidation : Js.str :=
  Js.lit "Please fix validation errors before starting search.".
Definition provideBoth : Js.str :=
  Js.lit "Please provide both keywords and location codes.".

(** [handleStartSearchClick] *)
Definition handleStartSearchClick (sp : SearchPage) : SearchPage :=
  let sp := on_form (setError []) sp in
  let sp := on_form (setMessage []) sp in
  match sessionUser (form sp) with
  | None => on_form (setError pleaseLogIn) sp
  | Some _ =>
      if anyInvalid (form sp) then on_form (setError fixValidation) sp
      else if negb (Js.truthy (Js.trim (serpKeywords (form sp))))
              || negb (Js.truthy (Js.trim (serpLocations (form sp))))
      then on_form (setError provideBoth) sp
      else setSearchPreviewModalOpen true sp
  end.

(** [haystack.includes(needle)] on strings. *)
Fixpoint startsWith (needle s : Js.str) : bool :=
  match needle, s with
  | [], _ => true
  | _ :: _, [] => false
  | a :: needle', b :: s' => N.eqb a b && startsWith needle' s'
  end.

Fixpoint includesStr (s needle : Js.str) : bool :=
  startsWith needle s
  || match s with
     | [] => false
     | _ :: s' => includesStr s' needle
     end.

(** What the webhook's response offers: [response.ok], the content-type
    header, the outcome of [response.json()] (the [message] and [result]
    members, or a parse failure), and that of [response.text()]. *)
Record Response := {
  ok : bool;
  contentType : option Js.str;
  json : option (option Js.str * option Js.str);
  text : option Js.str
}.

Inductive FetchResult :=
| Responds (r : Response)
| NetworkError.

(** The other side of [executeSearch]: the identity provider's bearer
    token and the webhook. *)
Record Webhook := {
  clerkToken : TokenResult;
  fetch : FetchResult
}.

(** One [GET] of the search webhook: its two query parameters. *)
Record SearchCall := {
  account_number : Z;
  repeat_searches : bool
}.

Record SearchWorld := {
  store : Database;
  view : SearchPage;
  calls : list SearchCall
}.

Definition on_view (f : SearchPage -> SearchPage) (w : SearchWorld)
  : SearchWorld :=
  {| store := store w; view := f (view w); calls := calls w |}.

Definition searchStarted : Js.str := Js.lit "Search started successfully!".

(** The message read from a 2xx response; a failure to parse it leaves
    the default. *)
Definition responseMessage (r : Response) : Js.str :=
  let isJson :=
    match contentType r with
    | Some ct => includesStr ct (Js.lit "application/json")
    | None => false
    end in
  if isJson then
    match json r with
    | Some (message, result) =>
        Js.or_else message (Js.or_else result searchStarted)
    | None => searchStarted
    end
  else Js.or_else (text r) searchStarted.

(** [!accountNumber] *)
Definition knownAccount (sp : SearchPage) : option Z :=
  match accountNumber sp with
  | Some n => if n =? 0 then None else Some n
  | None => None
  end.

(** The body of the [try] block of [executeSearch]. For a response that
    is not 2xx the handler builds a message from the body and throws it;
    the [catch] logs it and shows its own text, so the body is not
    read here. *)
Definition executeSearch_try (be : Backend) (wh : Webhook)
  (repeatSearches : bool) (w : SearchWorld) : Completion SearchWorld :=
  let st := form (view w) in
  match sessionUser st with
  | None => Done (on_view (on_form (setError pleaseLogIn)) w)
  | Some user =>
    match getToken be with
    | TokenThrows => Raised w
    | TokenNull =>
        Done (on_view
                (on_form
                   (setError
                      (Js.lit "Authentication failed. Please sign in again.")))
                w)
    | TokenIssued =>
        let cleanedKeywords :=
          cleanCommaSeparatedValues (serpKeywords st) true in
        let cleanedCategory :=
          cleanCommaSeparatedValues (serpCategory st) false in
        let cleanedExcludedCategory :=
          cleanCommaSeparatedValues (serpExcludedCategory st) false in
        let cleanedLocations :=
          cleanCommaSeparatedValues (serpLocations st) false in
        let cleanedStates :=
          cleanCommaSeparatedValues (serpStates st) true in
        match fault be UpdateSettings with
        | Throws => Raised w
        | Fails _ =>
            Done (on_view
                    (on_form
                       (setError
                          (Js.lit "Failed to update SERP settings before starting search.")))
                    w)
        | Healthy =>
            let w :=
              {| store :=
                   update_settings user
                     (Js.or_null cleanedKeywords)
                     (Js.or_null cleanedCategory)
                     (Js.or_null cleanedExcludedCategory)
                     (Js.or_null cleanedLocations)
                     (Js.or_null cleanedStates) (store w);
                 view := view w; calls := calls w |} in
            match knownAccount (view w) with
            | None =>
                Done (on_view
                        (on_form
                           (setError
                              (Js.lit "Unable to get account number for search.")))
                        w)
            | Some n =>
                match clerkToken wh with
                | TokenThrows => Raised w
                | TokenNull =>
                    Done (on_view
                            (on_form
                               (setError
                                  (Js.lit "Failed to get authentication token.")))
                            w)
                | TokenIssued =>
                    let w :=
                      {| store := store w; view := view w;
                         calls := calls w
                                  ++ [{| account_number := n;
                                         repeat_searches := repeatSearches |}]
                      |} in
                    match fetch wh with
                    | NetworkError => Raised w
                    | Responds r =>
                        if negb (ok r) then Raised w
                        else Done (on_view
                                     (on_form (setMessage (responseMessage r)))
                                     w)
                    end
                end
            end
        end
    end
  end.

(** [executeSearch] *)
Definition executeSearch (be : Backend) (wh : Webhook)
  (repeatSearches : bool) (w : SearchWorld) : SearchWorld :=
  let w := on_view (setIsLoading true) w in
  let w := on_view (on_form (setError [])) w in
  let w := on_view (on_form (setMessage [])) w in
  let w :=
    match executeSearch_try be wh repeatSearches w with
    | Done w' => w'
    | Raised w' =>
        on_view
          (on_form
             (setError (Js.lit "Failed to start search. Please try again.")))
          w'
    end in
  on_view (setIsLoading false) w.

(** [.select('serp_keywords, ...').eq('clerk_id', userId).single()]: an
    error object unless exactly one row matches. *)
Definition select_settings_single (db : Database) (user : Js.str)
  : option UserAccount :=
  match filter (fun a => Js.eqb (ua_clerk_id a) user) (user_accounts db) with
  | [a] => Some a
  | _ => None
  end.

(** [loadSerpSettings]: every failure is logged and leaves the page as
    it was. *)
Definition loadSerpSettings (be : Backend) (db : Database) (user : Js.str)
  (st : SettingsPage) : SettingsPage :=
  match getToken be with
  | TokenThrows => st
  | TokenNull => st
  | TokenIssued =>
      match fault be SelectAccount with
      | Throws => st
      | Fails _ => st
      | Healthy =>
          match select_settings_single db user with
          | None => st
          | Some data => loaded data st
          end
      end
  end.

(** A decimal digit, [0-9]. *)
Definition isDigit (c : Js.char) : Prop := (48 <= c <= 57)%N.

(** A letter or an underscore, [a-zA-Z_]. *)
Definition isWordChar (c : Js.char) : Prop :=
  (97 <= c <= 122)%N \/ (65 <= c <= 90)%N \/ c = 95%N.

(** The trimmed, non-empty pieces of a comma-separated field, as
    [validateCategoryField] and [validateLocationCodes] cut it. *)
Definition items (value : Js.str) : list Js.str :=
  filter nonEmpty (map Js.trim (Js.split Js.comma value)).

End SearchStart.

(** ** The settings page as a whole

    A run of the page interleaves the steps of validation and autosave
    with the arrival of the account number, clicks on "Start Search" and
    on the buttons of the preview, and the timers that clear the notice
    of a successful autosave. A run of [executeSearch] is one step, as a
    run of the autosave callback is: both read the fields of the render
    they were called in. Fields can be edited while the preview is
    open. *)

Module Session.
Import Db Settings.

Record Session := {
  machine : Machine;
  accountNumber : option Z;
  isLoading : bool;
  searchPreviewModalOpen : bool;
  calls : list SearchStart.SearchCall;
  messageTimers : nat
}.

Inductive Action :=
| Page (e : Event)
| AccountLoaded (n : Z)
| StartSearchClick
| PreviewContinue (be : Backend) (wh : SearchStart.Webhook)
    (repeatSearches : bool)
| PreviewClose
| MessageTimerFires.

Definition on_machine (f : Machine -> Machine) (s : Session) : Session :=
  {| machine := f (machine s); accountNumber := accountNumber s;
     isLoading := isLoading s;
     searchPreviewModalOpen := searchPreviewModalOpen s;
     calls := calls s; messageTimers := messageTimers s |}.

(** The cells the search handlers see. *)
Definition viewOf (s : Session) : SearchStart.SearchPage :=
  {| SearchStart.form := page (machine s);
     SearchStart.accountNumber := accountNumber s;
     SearchStart.isLoading := isLoading s;
     SearchStart.searchPreviewModalOpen := searchPreviewModalOpen s |}.

Definition worldOf (s : Session) : SearchStart.SearchWorld :=
  {| SearchStart.store := store (machine s);
     SearchStart.view := viewOf s;
     SearchStart.calls := calls s |}.

(** The session after a search handler: the timers and the lookups in
    flight are not its to touch, and none of the cells it sets is a
    dependency of an effect. *)
Definition withWorld (w : SearchStart.SearchWorld) (s : Session) : Session :=
  {| machine :=
       {| page := SearchStart.form (SearchStart.view w);
          store := SearchStart.store w;
          saveTimer := saveTimer (machine s);
          validateTimer := validateTimer (machine s);
          inFlight := inFlight (machine s) |};
     accountNumber := SearchStart.accountNumber (SearchStart.view w);
     isLoading := SearchStart.isLoading (SearchStart.view w);
     searchPreviewModalOpen :=
       SearchStart.searchPreviewModalOpen (SearchStart.view w);
     calls := SearchStart.calls w;
     messageTimers := messageTimers s |}.

(** The text of a field. *)
Definition fieldOf (f : Field) (st : SettingsPage) : Js.str :=
  match f with
  | Keywords => serpKeywords st
  | Category => serpCategory st
  | ExcludedCategory => serpExcludedCategory st
  | Locations => serpLocations st
  | States => serpStates st
  end.

(** Whether a run of the autosave callback reaches
    [setTimeout(() => setMessage(''), 2000)]. *)
Definition saves (be : Backend) (closure : SettingsPage) : bool :=
  match signedInUser closure, getToken be, fault be UpdateSettings with
  | Some _, TokenIssued, Healthy =>
      negb (isValidatingCodes closure) && negb (anyInvalid closure)
  | _, _, _ => false
  end.

Definition step (a : Action) (s : Session) : Session :=
  match a with
  | Page (Edit f v) =>
      (* a setter called with the value the cell holds renders nothing
         and runs no effect *)
      if Js.eqb (fieldOf f (setField f v (page (machine s))))
                (fieldOf f (page (machine s)))
      then s
      else on_machine (Settings.step (Edit f v)) s
  | Page (SaveTimerFires be) =>
      match saveTimer (machine s) with
      | None => s
      | Some closure =>
          {| machine := Settings.step (SaveTimerFires be) (machine s);
             accountNumber := accountNumber s; isLoading := isLoading s;
             searchPreviewModalOpen := searchPreviewModalOpen s;
             calls := calls s;
             messageTimers :=
               if saves be closure then S (messageTimers s)
               else messageTimers s |}
      end
  | Page e => on_machine (Settings.step e) s
  | AccountLoaded n =>
      {| machine := machine s; accountNumber := Some n;
         isLoading := isLoading s;
         searchPreviewModalOpen := searchPreviewModalOpen s;
         calls := calls s; messageTimers := messageTimers s |}
  | StartSearchClick =>
      (* the button is [disabled={isLoading}] *)
      if isLoading s then s
      else
        withWorld
          (SearchStart.on_view SearchStart.handleStartSearchClick (worldOf s))
          s
  | PreviewContinue be wh repeatSearches =>
      (* [onContinue(repeatSearches); onOpenChange(false)] of the open
         preview *)
      if searchPreviewModalOpen s then
        withWorld
          (SearchStart.on_view (SearchStart.setSearchPreviewModalOpen false)
             (SearchStart.executeSearch be wh repeatSearches (worldOf s)))
          s
      else s
  | PreviewClose =>
      withWorld
        (SearchStart.on_view (SearchStart.setSearchPreviewModalOpen false)
           (worldOf s))
        s
  | MessageTimerFires =>
      match messageTimers s with
      | O => s
      | S n =>
          {| machine := on_page (setMessage []) (machine s);
             accountNumber := accountNumber s; isLoading := isLoading s;
             searchPreviewModalOpen := searchPreviewModalOpen s;
             calls := calls s; messageTimers := n |}
      end
  end.

(** The page as first rendered. *)
Definition initial (signedIn : bool) (user : option Js.str) (db : Database)
  : Session :=
  {| machine := Settings.initial signedIn user db; accountNumber := None;
     isLoading := false; searchPreviewModalOpen := false; calls := [];
     messageTimers := O |}.

Definition run (actions : list Action) (s : Session) : Session :=
  fold_left (fun s a => step a s) actions s.

Inductive reachable (start : Session) : Session -> Prop :=
| reach_start : reachable start start
| reach_step s a : reachable start s -> reachable start (step a s).

(** The two category lists of a render are those of its own text. *)
Definition current (st : SettingsPage) : Prop :=
  invalidCategoryItems st = validateCategoryField (serpCategory st)
  /\ invalidExcludedCategoryItems st
     = validateCategoryField (serpExcludedCategory st).

(** In the render on screen and in the render a pending autosave timer
    closes over, the category lists are current. *)
Definition listsSettled (s : Session) : Prop :=
  current (page (machine s))
  /\ forall closure,
       saveTimer (machine s) = Some closure -> current closure.

End Session.

(** ** The search preview ([SearchPreviewModal]) *)

Module SearchPreview.
Import Db.

Record SearchStatus := {
  locationCode : Js.str;
  locationName : Js.str;
  newKeywords : list Js.str;
  repeatedKeywords : list Js.str
}.

(** The [useState] cells of [SearchPreviewModal]. *)
Record Preview := {
  searchStatuses : list SearchStatus;
  isLoading : bool;
  repeatSearches : bool
}.

(** What the two [.single()] queries of a location code give:
    [locationData?.location_name] and [searchRecord?.used_keywords]. *)
Record Lookup := {
  location_name : Js.str -> option Js.str;
  used_keywords : Js.str -> option Js.str
}.

(** [s.split(',').map(k => k.trim()).filter(k => k)] *)
Definition parseList (s : Js.str) : list Js.str :=
  filter Js.truthy (map Js.trim (Js.split Js.comma s)).

(** [`,${keyword},`] *)
Definition delimited (keyword : Js.str) : Js.str :=
  Js.comma :: keyword ++ [Js.comma].

(** The inner loop of [analyzeSearches]: the keywords not yet used at a
    location, and those already used, each in the order typed. *)
Definition classify (used : option Js.str) (keywordList : list Js.str)
  : list Js.str * list Js.str :=
  match used with
  | Some usedKeywordsStr =>
      if Js.truthy usedKeywordsStr then
        (filter (fun keyword =>
                   negb (SearchStart.includesStr usedKeywordsStr
                           (delimited keyword)))
                keywordList,
         filter (fun keyword =>
                   SearchStart.includesStr usedKeywordsStr (delimited keyword))
                keywordList)
      else (keywordList, [])
  | None => (keywordList, [])
  end.

Definition statusOf (lk : Lookup) (keywordList : list Js.str)
  (code : Js.str) : SearchStatus :=
  let (fresh, repeated) := classify (used_keywords lk code) keywordList in
  {| locationCode := code;
     locationName :=
       Js.or_else (location_name lk code) (Js.lit "Unknown Location");
     newKeywords := fresh; repeatedKeywords := repeated |}.

(** [analyzeSearches], for queries that resolve. *)
Definition analyzeSearches (token : TokenResult) (lk : Lookup)
  (keywords locationCodes : Js.str) (p : Preview) : Preview :=
  let statuses :=
    match token with
    | TokenIssued =>
        map (statusOf lk (parseList keywords)) (parseList locationCodes)
    | TokenNull | TokenThrows => searchStatuses p
    end in
  {| searchStatuses := statuses; isLoading := false;
     repeatSearches := repeatSearches p |}.

(** [searchStatuses.reduce((sum, s) => sum + s.newKeywords.length, 0)] *)
Definition totalNew (p : Preview) : nat :=
  fold_left (fun sum s => (sum + List.length (newKeywords s))%nat)
            (searchStatuses p) 0%nat.

Definition totalRepeated (p : Preview) : nat :=
  fold_left (fun sum s => (sum + List.length (repeatedKeywords s))%nat)
            (searchStatuses p) 0%nat.

Definition totalSearches (p : Preview) : nat :=
  (totalNew p + totalRepeated p)%nat.

(** The entries of a [",k1,k2,"] string that have a comma on both
    sides: all pieces of the split but the first and the last. *)
Definition enclosed (used : Js.str) : list Js.str :=
  removelast (tl (Js.split Js.comma used)).

End SearchPreview.

(** ** The email settings dialog ([EmailSettingsModal]) *)

Module EmailSettings.
Import Db.

(** The email columns of a [user_accounts] row. *)
Record EmailRow := {
  er_id : Z;
  email_current_goal : option Js.str;
  email_sig : option Js.str;
  email_include_sig : option bool;
  email_include_unsub : option bool
}.

(** The [useState] cells of [EmailSettingsModal], with its
    [userAccountId] and [open] props. *)
Record Modal := {
  userAccountId : option Z;
  open : bool;
  isLoading : bool;
  isSaving : bool;
  error : Js.str;
  emailCurrentGoal : Js.str;
  emailSig : Js.str;
  emailIncludeSig : bool;
  emailIncludeUnsub : bool
}.

Definition setOpen (v : bool) (m : Modal) : Modal :=
  {| userAccountId := userAccountId m; open := v; isLoading := isLoading m;
     isSaving := isSaving m; error := error m;
     emailCurrentGoal := emailCurrentGoal m; emailSig := emailSig m;
     emailIncludeSig := emailIncludeSig m;
     emailIncludeUnsub := emailIncludeUnsub m |}.

Definition setIsLoading (v : bool) (m : Modal) : Modal :=
  {| userAccountId := userAccountId m; open := open m; isLoading := v;
     isSaving := isSaving m; error := error m;
     emailCurrentGoal := emailCurrentGoal m; emailSig := emailSig m;
     emailIncludeSig := emailIncludeSig m;
     emailIncludeUnsub := emailIncludeUnsub m |}.

Definition setIsSaving (v : bool) (m : Modal) : Modal :=
  {| userAccountId := userAccountId m; open := open m;
     isLoading := isLoading m; isSaving := v; error := error m;
     emailCurrentGoal := emailCurrentGoal m; emailSig := emailSig m;
     emailIncludeSig := emailIncludeSig m;
     emailIncludeUnsub := emailIncludeUnsub m |}.

Definition setError (v : Js.str) (m : Modal) : Modal :=
  {| userAccountId := userAccountId m; open := open m;
     isLoading := isLoading m; isSaving := isSaving m; error := v;
     emailCurrentGoal := emailCurrentGoal m; emailSig := emailSig m;
     emailIncludeSig := emailIncludeSig m;
     emailIncludeUnsub := emailIncludeUnsub m |}.

Definition setEmailCurrentGoal (v : Js.str) (m : Modal) : Modal :=
  {| userAccountId := userAccountId m; open := open m;
     isLoading := isLoading m; isSaving := isSaving m; error := error m;
     emailCurrentGoal := v; emailSig := emailSig m;
     emailIncludeSig := emailIncludeSig m;
     emailIncludeUnsub := emailIncludeUnsub m |}.

Definition setEmailSig (v : Js.str) (m : Modal) : Modal :=
  {| userAccountId := userAccountId m; open := open m;
     isLoading := isLoading m; isSaving := isSaving m; error := error m;
     emailCurrentGoal := emailCurrentGoal m; emailSig := v;
     emailIncludeSig := emailIncludeSig m;
     emailIncludeUnsub := emailIncludeUnsub m |}.

Definition setEmailIncludeSig (v : bool) (m : Modal) : Modal :=
  {| userAccountId := userAccountId m; open := open m;
     isLoading := isLoading m; isSaving := isSaving m; error := error m;
     emailCurrentGoal := emailCurrentGoal m; emailSig := emailSig m;
     emailIncludeSig := v; emailIncludeUnsub := emailIncludeUnsub m |}.

Definition setEmailIncludeUnsub (v : bool) (m : Modal) : Modal :=
  {| userAccountId := userAccountId m; open := open m;
     isLoading := isLoading m; isSaving := isSaving m; error := error m;
     emailCurrentGoal := emailCurrentGoal m; emailSig := emailSig m;
     emailIncludeSig := emailIncludeSig m; emailIncludeUnsub := v |}.

(** The dialog's backend: the token, and the fate of its one read and
    its one write. *)
Record EmailBackend := {
  token : TokenResult;
  loadFault : Fault;
  saveFault : Fault
}.

(** [!userAccountId] *)
Definition account (m : Modal) : option Z :=
  match userAccountId m with
  | Some uid => if uid =? 0 then None else Some uid
  | None => None
  end.

(** [!emailSig || !emailSig.trim()] *)
Definition isSignatureEmpty (m : Modal) : bool :=
  negb (Js.truthy (emailSig m)) || negb (Js.truthy (Js.trim (emailSig m))).

(** The effect that unticks "include signature" when the signature is
    blank. *)
Definition uncheckEffect (m : Modal) : Modal :=
  if isSignatureEmpty m && emailIncludeSig m
  then setEmailIncludeSig false m else m.

(** [value || false] on a nullable boolean. *)
Definition or_false (v : option bool) : bool :=
  match v with Some b => b | None => false end.

(** [.select(...).eq('id', uid).single()] *)
Definition select_single (rows : list EmailRow) (uid : Z) : option EmailRow :=
  match filter (fun r => er_id r =? uid) rows with
  | [r] => Some r
  | _ => None
  end.

Definition loadFailedMessage : Js.str :=
  Js.lit "Failed to load email settings.".

(** [loadEmailSettings] *)
Definition loadEmailSettings (be : EmailBackend) (rows : list EmailRow)
  (m : Modal) : Modal :=
  match account m with
  | None => m
  | Some uid =>
      let m := setIsLoading true m in
      let m :=
        match token be with
        | TokenThrows => setError loadFailedMessage m
        | TokenNull =>
            setError (Js.lit "Authentication failed. Please sign in again.") m
        | TokenIssued =>
            match loadFault be with
            | Throws => setError loadFailedMessage m
            | Fails _ => setError loadFailedMessage m
            | Healthy =>
                match select_single rows uid with
                | None => setError loadFailedMessage m
                | Some data =>
                    let m :=
                      setEmailCurrentGoal
                        (Js.or_else (email_current_goal data) []) m in
                    let m := setEmailSig (Js.or_else (email_sig data) []) m in
                    let m :=
                      setEmailIncludeSig (or_false (email_include_sig data)) m in
                    setEmailIncludeUnsub (or_false (email_include_unsub data)) m
                end
            end
        end in
      setIsLoading false m
  end.

(** [.update({ ... }).eq('id', uid)] *)
Definition update_email (uid : Z) (m : Modal) (rows : list EmailRow)
  : list EmailRow :=
  map (fun r =>
         if er_id r =? uid
         then {| er_id := er_id r;
                 email_current_goal := Js.or_null (Js.trim (emailCurrentGoal m));
                 email_sig := Js.or_null (Js.trim (emailSig m));
                 email_include_sig := Some (emailIncludeSig m);
                 email_include_unsub := Some (emailIncludeUnsub m) |}
         else r)
      rows.

Definition saveFailedMessage : Js.str :=
  Js.lit "Failed to save settings. Please try again.".

(** [saveEmailSettings]: the rows, the dialog, and the boolean it
    resolves to. A thrown error shows its own message or, when it has
    none, the same text as a failed update. *)
Definition saveEmailSettings (be : EmailBackend) (thrown : Js.str)
  (rows : list EmailRow) (m : Modal) : list EmailRow * Modal * bool :=
  match account m with
  | None => (rows, setError (Js.lit "User account not loaded") m, false)
  | Some uid =>
      let m := setError [] (setIsSaving true m) in
      let '(rows, m, saved) :=
        match token be with
        | TokenThrows =>
            (rows, setError (Js.or_else (Some thrown) saveFailedMessage) m,
             false)
        | TokenNull =>
            (rows,
             setError (Js.lit "Authentication failed. Please sign in again.") m,
             false)
        | TokenIssued =>
            match saveFault be with
            | Throws =>
                (rows, setError (Js.or_else (Some thrown) saveFailedMessage) m,
                 false)
            | Fails _ => (rows, setError saveFailedMessage m, false)
            | Healthy => (update_email uid m rows, m, true)
            end
        end in
      (rows, setIsSaving false m, saved)
  end.

(** [handleContinue]: the rows, the dialog, and whether [onContinue] was
    called. *)
Definition handleContinue (be : EmailBackend) (thrown : Js.str)
  (rows : list EmailRow) (m : Modal) : list EmailRow * Modal * bool :=
  let '(rows, m, saved) := saveEmailSettings be thrown rows m in
  if saved then (rows, setOpen false m, true) else (rows, m, false).

(** [handleCancel] *)
Definition handleCancel (be : EmailBackend) (rows : list EmailRow)
  (m : Modal) : Modal :=
  let m := setOpen false m in
  match account m with
  | Some _ => loadEmailSettings be rows m
  | None => m
  end.

(** The "Generate Emails" button is
    [disabled={isSaving || isLoading || !emailCurrentGoal.trim()}]. *)
Definition continueDisabled (m : Modal) : bool :=
  isSaving m || isLoading m || negb (Js.truthy (Js.trim (emailCurrentGoal m))).

End EmailSettings.

(** ** The words of the specification

    Predicates that follow the wording of the specification, to compare
    the code with. *)

Module Spec.

Definition isLowercaseLetter (c : Js.char) : Prop := (97 <= c <= 122)%N.
Definition isUnderscore (c : Js.char) : Prop := c = 95%N.

(** "a group of lowercase letters/underscores": at least one character,
    each a lowercase letter or an underscore. *)
Definition isCategoryGroup (g : Js.str) : Prop :=
  g <> [] /\ Forall (fun c => isLowercaseLetter c \/ isUnderscore c) g.

(** "one or more groups ..., joined by single commas". *)
Definition isCategoryList (s : Js.str) : Prop :=
  exists groups : list Js.str,
    groups <> [] /\ Forall isCategoryGroup groups
    /\ s = Js.join [Js.comma] groups.

(** "comma-split, trimmed, empty-entries dropped; fields that disallow
    internal spaces additionally strip whitespace from each token;
    rejoined with commas". *)
Definition normalize (allowSpaces : bool) (value : Js.str) : Js.str :=
  let tokens := Js.split Js.comma value in
  let trimmed := map Js.trim tokens in
  let kept := filter (fun t => negb (Js.eqb t [])) trimmed in
  let stripped :=
    if allowSpaces then kept else map Js.removeWhiteSpace kept in
  Js.join [Js.comma] stripped.

(** "Empty normalized result persists as a null/absent value, not an
    empty string." *)
Definition persisted (normalized : Js.str) : option Js.str :=
  match normalized with
  | [] => None
  | _ :: _ => Some normalized
  end.

(** The page numbers [1 .. k]. *)
Definition pageNumbers (k : Z) : list Z :=
  map (fun i => Z.of_nat i + 1) (seq 0 (Z.to_nat k)).

(** "drop ids already drafted (unless excluded view or
    includeAlreadyEmailed)" *)
Definition dropDrafted (excludedView includeAlreadyEmailed : bool)
  (drafted : list Db.LeadId) (l : list Db.UserLead) : list Db.UserLead :=
  if excludedView || includeAlreadyEmailed then l
  else filter (fun ul => negb (Js.includes drafted (Db.ul_lead_id ul))) l.

(** "drop ids without a valid email (unless excluded view or
    includeWithoutEmail)" *)
Definition dropWithoutEmail (excludedView includeWithoutEmail : bool)
  (withEmail : list Db.LeadId) (l : list Db.UserLead) : list Db.UserLead :=
  if excludedView || includeWithoutEmail then l
  else filter (fun ul => Js.includes withEmail (Db.ul_lead_id ul)) l.

(** "resolved email is non-empty and not equal to the sentinel" *)
Definition validEmail (l : Db.SerpLead) : Prop :=
  exists e, Db.sl_email l = Some e /\ e <> []
            /\ e <> Js.lit "EmailNotFound".

(** "validation is in-flight, OR any of the three invalid-item lists
    is non-empty": a lookup of location codes has been sent and has not
    come back, or one of the lists holds an item. *)
Definition autosaveSuppressed (m : Settings.Machine) : Prop :=
  Settings.inFlight m <> []
  \/ Settings.invalidCategoryItems (Settings.page m) <> []
  \/ Settings.invalidExcludedCategoryItems (Settings.page m) <> []
  \/ Settings.invalidLocationCodes (Settings.page m) <> [].

End Spec.

(** ** Sample data

    Concrete pages, stores and backends at which the properties below are
    exercised. *)

Module Sample.
Import Db.

(** A backend that answers every request. *)
Definition healthy : Backend :=
  {| getToken := TokenIssued; fault := fun _ => Healthy; now := 1700000000000 |}.

(** The Leads page of account 7 as first rendered. *)
Definition page7 : Leads.LeadsPage :=
  {| Leads.isLoading := false; Leads.error := [];
     Leads.successMessage := []; Leads.userAccountId := Some 7;
     Leads.leads := []; Leads.showWithoutEmails := false;
     Leads.showEmailedLeads := false; Leads.currentPage := 1;
     Leads.recordsPerPage := 50; Leads.totalRecords := 0;
     Leads.totalPages := Js.Int 0; Leads.selectedLeads := [];
     Leads.showExcludedLeads := false; Leads.excludeDialogOpen := false;
     Leads.availableCategories := []; Leads.selectedCategories := [];
     Leads.customCategory := []; Leads.customCategoryError := [] |}.

Definition account7 (exc_cat : option Js.str) : UserAccount :=
  {| ua_id := 7; ua_clerk_id := Js.lit "user_7"; serp_keywords := None;
     serp_cat := None; serp_exc_cat := exc_cat; serp_locations := None;
     serp_states := None |}.

Definition emptyDb : Database :=
  {| user_leads := []; serp_leads_v2 := []; email_drafts := [];
     user_accounts := [account7 None]; google_locations := [] |}.

Definition world (db : Database) (st : Leads.LeadsPage) : Leads.World :=
  {| Leads.db := db; Leads.page := st; Leads.alerts := [];
     Leads.timers := [] |}.

Definition leadId (i : nat) : LeadId := Js.lit "lead-" ++ Js.of_nat i.

(** Account 7 with 120 active associations, every lead with an email,
    no drafts. *)
Definition scenarioDb : Database :=
  {| user_leads :=
       map (fun i => {| ul_id := Z.of_nat i; ul_user_id := 7;
                        ul_lead_id := leadId i; ul_excluded := None |})
           (seq 1 120);
     serp_leads_v2 :=
       map (fun i => {| sl_id := leadId i;
                        sl_email := Some (Js.lit "info@example.com");
                        sl_categories := Some (Js.lit "plumber") |})
           (seq 1 120);
     email_drafts := []; user_accounts := [account7 None];
     google_locations := [] |}.

(** A backend whose [user_leads] query comes back with an error
    object. *)
Definition userLeadsDown : Backend :=
  {| getToken := TokenIssued;
     fault := fun r => match r with
                       | SelectUserLeads => Fails (Js.lit "timeout")
                       | _ => Healthy
                       end;
     now := 1700000000000 |}.

(** Account 7 with two active associations and one excluded, account 8
    with an excluded association of its own to lead 1; the exclusion
    set of account 7 already holds [roofer]. *)
Definition exclusionDb : Database :=
  {| user_leads :=
       [ {| ul_id := 1; ul_user_id := 7; ul_lead_id := leadId 1;
            ul_excluded := None |};
         {| ul_id := 2; ul_user_id := 7; ul_lead_id := leadId 2;
            ul_excluded := None |};
         {| ul_id := 3; ul_user_id := 7; ul_lead_id := leadId 3;
            ul_excluded := Some 1690000000000 |};
         {| ul_id := 4; ul_user_id := 8; ul_lead_id := leadId 1;
            ul_excluded := Some 1680000000000 |} ];
     serp_leads_v2 :=
       map (fun i => {| sl_id := leadId i;
                        sl_email := Some (Js.lit "info@example.com");
                        sl_categories := Some (Js.lit "plumber") |})
           (seq 1 3);
     email_drafts := [];
     user_accounts := [account7 (Some (Js.lit "roofer"))];
     google_locations := [] |}.

(** The exclusion dialog over leads 1 and 2 with the given ticked
    checkboxes and custom field. *)
Definition dialog (ticked : Js.StrSet) (custom : Js.str)
  : Leads.LeadsPage :=
  Leads.setCustomCategory custom
    (Leads.setSelectedCategories ticked
       (Leads.setExcludeDialogOpen true
          (Leads.setSelectedLeads [leadId 1; leadId 2] page7))).

(** The excluded view with leads 1 and 3 selected. *)
Definition restorePage : Leads.LeadsPage :=
  Leads.setSelectedLeads [leadId 1; leadId 3]
    (Leads.setShowExcludedLeads true page7).

(** The settings row of account 7 as stored. *)
Definition storedRow : UserAccount :=
  {| ua_id := 7; ua_clerk_id := Js.lit "user_7";
     serp_keywords := Some (Js.lit "roofing"); serp_cat := None;
     serp_exc_cat := None; serp_locations := None; serp_states := None |}.

Definition settingsDb : Database :=
  {| user_leads := []; serp_leads_v2 := []; email_drafts := [];
     user_accounts := [storedRow]; google_locations := [200819] |}.

Definition firstRender : Settings.Machine :=
  Settings.initial true (Some (Js.lit "user_7")) settingsDb.

(** The settings page of a signed-in user after typing into the five
    fields, validation idle and nothing invalid. *)
Definition settings7 : Settings.SettingsPage :=
  {| Settings.isSignedIn := true;
     Settings.userId := Some (Js.lit "user_7");
     Settings.error := []; Settings.message := [];
     Settings.serpKeywords := Js.lit " roof repair , ,plumber ";
     Settings.serpCategory := Js.lit "roofing _contractor, plumber";
     Settings.serpExcludedCategory := Js.lit " , ";
     Settings.serpLocations := Js.lit "200819, 1027744";
     Settings.serpStates := Js.lit "New York,Ohio";
     Settings.serpDataLoaded := true; Settings.isSaving := false;
     Settings.invalidLocationCodes := [];
     Settings.isValidatingCodes := false;
     Settings.invalidCategoryItems := [];
     Settings.invalidExcludedCategoryItems := [] |}.

End Sample.

(** ** Further sample data *)

Module Cases.
Import Db.

Definition tradeLead (i : nat) (email categories : option Js.str)
  : SerpLead :=
  {| sl_id := Sample.leadId i; sl_email := email;
     sl_categories := categories |}.

Definition association (i : nat) (uid : Z) (excluded : option Timestamp)
  : UserLead :=
  {| ul_id := Z.of_nat i; ul_user_id := uid; ul_lead_id := Sample.leadId i;
     ul_excluded := excluded |}.

(** Account 7 with five associations: lead 1 with an email and no
    draft, lead 2 whose email was not found, lead 3 with a draft, lead 4
    excluded, lead 5 with an empty email; a draft without a lead id and a
    draft of account 8 for lead 1. *)
Definition mixedDb : Database :=
  {| user_leads :=
       [ association 1 7 None; association 2 7 None; association 3 7 None;
         association 4 7 (Some 1690000000000); association 5 7 None ];
     serp_leads_v2 :=
       [ tradeLead 1 (Some (Js.lit "info@example.com"))
           (Some (Js.lit "plumber  roofer"));
         tradeLead 2 (Some (Js.lit "EmailNotFound"))
           (Some (Js.lit " electrician plumber"));
         tradeLead 3 (Some (Js.lit "office@example.com"))
           (Some (Js.lit "roofer"));
         tradeLead 4 (Some (Js.lit "sales@example.com")) None;
         tradeLead 5 (Some []) (Some (Js.lit "painter")) ];
     email_drafts :=
       [ {| ed_user_id := 7; ed_lead_id := Some (Sample.leadId 3) |};
         {| ed_user_id := 7; ed_lead_id := None |};
         {| ed_user_id := 8; ed_lead_id := Some (Sample.leadId 1) |} ];
     user_accounts := [Sample.account7 (Some (Js.lit "roofer"))];
     google_locations := [] |}.

(** The normal view of account 7 with leads without an email shown. *)
Definition allActive : Leads.LeadsPage :=
  Leads.loadLeads Sample.healthy mixedDb
    (Leads.setShowEmailedLeads true
       (Leads.setShowWithoutEmails true Sample.page7)).

(** The settings page of account 7 with its account number known. *)
Definition searchPage7 : SearchStart.SearchPage :=
  {| SearchStart.form := Sample.settings7;
     SearchStart.accountNumber := Some 1001;
     SearchStart.isLoading := false;
     SearchStart.searchPreviewModalOpen := false |}.

Definition searchWorld7 : SearchStart.SearchWorld :=
  {| SearchStart.store := Sample.settingsDb;
     SearchStart.view := searchPage7;
     SearchStart.calls := [] |}.

(** A webhook that answers 200 with a JSON body. *)
Definition webhookOk : SearchStart.Webhook :=
  {| SearchStart.clerkToken := TokenIssued;
     SearchStart.fetch :=
       SearchStart.Responds
         {| SearchStart.ok := true;
            SearchStart.contentType :=
              Some (Js.lit "application/json; charset=utf-8");
            SearchStart.json := Some (Some (Js.lit "Workflow started"), None);
            SearchStart.text := None |} |}.

(** Location 200819 has seen the keywords [roofing] and [roof repair];
    location 1027744 has no record. *)
Definition lookup : SearchPreview.Lookup :=
  {| SearchPreview.location_name :=
       fun code => if Js.eqb code (Js.lit "200819")
                   then Some (Js.lit "Times Square") else None;
     SearchPreview.used_keywords :=
       fun code => if Js.eqb code (Js.lit "200819")
                   then Some (Js.lit ",roofing,roof repair,") else None |}.

Definition preview : SearchPreview.Preview :=
  {| SearchPreview.searchStatuses := []; SearchPreview.isLoading := false;
     SearchPreview.repeatSearches := false |}.

Definition emailRows : list EmailSettings.EmailRow :=
  [ {| EmailSettings.er_id := 7;
       EmailSettings.email_current_goal := Some (Js.lit "Book demos");
       EmailSettings.email_sig := None;
       EmailSettings.email_include_sig := None;
       EmailSettings.email_include_unsub := Some true |};
    {| EmailSettings.er_id := 8;
       EmailSettings.email_current_goal := None;
       EmailSettings.email_sig := Some (Js.lit "Account eight");
       EmailSettings.email_include_sig := Some true;
       EmailSettings.email_include_unsub := None |} ].

(** The dialog of account 7 after typing a goal and a signature. *)
Definition modal7 : EmailSettings.Modal :=
  {| EmailSettings.userAccountId := Some 7; EmailSettings.open := true;
     EmailSettings.isLoading := false; EmailSettings.isSaving := false;
     EmailSettings.error := [];
     EmailSettings.emailCurrentGoal := Js.lit "  Win back old customers ";
     EmailSettings.emailSig := Js.lit " Kind regards, Ada  ";
     EmailSettings.emailIncludeSig := true;
     EmailSettings.emailIncludeUnsub := false |}.

Definition emailHealthy : EmailSettings.EmailBackend :=
  {| EmailSettings.token := TokenIssued;
     EmailSettings.loadFault := Healthy;
     EmailSettings.saveFault := Healthy |}.

End Cases.

(* ================================================================== *)
(** * Part II: properties                                              *)
(* ================================================================== *)

(** ** The embedding of the JavaScript library on small inputs *)

Example split_examples :
  Js.split Js.comma (Js.lit "") = [Js.lit ""]
  /\ Js.split Js.comma (Js.lit "a,b,") = [Js.lit "a"; Js.lit "b"; Js.lit ""]
  /\ Js.split Js.comma (Js.lit ",a,,b")
     = [Js.lit ""; Js.lit "a"; Js.lit ""; Js.lit "b"].
Proof. repeat split. Qed.

Example join_examples :
  Js.join [Js.comma] [] = Js.lit ""
  /\ Js.join [Js.comma] [Js.lit "a"] = Js.lit "a"
  /\ Js.join [Js.comma] [Js.lit "a"; Js.lit ""; Js.lit "b"] = Js.lit "a,,b".
Proof. repeat split. Qed.

Example trim_examples :
  Js.trim (Js.lit "  roof repair  ") = Js.lit "roof repair"
  /\ Js.trim [9; 10; 160; 97; 32; 98; 8232; 65279]%N = Js.lit "a b"
  /\ Js.trim (Js.lit "   ") = Js.lit ""
  /\ Js.removeWhiteSpace (Js.lit " a b  c ") = Js.lit "abc".
Proof. repeat split. Qed.

Example slice_examples :
  Js.slice [1; 2; 3; 4; 5] 1 3 = [2; 3]
  /\ Js.slice [1; 2; 3; 4; 5] 3 10 = [4; 5]
  /\ Js.slice [1; 2; 3; 4; 5] 7 9 = []
  /\ Js.slice [1; 2; 3; 4; 5] (-2) 5 = [4; 5]
  /\ Js.slice [1; 2; 3; 4; 5] 1 (-1) = [2; 3; 4]
  /\ Js.slice [1; 2; 3; 4; 5] 3 1 = [].
Proof. repeat split. Qed.

Example ceil_div_examples :
  Js.ceil_div 120 50 = Js.Int 3
  /\ Js.ceil_div 100 50 = Js.Int 2
  /\ Js.ceil_div 0 50 = Js.Int 0
  /\ Js.ceil_div 7 0 = Js.Infinity
  /\ Js.ceil_div 0 0 = Js.NaN.
Proof. repeat split. Qed.

Example set_and_sort_examples :
  Js.set_of_list [Js.lit "b"; Js.lit "a"; Js.lit "b"] = [Js.lit "b"; Js.lit "a"]
  /\ Js.sort [Js.lit "plumber"; Js.lit "Roofer"; Js.lit "electrician"]
     = [Js.lit "Roofer"; Js.lit "electrician"; Js.lit "plumber"]
  /\ Js.of_nat 120 = Js.lit "120".
Proof. repeat split. Qed.

Example test_examples :
  Regex.test Regex.customCategoryPattern (Js.lit "medical_supply,general_contractor")
  = true
  /\ Regex.test Regex.customCategoryPattern (Js.lit "plumber electrician") = false
  /\ Regex.test Regex.customCategoryPattern (Js.lit ",plumber") = false
  /\ Regex.test Regex.customCategoryPattern (Js.lit "a,,b") = false
  /\ Regex.test Regex.categoryItemPattern (Js.lit "Roofing_Contractor") = true
  /\ Regex.test Regex.categoryItemPattern (Js.lit "roof repair") = false.
Proof. repeat split. Qed.

Example order_desc_example :
  Db.order_desc (fun x => x) [3; 9; 1; 9; 4] = [9; 9; 4; 3; 1].
Proof. reflexivity. Qed.

(** ** Strings *)

Lemma eqb_refl (a : Js.str) : Js.eqb a a = true.
Proof.
  induction a as [|x a IH]; simpl; [reflexivity|].
  now rewrite N.eqb_refl, IH.
Qed.

Lemma eqb_eq (a b : Js.str) : Js.eqb a b = true <-> a = b.
Proof.
  split; [|intros ->; apply eqb_refl].
  revert b; induction a as [|x a IH]; intros [|y b]; simpl; try discriminate;
    [reflexivity|].
  intros H. apply andb_true_iff in H as [Hx Hab].
  apply N.eqb_eq in Hx. subst. f_equal. now apply IH.
Qed.

Lemma eqb_neq (a b : Js.str) : Js.eqb a b = false <-> a <> b.
Proof.
  split.
  - intros H E. apply eqb_eq in E. congruence.
  - intros H. destruct (Js.eqb a b) eqn:E; [|reflexivity].
    apply eqb_eq in E. contradiction.
Qed.

Lemma includes_In (l : list Js.str) (x : Js.str) :
  Js.includes l x = true <-> In x l.
Proof.
  unfold Js.includes. rewrite existsb_exists. split.
  - intros [y [Hy E]]. apply eqb_eq in E. now subst.
  - intros H. exists x. split; [assumption|apply eqb_refl].
Qed.

Lemma includes_not_In (l : list Js.str) (x : Js.str) :
  Js.includes l x = false <-> ~ In x l.
Proof.
  rewrite <- includes_In. destruct (Js.includes l x); split; congruence.
Qed.

(** ** Regular expressions: the matcher decides the language *)

Section RegexCorrect.
Import Regex.

Lemma matches_nil_nullable r s :
  matches r s -> s = [] -> nullable r = true.
Proof.
  induction 1; intros E; simpl; try discriminate; try reflexivity.
  - rewrite IHmatches by assumption. reflexivity.
  - rewrite IHmatches by assumption. apply orb_true_r.
  - apply app_eq_nil in E as [-> ->].
    rewrite IHmatches1, IHmatches2 by reflexivity. reflexivity.
  - apply app_eq_nil in E as [-> ->]. now apply IHmatches1.
Qed.

Lemma nullable_matches_nil r : nullable r = true -> matches r [].
Proof.
  induction r; simpl; intros H; try discriminate.
  - constructor.
  - apply orb_true_iff in H as [H|H]; [apply MAltL|apply MAltR]; auto.
  - apply andb_true_iff in H as [H1 H2].
    change (@nil Js.char) with (@nil Js.char ++ []). constructor; auto.
  - constructor.
  - change (@nil Js.char) with (@nil Js.char ++ []).
    constructor; [auto|constructor].
Qed.

Lemma matches_cons_deriv r x :
  matches r x -> forall c s, x = c :: s -> matches (deriv c r) s.
Proof.
  induction 1; intros a t E; simpl; try discriminate.
  - injection E as -> <-. rewrite H. constructor.
  - injection E as -> <-. rewrite N.eqb_refl. constructor.
  - apply MAltL. eauto.
  - apply MAltR. eauto.
  - destruct s1 as [|b s1]; simpl in E.
    + subst s2. rewrite (matches_nil_nullable _ _ H eq_refl).
      apply MAltR. eauto.
    + injection E as -> <-.
      assert (matches (Cat (deriv a r1) r2) (s1 ++ s2))
        by (constructor; eauto).
      destruct (nullable r1); [apply MAltL|]; assumption.
  - destruct s1 as [|b s1]; simpl in E.
    + subst s2. apply (IHmatches2 a t eq_refl).
    + injection E as -> <-. constructor; eauto.
  - destruct s1 as [|b s1]; simpl in E.
    + subst s2. apply (IHmatches2 a t eq_refl).
    + injection E as -> <-. constructor; eauto.
Qed.

Lemma deriv_matches_cons c r :
  forall s, matches (deriv c r) s -> matches r (c :: s).
Proof.
  induction r; simpl; intros s H.
  - inversion H.
  - inversion H.
  - destruct (p c) eqn:E; inversion H; subst. now constructor.
  - destruct (N.eqb c c0) eqn:E; inversion H; subst.
    apply N.eqb_eq in E. subst. constructor.
  - inversion H; subst; [apply MAltL|apply MAltR]; auto.
  - assert (Hcat : forall t, matches (Cat (deriv c r1) r2) t ->
                             matches (Cat r1 r2) (c :: t)).
    { intros t Ht. inversion Ht; subst.
      change (c :: s1 ++ s2) with ((c :: s1) ++ s2). constructor; auto. }
    destruct (nullable r1) eqn:E; [|auto].
    inversion H; subst; [auto|].
    change (c :: s) with ([] ++ c :: s).
    constructor; [now apply nullable_matches_nil|auto].
  - inversion H; subst.
    change (c :: s1 ++ s2) with ((c :: s1) ++ s2). constructor; auto.
  - inversion H; subst.
    change (c :: s1 ++ s2) with ((c :: s1) ++ s2). constructor; auto.
Qed.

Lemma test_matches r s : test r s = true <-> matches r s.
Proof.
  revert r; induction s as [|c s IH]; intros r; simpl.
  - split; [apply nullable_matches_nil|].
    intros H. now apply (matches_nil_nullable _ _ H).
  - rewrite IH. split; [apply deriv_matches_cons|].
    intros H. now apply (matches_cons_deriv _ _ H).
Qed.

End RegexCorrect.

(** ** The language of the custom-category pattern *)

Section CategoryPattern.
Import Regex.

Variable p : Js.char -> bool.

Lemma star_class_Forall r s :
  matches r s -> r = Star (Class p) -> Forall (fun c => p c = true) s.
Proof.
  induction 1; intros E; try discriminate.
  - constructor.
  - injection E as ->. inversion H; subst. simpl.
    constructor; [assumption|auto].
Qed.

Lemma Forall_star_class s :
  Forall (fun c => p c = true) s -> matches (Star (Class p)) s.
Proof.
  induction 1 as [|c s Hc _ IH]; [constructor|].
  change (c :: s) with ([c] ++ s). constructor; [now constructor|exact IH].
Qed.

Lemma plus_class_group g : matches (Plus (Class p)) g <-> group p g.
Proof.
  split.
  - intros H. inversion H as [| | | | | | | |r s1 s2 H1 H2]; subst.
    inversion H1; subst. split; [discriminate|].
    constructor; [assumption|].
    now apply (star_class_Forall _ _ H2).
  - intros [Hne Hall]. destruct g as [|c g]; [contradiction|].
    inversion Hall; subst.
    change (c :: g) with ([c] ++ g).
    constructor; [now constructor|now apply Forall_star_class].
Qed.

Lemma star_groups r s :
  matches r s -> r = Star (Cat (Lit Js.comma) (Plus (Class p))) ->
  exists gs, Forall (group p) gs /\ s = List.concat (map (cons Js.comma) gs).
Proof.
  induction 1; intros E; try discriminate.
  - exists []. split; [constructor|reflexivity].
  - injection E as ->.
    destruct (IHmatches2 eq_refl) as [gs [Hgs ->]].
    inversion H as [| | | | |r1 r2 t1 t2 Ht1 Ht2| | |]; subst.
    inversion Ht1; subst.
    exists (t2 :: gs). split; [|reflexivity].
    constructor; [now apply plus_class_group|assumption].
Qed.

Lemma groups_star gs :
  Forall (group p) gs ->
  matches (Star (Cat (Lit Js.comma) (Plus (Class p))))
          (List.concat (map (cons Js.comma) gs)).
Proof.
  induction 1 as [|g gs Hg _ IH]; simpl; [constructor|].
  change (Js.comma :: g ++ List.concat (map (cons Js.comma) gs))
    with ((Js.comma :: g) ++ List.concat (map (cons Js.comma) gs)).
  constructor; [|exact IH].
  change (Js.comma :: g) with ([Js.comma] ++ g).
  constructor; [constructor|now apply plus_class_group].
Qed.

Lemma join_comma_cons g gs :
  Js.join [Js.comma] (g :: gs) = g ++ List.concat (map (cons Js.comma) gs).
Proof.
  revert g; induction gs as [|h gs IH]; intros g.
  - simpl. now rewrite app_nil_r.
  - change (Js.join [Js.comma] (g :: h :: gs))
      with (g ++ [Js.comma] ++ Js.join [Js.comma] (h :: gs)).
    rewrite IH. reflexivity.
Qed.

Lemma list_pattern_groups s :
  matches (Cat (Plus (Class p))
               (Star (Cat (Lit Js.comma) (Plus (Class p))))) s
  <-> exists groups, groups <> [] /\ Forall (group p) groups
                     /\ s = Js.join [Js.comma] groups.
Proof.
  split.
  - intros H. inversion H as [| | | | |r1 r2 s1 s2 H1 H2| | |]; subst.
    apply plus_class_group in H1.
    destruct (star_groups _ _ H2 eq_refl) as [gs [Hgs ->]].
    exists (s1 :: gs). split; [discriminate|]. split.
    + now constructor.
    + now rewrite join_comma_cons.
  - intros [[|g gs] [Hne [Hall ->]]]; [contradiction|].
    inversion Hall; subst. rewrite join_comma_cons.
    constructor; [now apply plus_class_group|now apply groups_star].
Qed.

End CategoryPattern.

Lemma lower_or_underscore_spec c :
  Regex.lower_or_underscore c = true
  <-> Spec.isLowercaseLetter c \/ Spec.isUnderscore c.
Proof.
  unfold Regex.lower_or_underscore, Spec.isLowercaseLetter, Spec.isUnderscore.
  rewrite orb_true_iff, andb_true_iff, !N.leb_le, N.eqb_eq. tauto.
Qed.

Lemma customCategoryPattern_spec s :
  Regex.test Regex.customCategoryPattern s = true <-> Spec.isCategoryList s.
Proof.
  rewrite test_matches. unfold Regex.customCategoryPattern.
  rewrite list_pattern_groups.
  unfold Spec.isCategoryList, Spec.isCategoryGroup, Regex.group.
  assert (E : forall g,
             (g <> [] /\ Forall (fun c => Regex.lower_or_underscore c = true) g)
             <-> (g <> [] /\
                  Forall (fun c => Spec.isLowercaseLetter c
                                   \/ Spec.isUnderscore c) g)).
  { intros g. rewrite !Forall_forall.
    split; intros [Hne H]; (split; [assumption|]); intros c Hc;
      apply lower_or_underscore_spec; auto. }
  split; intros [groups [Hne [Hall ->]]]; exists groups;
    (split; [assumption|]); (split; [|reflexivity]);
    rewrite Forall_forall in *; intros g Hg; apply E; auto.
Qed.

(** ** The custom-category validator *)

Section CustomCategory.
Import Leads.

Lemma customCategoryMessage_nonempty : customCategoryMessage <> [].
Proof. discriminate. Qed.

Lemma truthy_false (s : Js.str) : Js.truthy s = false <-> s = [].
Proof. destruct s; simpl; split; congruence. Qed.

Lemma validateCustomCategory_error value st :
  customCategoryError (validateCustomCategory value st) =
  if negb (Js.truthy (Js.trim value))
     || Regex.test Regex.customCategoryPattern value
  then [] else customCategoryMessage.
Proof.
  unfold validateCustomCategory.
  destruct (negb (Js.truthy (Js.trim value))); simpl; [reflexivity|].
  destruct (Regex.test Regex.customCategoryPattern value); reflexivity.
Qed.

Lemma validateCustomCategory_value value st :
  customCategory (validateCustomCategory value st) = value.
Proof.
  unfold validateCustomCategory.
  destruct (negb (Js.truthy (Js.trim value))); simpl; [reflexivity|].
  destruct (Regex.test Regex.customCategoryPattern value); reflexivity.
Qed.

Lemma validateCustomCategory_dialog value st :
  excludeDialogOpen (validateCustomCategory value st) = excludeDialogOpen st.
Proof.
  unfold validateCustomCategory.
  destruct (negb (Js.truthy (Js.trim value))); simpl; [reflexivity|].
  destruct (Regex.test Regex.customCategoryPattern value); reflexivity.
Qed.

Lemma validateCustomCategory_accepts value st :
  customCategoryError (validateCustomCategory value st) = []
  <-> (Js.trim value = [] \/ Spec.isCategoryList value).
Proof.
  rewrite validateCustomCategory_error, <- customCategoryPattern_spec.
  rewrite <- (truthy_false (Js.trim value)).
  destruct (Js.truthy (Js.trim value)); simpl;
    destruct (Regex.test Regex.customCategoryPattern value); simpl.
  - tauto.
  - split; [intros H; now apply customCategoryMessage_nonempty in H|].
    intros [H|H]; discriminate.
  - tauto.
  - tauto.
Qed.

Lemma confirm_blocked be w :
  Js.truthy (Js.trim (customCategory (page w))) = true ->
  Regex.test Regex.customCategoryPattern (customCategory (page w)) = false ->
  confirmExcludeLeads be w = w.
Proof.
  intros Ht Hp. unfold confirmExcludeLeads.
  destruct (account (page w)); [|reflexivity].
  now rewrite Ht, Hp.
Qed.

End CustomCategory.

(** C5. The validator accepts a custom-category string exactly when it is
    blank after trimming or is one or more groups of lowercase letters and
    underscores joined by single commas. ["plumber,electrician"] and [""]
    are accepted; ["plumber, electrician"], ["Plumber,electrician"] and
    ["plumber,electrician,"] are rejected. A rejected string disables the
    confirm button and makes the confirm handler return without any
    change, while the validator never touches the dialog's open flag and
    the dialog opens for any non-empty selection. *)
Theorem C5_custom_category_validation :
  (forall value st,
      Leads.customCategoryError (Leads.validateCustomCategory value st) = []
      <-> (Js.trim value = [] \/ Spec.isCategoryList value))
  /\ (forall st,
         Leads.customCategoryError
           (Leads.validateCustomCategory (Js.lit "plumber,electrician") st) = []
         /\ Leads.customCategoryError
              (Leads.validateCustomCategory (Js.lit "") st) = []
         /\ Leads.customCategoryError
              (Leads.validateCustomCategory (Js.lit "plumber, electrician") st)
            <> []
         /\ Leads.customCategoryError
              (Leads.validateCustomCategory (Js.lit "Plumber,electrician") st)
            <> []
         /\ Leads.customCategoryError
              (Leads.validateCustomCategory (Js.lit "plumber,electrician,") st)
            <> [])
  /\ (forall be w value,
         let w' := Leads.on_page (Leads.validateCustomCategory value) w in
         Leads.customCategoryError (Leads.page w') <> [] ->
         Leads.confirmDisabled (Leads.page w') = true
         /\ Leads.confirmExcludeLeads be w' = w')
  /\ (forall value st,
         Leads.excludeDialogOpen (Leads.validateCustomCategory value st)
         = Leads.excludeDialogOpen st)
  /\ (forall st,
         Leads.selectedLeads st <> [] ->
         Leads.excludeDialogOpen (Leads.handleRemoveLeads st) = true).
Proof.
  split; [exact validateCustomCategory_accepts|].
  split.
  { intros st. rewrite !validateCustomCategory_error.
    repeat split; vm_compute; congruence. }
  split.
  { intros be w value w' Herr. subst w'. simpl in *.
    rewrite validateCustomCategory_error in Herr.
    split.
    - unfold Leads.confirmDisabled.
      rewrite validateCustomCategory_error.
      destruct (negb (Js.truthy (Js.trim value))
                || Regex.test Regex.customCategoryPattern value);
        [contradiction|]. apply orb_true_r.
    - apply confirm_blocked; simpl; rewrite validateCustomCategory_value;
        destruct (Js.truthy (Js.trim value));
        destruct (Regex.test Regex.customCategoryPattern value);
        simpl in Herr; congruence. }
  split; [exact validateCustomCategory_dialog|].
  intros st Hsel. unfold Leads.handleRemoveLeads.
  destruct (Leads.selectedLeads st); [contradiction|reflexivity].
Qed.

Lemma C5_custom_category_validation_witness :
  let w' := Leads.on_page
              (Leads.validateCustomCategory (Js.lit "plumber, electrician"))
              (Sample.world Sample.emptyDb Sample.page7) in
  (Leads.confirmDisabled (Leads.page w') = true
   /\ Leads.confirmExcludeLeads Sample.healthy w' = w')
  /\ Leads.excludeDialogOpen
       (Leads.handleRemoveLeads
          (Leads.setSelectedLeads [Js.lit "lead-1"] Sample.page7)) = true.
Proof.
  destruct C5_custom_category_validation as (_ & _ & Hblock & _ & Hopen).
  split.
  - apply Hblock. vm_compute. discriminate.
  - apply Hopen. vm_compute. discriminate.
Defined.

(** ** Splitting, joining and trimming *)

Section SplitJoin.
Variable sep : Js.char.

Lemma split_not_nil s : Js.split sep s <> [].
Proof.
  destruct s as [|c s]; simpl; [discriminate|].
  destruct (N.eqb c sep); [discriminate|].
  destruct (Js.split sep s); discriminate.
Qed.

Lemma split_no_sep s : Forall (fun t => ~ In sep t) (Js.split sep s).
Proof.
  induction s as [|c s IH]; simpl.
  - constructor; [intros []|constructor].
  - destruct (N.eqb c sep) eqn:E.
    + constructor; [intros []|exact IH].
    + apply N.eqb_neq in E.
      destruct (Js.split sep s) as [|t ts]; inversion IH; subst.
      * constructor; [|constructor]. intros [H|[]]. congruence.
      * constructor; [|assumption]. intros [H|H]; [congruence|auto].
Qed.

Lemma split_token t : ~ In sep t -> Js.split sep t = [t].
Proof.
  induction t as [|c t IH]; simpl; intros H; [reflexivity|].
  destruct (N.eqb c sep) eqn:E.
  - apply N.eqb_eq in E. exfalso. apply H. left. congruence.
  - rewrite IH by tauto. reflexivity.
Qed.

Lemma split_token_sep t s :
  ~ In sep t -> Js.split sep (t ++ sep :: s) = t :: Js.split sep s.
Proof.
  induction t as [|c t IH]; simpl; intros H.
  - now rewrite N.eqb_refl.
  - destruct (N.eqb c sep) eqn:E.
    + apply N.eqb_eq in E. exfalso. apply H. left. congruence.
    + rewrite IH by tauto. reflexivity.
Qed.

Lemma split_join tokens :
  tokens <> [] -> Forall (fun t => ~ In sep t) tokens ->
  Js.split sep (Js.join [sep] tokens) = tokens.
Proof.
  induction tokens as [|t [|u rest] IH]; intros Hne Hall.
  - contradiction.
  - inversion Hall; subst. simpl. now apply split_token.
  - inversion Hall; subst.
    change (Js.join [sep] (t :: u :: rest))
      with (t ++ sep :: Js.join [sep] (u :: rest)).
    rewrite split_token_sep by assumption.
    rewrite IH; [reflexivity|discriminate|assumption].
Qed.

End SplitJoin.

Section Trim.
Variable p : Js.char -> bool.

Lemma dropWhile_head l :
  Js.dropWhile p l = []
  \/ exists c l', Js.dropWhile p l = c :: l' /\ p c = false.
Proof.
  induction l as [|c l IH]; simpl; [now left|].
  destruct (p c) eqn:E; [exact IH|]. right. now exists c, l.
Qed.

Lemma dropWhile_fixed c l : p c = false -> Js.dropWhile p (c :: l) = c :: l.
Proof. intros H. simpl. now rewrite H. Qed.

Lemma dropWhile_idem l :
  Js.dropWhile p (Js.dropWhile p l) = Js.dropWhile p l.
Proof.
  destruct (dropWhile_head l) as [->|[c [l' [-> H]]]]; [reflexivity|].
  now apply dropWhile_fixed.
Qed.

Lemma dropWhile_In c l : In c (Js.dropWhile p l) -> In c l.
Proof.
  induction l as [|d l IH]; simpl; [tauto|].
  destruct (p d); simpl; tauto.
Qed.

Lemma dropWhile_snoc c l :
  p c = false -> exists z, Js.dropWhile p (l ++ [c]) = z ++ [c].
Proof.
  intros H. induction l as [|d l IH]; simpl.
  - rewrite H. now exists [].
  - destruct (p d); [exact IH|]. now exists (d :: l).
Qed.

Lemma dropWhile_all_false l :
  Forall (fun c => p c = false) l -> Js.dropWhile p l = l.
Proof. intros [|c l' H _]; [reflexivity|now apply dropWhile_fixed]. Qed.

End Trim.

Lemma trim_In c s : In c (Js.trim s) -> In c s.
Proof.
  unfold Js.trim, Js.trimEnd, Js.trimStart. intros H.
  apply in_rev, dropWhile_In, in_rev, dropWhile_In in H. exact H.
Qed.

Lemma trim_idem s : Js.trim (Js.trim s) = Js.trim s.
Proof.
  unfold Js.trim, Js.trimEnd, Js.trimStart.
  destruct (dropWhile_head Js.isWhiteSpace s) as [->|[c [y [-> Hc]]]];
    [reflexivity|].
  destruct (dropWhile_snoc Js.isWhiteSpace c (rev y) Hc) as [z Hz].
  change (rev y ++ [c]) with (rev (c :: y)) in Hz.
  assert (Et : rev (Js.dropWhile Js.isWhiteSpace (rev (c :: y))) = c :: rev z)
    by (rewrite Hz, rev_app_distr; reflexivity).
  rewrite Et at 1. rewrite (dropWhile_fixed _ c _ Hc).
  rewrite <- Et, rev_involutive. now rewrite dropWhile_idem.
Qed.

Lemma trim_no_whitespace s :
  Forall (fun c => Js.isWhiteSpace c = false) s -> Js.trim s = s.
Proof.
  intros H. unfold Js.trim, Js.trimEnd, Js.trimStart.
  rewrite (dropWhile_all_false _ s H).
  rewrite dropWhile_all_false; [apply rev_involutive|].
  now apply Forall_rev.
Qed.

(** A non-empty trimmed string has a non-blank character (its last). *)
Lemma trim_has_ink s :
  Js.trim s <> [] -> exists c, In c (Js.trim s) /\ Js.isWhiteSpace c = false.
Proof.
  unfold Js.trim, Js.trimEnd. intros Hne.
  destruct (dropWhile_head Js.isWhiteSpace (rev (Js.trimStart s)))
    as [E|[c [l' [E Hc]]]].
  - rewrite E in Hne. contradiction.
  - exists c. split; [|exact Hc]. rewrite E, <- in_rev. now left.
Qed.

Lemma removeWhiteSpace_clean s :
  Forall (fun c => Js.isWhiteSpace c = false) (Js.removeWhiteSpace s).
Proof.
  apply Forall_forall. intros c H.
  apply filter_In in H as [_ H]. now apply negb_true_iff in H.
Qed.

Lemma removeWhiteSpace_fixed s :
  Forall (fun c => Js.isWhiteSpace c = false) s -> Js.removeWhiteSpace s = s.
Proof.
  induction 1 as [|c s Hc _ IH]; simpl; [reflexivity|].
  rewrite Hc. simpl. now f_equal.
Qed.

Lemma removeWhiteSpace_In c s : In c (Js.removeWhiteSpace s) -> In c s.
Proof. intros H. now apply filter_In in H. Qed.

Lemma removeWhiteSpace_trim_nonempty s :
  Js.trim s <> [] -> Js.removeWhiteSpace (Js.trim s) <> [].
Proof.
  intros H. destruct (trim_has_ink s H) as [c [Hin Hc]].
  assert (In c (Js.removeWhiteSpace (Js.trim s))).
  { apply filter_In. split; [assumption|]. now rewrite Hc. }
  intros E. rewrite E in *. contradiction.
Qed.

(** ** The pre-save normalisation *)

Section Normalisation.
Import Settings.

Lemma nonEmpty_eqb t : nonEmpty t = negb (Js.eqb t []).
Proof. destruct t; reflexivity. Qed.

Lemma nonEmpty_true t : nonEmpty t = true <-> t <> [].
Proof.
  destruct t; unfold nonEmpty; simpl; split; intros H;
    try discriminate; try reflexivity.
  now contradiction H.
Qed.

Lemma clean_normalize value allowSpaces :
  cleanCommaSeparatedValues value allowSpaces
  = Spec.normalize allowSpaces value.
Proof.
  unfold cleanCommaSeparatedValues, Spec.normalize.
  destruct value as [|c value]; [destruct allowSpaces; reflexivity|].
  cbn [Js.truthy negb].
  rewrite (filter_ext _ _ nonEmpty_eqb).
  destruct allowSpaces; reflexivity.
Qed.

Lemma map_fixed {A : Type} (g : A -> A) l :
  Forall (fun t => g t = t) l -> map g l = l.
Proof. induction 1; simpl; congruence. Qed.

Lemma filter_all {A : Type} (q : A -> bool) l :
  Forall (fun t => q t = true) l -> filter q l = l.
Proof.
  induction 1 as [|t l Ht _ IH]; simpl; [reflexivity|].
  rewrite Ht. now f_equal.
Qed.

Lemma normalize_settled allowSpaces tokens :
  Forall (settled allowSpaces) tokens ->
  Spec.normalize allowSpaces (Js.join [Js.comma] tokens)
  = Js.join [Js.comma] tokens.
Proof.
  intros H. destruct tokens as [|t tokens];
    [destruct allowSpaces; reflexivity|].
  unfold Spec.normalize.
  rewrite split_join;
    [|discriminate|revert H; apply Forall_impl; unfold settled; tauto].
  rewrite map_fixed
    by (revert H; apply Forall_impl; unfold settled; tauto).
  rewrite filter_all.
  2:{ revert H; apply Forall_impl. intros a [Ha _].
      rewrite <- nonEmpty_eqb. now apply nonEmpty_true. }
  destruct allowSpaces; [reflexivity|].
  rewrite map_fixed; [reflexivity|].
  revert H; apply Forall_impl. unfold settled. intros a Ha. now apply Ha.
Qed.

Lemma kept_tokens value :
  Forall (fun t => t <> [] /\ Js.trim t = t /\ ~ In Js.comma t)
         (filter (fun t => negb (Js.eqb t []))
                 (map Js.trim (Js.split Js.comma value))).
Proof.
  apply Forall_forall. intros t Ht.
  apply filter_In in Ht as [Hin Hne].
  apply in_map_iff in Hin as [x [<- Hx]].
  split; [|split].
  - rewrite <- nonEmpty_eqb in Hne. now apply nonEmpty_true.
  - apply trim_idem.
  - intros Hc. apply trim_In in Hc.
    pose proof (split_no_sep Js.comma value) as Hs.
    rewrite Forall_forall in Hs. exact (Hs x Hx Hc).
Qed.

Lemma normalize_tokens_settled allowSpaces value :
  exists tokens,
    Forall (settled allowSpaces) tokens
    /\ Spec.normalize allowSpaces value = Js.join [Js.comma] tokens.
Proof.
  pose proof (kept_tokens value) as K.
  unfold Spec.normalize.
  set (kept := filter _ (map Js.trim (Js.split Js.comma value))) in *.
  destruct allowSpaces.
  - exists kept. split; [|reflexivity].
    revert K; apply Forall_impl. unfold settled.
    intros a (H1 & H2 & H3). repeat split; auto; discriminate.
  - exists (map Js.removeWhiteSpace kept). split; [|reflexivity].
    apply Forall_forall. intros t Ht.
    apply in_map_iff in Ht as [a [<- Ha]].
    rewrite Forall_forall in K. destruct (K a Ha) as (H1 & H2 & H3).
    pose proof (removeWhiteSpace_clean a) as Hclean.
    repeat split.
    + rewrite <- H2. apply removeWhiteSpace_trim_nonempty. now rewrite H2.
    + now apply trim_no_whitespace.
    + intros Hc. apply H3. now apply removeWhiteSpace_In in Hc.
    + intros _. now apply removeWhiteSpace_fixed.
Qed.

Lemma normalize_idem allowSpaces value :
  Spec.normalize allowSpaces (Spec.normalize allowSpaces value)
  = Spec.normalize allowSpaces value.
Proof.
  destruct (normalize_tokens_settled allowSpaces value) as [tokens [H ->]].
  now apply normalize_settled.
Qed.

Lemma or_null_persisted s : Js.or_null s = Spec.persisted s.
Proof. destruct s; reflexivity. Qed.

End Normalisation.

(** C8. [cleanCommaSeparatedValues] is the normalisation the specification
    words: split on commas, trim each token, drop the empty ones, strip all
    whitespace from each token when spaces are not allowed, rejoin with
    commas. The result is a comma-join of tokens that are non-empty,
    trimmed and free of commas, and free of white space when spaces are
    not allowed. What is persisted is null when the result is empty, never
    the empty string; and a successful autosave writes the five fields so
    normalised, with spaces allowed in keywords and states only. *)
Theorem C8_presave_normalization :
  (forall value allowSpaces,
      Settings.cleanCommaSeparatedValues value allowSpaces
      = Spec.normalize allowSpaces value
      /\ Js.or_null (Settings.cleanCommaSeparatedValues value allowSpaces)
         = Spec.persisted (Spec.normalize allowSpaces value)
      /\ Js.or_null (Settings.cleanCommaSeparatedValues value allowSpaces)
         <> Some []
      /\ exists tokens,
           Forall (Settings.settled allowSpaces) tokens
           /\ Settings.cleanCommaSeparatedValues value allowSpaces
              = Js.join [Js.comma] tokens)
  /\ (forall be closure db st user,
         Settings.signedInUser closure = Some user ->
         Settings.isValidatingCodes closure = false ->
         Settings.anyInvalid closure = false ->
         Db.getToken be = Db.TokenIssued ->
         Db.fault be Db.UpdateSettings = Db.Healthy ->
         fst (Settings.autoSaveSerpSettings be closure (db, st))
         = Settings.update_settings user
             (Spec.persisted
                (Spec.normalize true (Settings.serpKeywords closure)))
             (Spec.persisted
                (Spec.normalize false (Settings.serpCategory closure)))
             (Spec.persisted
                (Spec.normalize false (Settings.serpExcludedCategory closure)))
             (Spec.persisted
                (Spec.normalize false (Settings.serpLocations closure)))
             (Spec.persisted
                (Spec.normalize true (Settings.serpStates closure)))
             db).
Proof.
  split.
  - intros value allowSpaces. rewrite clean_normalize, or_null_persisted.
    split; [reflexivity|]. split; [reflexivity|]. split.
    + destruct (Spec.normalize allowSpaces value); discriminate.
    + apply normalize_tokens_settled.
  - intros be closure db st user Hu Hv Hi Ht Hf.
    unfold Settings.autoSaveSerpSettings, Settings.autoSave_try.
    rewrite Hu, Hv, Hi, Ht, Hf. cbn [fst snd].
    now rewrite !clean_normalize, !or_null_persisted.
Qed.

Lemma C8_presave_normalization_witness :
  Db.user_accounts
    (fst (Settings.autoSaveSerpSettings Sample.healthy Sample.settings7
            (Sample.emptyDb, Sample.settings7)))
  = [ {| Db.ua_id := 7; Db.ua_clerk_id := Js.lit "user_7";
         Db.serp_keywords := Some (Js.lit "roof repair,plumber");
         Db.serp_cat := Some (Js.lit "roofing_contractor,plumber");
         Db.serp_exc_cat := None;
         Db.serp_locations := Some (Js.lit "200819,1027744");
         Db.serp_states := Some (Js.lit "New York,Ohio") |} ].
Proof.
  destruct C8_presave_normalization as [_ H].
  rewrite (H Sample.healthy Sample.settings7 Sample.emptyDb Sample.settings7
             (Js.lit "user_7"));
    reflexivity.
Defined.

(** C10. The pre-save normalisation is idempotent, for both values of the
    [allowSpaces] flag. *)
Theorem C10_clean_idempotent :
  forall (s : Js.str) (allowSpaces : bool),
    Settings.cleanCommaSeparatedValues
      (Settings.cleanCommaSeparatedValues s allowSpaces) allowSpaces
    = Settings.cleanCommaSeparatedValues s allowSpaces.
Proof.
  intros s allowSpaces. rewrite !clean_normalize. apply normalize_idem.
Qed.

(** ** Sets of strings *)

Lemma distinct_NoDup (l : list Js.str) : Js.distinct l = true -> NoDup l.
Proof.
  induction l as [|x l IH]; simpl; intros H; [constructor|].
  apply andb_true_iff in H as [Hx Hl]. apply negb_true_iff in Hx.
  constructor; [now apply includes_not_In|auto].
Qed.

Lemma set_add_In x y s : In x (Js.set_add y s) <-> x = y \/ In x s.
Proof.
  unfold Js.set_add. destruct (Js.includes s y) eqn:E.
  - apply includes_In in E. split; [tauto|]. intros [->|H]; assumption.
  - rewrite in_app_iff. simpl. intuition congruence.
Qed.

Lemma set_of_list_In x l : In x (Js.set_of_list l) <-> In x l.
Proof.
  unfold Js.set_of_list.
  assert (G : forall acc, In x (fold_left (fun s y => Js.set_add y s) l acc)
                          <-> In x acc \/ In x l).
  { induction l as [|y l IH]; intros acc; simpl; [tauto|].
    rewrite IH, set_add_In. intuition congruence. }
  rewrite G. simpl. tauto.
Qed.

(** ** Loading the leads: what an answered run computes *)

Section LoadLeads.
Import Db Leads.

Lemma select_leads_in_nil db : select_leads_in db [] = [].
Proof.
  unfold select_leads_in. induction (serp_leads_v2 db); simpl; auto.
Qed.

Lemma loadLeads_try_answered be db st uid :
  answers be -> account st = Some uid ->
  select_user_leads db uid (showExcludedLeads st) <> [] ->
  let F := filteredUserLeads db st uid in
  let pg := paginate (currentPage st) (recordsPerPage st) F in
  let n := Z.of_nat (List.length F) in
  loadLeads_try be db st =
  Done (setLeads (mergeLeads pg (select_leads_in db (map ul_lead_id pg)))
          (setTotalPages (Js.ceil_div n (recordsPerPage st))
             (setTotalRecords n st))).
Proof.
  intros [Htok Hf] Hacc Hne F pg n.
  unfold loadLeads_try. rewrite Htok, Hacc. unfold request. rewrite !Hf.
  subst n pg F. unfold filteredUserLeads.
  destruct (select_user_leads db uid (showExcludedLeads st))
    as [|ul all] eqn:Eall; [contradiction|].
  unfold fetchEmailedLeadIds, request. rewrite Hf.
  destruct (negb (showEmailedLeads st) && negb (showExcludedLeads st));
    cbv zeta; cbn [recordsPerPage setTotalRecords];
    match goal with
    | |- context [match ?pg with [] => _ | _ :: _ => _ end] =>
        destruct pg eqn:Epg; [simpl map; rewrite select_leads_in_nil|];
          reflexivity
    end.
Qed.

Lemma loadLeads_answered be db st uid :
  answers be -> account st = Some uid ->
  select_user_leads db uid (showExcludedLeads st) <> [] ->
  let F := filteredUserLeads db st uid in
  let pg := paginate (currentPage st) (recordsPerPage st) F in
  let n := Z.of_nat (List.length F) in
  loadLeads be db st =
  setIsLoading false
    (setLeads (mergeLeads pg (select_leads_in db (map ul_lead_id pg)))
       (setTotalPages (Js.ceil_div n (recordsPerPage st))
          (setTotalRecords n (setError [] (setIsLoading true st))))).
Proof.
  intros Hbe Hacc Hne F pg n. unfold loadLeads.
  rewrite (loadLeads_try_answered be db _ uid Hbe);
    [reflexivity|exact Hacc|exact Hne].
Qed.

Lemma loadLeads_no_rows be db st uid :
  getToken be = TokenIssued -> fault be SelectUserLeads = Healthy ->
  account st = Some uid ->
  select_user_leads db uid (showExcludedLeads st) = [] ->
  loadLeads be db st =
  setIsLoading false
    (setLeads [] (setTotalPages (Js.Int 0)
          (setTotalRecords 0 (setError [] (setIsLoading true st))))).
Proof.
  intros Htok Hf Hacc Hnil. unfold loadLeads, loadLeads_try.
  rewrite Htok.
  change (account (setError [] (setIsLoading true st))) with (account st).
  rewrite Hacc. unfold request. rewrite Hf.
  change (showExcludedLeads (setError [] (setIsLoading true st)))
    with (showExcludedLeads st).
  rewrite Hnil. reflexivity.
Qed.

Section Slices.
Context {A : Type}.

Lemma firstn_add (a b : nat) (l : list A) :
  firstn (a + b) l = firstn a l ++ firstn b (skipn a l).
Proof.
  revert l; induction a as [|a IH]; intros [|x l]; simpl;
    try reflexivity.
  - now rewrite firstn_nil.
  - now rewrite IH.
Qed.

Lemma slice_nat (l : list A) (a b : nat) :
  Js.slice l (Z.of_nat a) (Z.of_nat a + Z.of_nat b)
  = firstn b (skipn a l).
Proof.
  unfold Js.slice.
  destruct (Z.ltb_spec (Z.of_nat a) 0) as [H|_]; [lia|].
  destruct (Z.ltb_spec (Z.of_nat a + Z.of_nat b) 0) as [H|_]; [lia|].
  destruct (Nat.le_gt_cases (List.length l) a) as [Hlen|Hlen].
  - rewrite (skipn_all2 l Hlen).
    replace (Z.to_nat (Z.min (Z.of_nat a) (Z.of_nat (List.length l))))
      with (List.length l) by lia.
    rewrite skipn_all. now rewrite !firstn_nil.
  - replace (Z.to_nat (Z.min (Z.of_nat a) (Z.of_nat (List.length l))))
      with a by lia.
    destruct (Nat.le_gt_cases (a + b) (List.length l)) as [Hb|Hb].
    + f_equal. lia.
    + rewrite !firstn_all2; [reflexivity| |]; rewrite length_skipn; lia.
Qed.

(** The pages of size [ps] tile the list. *)
Lemma pages_tile (ps k : nat) (l : list A) :
  List.concat (map (fun i => firstn ps (skipn (i * ps) l)) (seq 0 k))
  = firstn (k * ps) l.
Proof.
  induction k as [|k IH]; [reflexivity|].
  rewrite seq_S, map_app, concat_app, IH. simpl.
  rewrite app_nil_r, <- firstn_add. f_equal. lia.
Qed.
End Slices.

Lemma paginate_firstn (p ps : Z) (F : list UserLead) :
  1 <= p -> 0 < ps ->
  paginate p ps F
  = firstn (Z.to_nat ps) (skipn (Z.to_nat (p - 1) * Z.to_nat ps) F).
Proof.
  intros Hp Hps. unfold paginate.
  rewrite <- slice_nat. f_equal; nia.
Qed.

(** A slice is never longer than the page size, whatever the page
    number. *)
Lemma paginate_length (p ps : Z) (F : list UserLead) :
  0 <= ps -> Z.of_nat (List.length (paginate p ps F)) <= ps.
Proof.
  intros Hps. unfold paginate, Js.slice.
  generalize ((p - 1) * ps). intros from.
  rewrite length_firstn, length_skipn.
  destruct (Z.ltb_spec from 0), (Z.ltb_spec (from + ps) 0); lia.
Qed.

Lemma ceil_div_pos (n ps : Z) :
  0 < ps ->
  exists k, Js.ceil_div n ps = Js.Int k /\ (k - 1) * ps < n <= k * ps.
Proof.
  intros Hps. unfold Js.ceil_div.
  destruct (Z.eqb_spec ps 0) as [H|_]; [lia|].
  exists (- (- n / ps)). split; [reflexivity|].
  pose proof (Z.mul_div_le (- n) ps Hps).
  pose proof (Z.mul_succ_div_gt (- n) ps Hps). nia.
Qed.

Lemma pages_cover (ps k : Z) (F : list UserLead) :
  0 < ps -> Z.of_nat (List.length F) <= k * ps ->
  List.concat (map (fun p => paginate p ps F) (Spec.pageNumbers k)) = F.
Proof.
  intros Hps Hk. unfold Spec.pageNumbers. rewrite map_map.
  rewrite (map_ext_in _ (fun i => firstn (Z.to_nat ps)
                                   (skipn (i * Z.to_nat ps) F))).
  - rewrite pages_tile. apply firstn_all2. nia.
  - intros i _. rewrite paginate_firstn by lia. do 2 f_equal. lia.
Qed.

Lemma pages_lengths (ps k : Z) (F : list UserLead) :
  0 < ps -> Z.of_nat (List.length F) <= k * ps ->
  list_sum (map (fun p => List.length (paginate p ps F))
                (Spec.pageNumbers k))
  = List.length F.
Proof.
  intros Hps Hk.
  pose proof (f_equal (@List.length _) (pages_cover ps k F Hps Hk)) as E.
  rewrite length_concat, map_map in E. exact E.
Qed.

Lemma map_filter_NoDup {A B : Type} (f : A -> B) (q : A -> bool) l :
  NoDup (map f l) -> NoDup (map f (filter q l)).
Proof.
  induction l as [|x l IH]; simpl; intros H; [constructor|].
  inversion H as [|y m Hx Hl]; subst.
  destruct (q x); simpl; [|auto].
  constructor; [|auto].
  intros Hin. apply Hx. apply in_map_iff in Hin as [z [Hz Hin]].
  apply filter_In in Hin as [Hin _]. apply in_map_iff. now exists z.
Qed.

(** The hydration query returns at most one row per requested id when
    [id] is a key of [serp_leads_v2]. *)
Lemma select_leads_in_length db ids :
  NoDup (map sl_id (serp_leads_v2 db)) ->
  (List.length (select_leads_in db ids) <= List.length ids)%nat.
Proof.
  intros Hkey. unfold select_leads_in.
  rewrite <- (length_map sl_id).
  apply NoDup_incl_length; [now apply map_filter_NoDup|].
  intros id Hid. apply in_map_iff in Hid as [l [<- Hl]].
  apply filter_In in Hl as [_ Hl]. now apply includes_In.
Qed.

Lemma mergeLeads_length pg leadsData :
  List.length (mergeLeads pg leadsData) = List.length leadsData.
Proof. apply length_map. Qed.

(** Whatever the rows, an answered run sets the totals from the
    filtered list and shows the hydrated slice. *)
Lemma loadLeads_totals be db st uid :
  answers be -> account st = Some uid -> recordsPerPage st <> 0 ->
  let F := filteredUserLeads db st uid in
  let pg := paginate (currentPage st) (recordsPerPage st) F in
  let st' := loadLeads be db st in
  totalRecords st' = Z.of_nat (List.length F)
  /\ totalPages st'
     = Js.ceil_div (Z.of_nat (List.length F)) (recordsPerPage st)
  /\ leads st' = mergeLeads pg (select_leads_in db (map ul_lead_id pg)).
Proof.
  intros Hbe Hacc Hps F pg st'. subst st'.
  destruct (select_user_leads db uid (showExcludedLeads st)) eqn:Eall.
  - destruct Hbe as [Htok Hf].
    rewrite (loadLeads_no_rows be db st uid Htok (Hf _) Hacc Eall).
    assert (EF : F = []).
    { subst F. unfold filteredUserLeads. rewrite Eall. reflexivity. }
    subst pg. rewrite EF. cbn [totalRecords totalPages leads setIsLoading
      setLeads setTotalPages setTotalRecords List.length Z.of_nat].
    repeat split.
    + unfold Js.ceil_div. destruct (Z.eqb_spec (recordsPerPage st) 0);
        [contradiction|reflexivity].
    + assert (E : paginate (currentPage st) (recordsPerPage st) [] = []).
      { unfold paginate, Js.slice. rewrite skipn_nil. apply firstn_nil. }
      rewrite E. simpl. now rewrite select_leads_in_nil.
  - rewrite (loadLeads_answered be db st uid Hbe Hacc)
      by (rewrite Eall; discriminate).
    repeat split.
Qed.

End LoadLeads.

(** C1. In a run whose requests are answered, the totals come from the
    filtered, unpaginated list and the page is a slice of it: for every
    page number the slice has at most [recordsPerPage] associations (and,
    [id] being a key of the lead table, the rows shown are no more than
    the slice), the slices of
    pages [1 .. totalPages] concatenate to the filtered list, so their
    lengths sum to [totalRecords], and [totalPages] is the ceiling of
    [totalRecords / recordsPerPage]. With 120 active associations that all
    have emails and a page size of 50, page 1 shows 50 rows, [totalPages]
    is 3 and page 3 shows 20 rows. *)
Theorem C1_pagination_totals :
  (forall be db st uid,
      Db.answers be ->
      Leads.account st = Some uid ->
      0 < Leads.recordsPerPage st ->
      NoDup (map Db.sl_id (Db.serp_leads_v2 db)) ->
      let filtered := Leads.filteredUserLeads db st uid in
      let pageSize := Leads.recordsPerPage st in
      let slice p := Leads.paginate p pageSize filtered in
      let load p := Leads.loadLeads be db (Leads.setCurrentPage p st) in
      exists k,
        (k - 1) * pageSize < Z.of_nat (List.length filtered) <= k * pageSize
        /\ (forall p,
              Leads.totalRecords (load p) = Z.of_nat (List.length filtered)
              /\ Leads.totalPages (load p) = Js.Int k
              /\ Z.of_nat (List.length (slice p)) <= pageSize
              /\ Leads.leads (load p)
                 = Leads.mergeLeads (slice p)
                     (Db.select_leads_in db (map Db.ul_lead_id (slice p)))
              /\ (List.length (Leads.leads (load p))
                  <= List.length (slice p))%nat)
        /\ List.concat (map slice (Spec.pageNumbers k)) = filtered
        /\ list_sum (map (fun p => List.length (slice p)) (Spec.pageNumbers k))
           = List.length filtered)
  /\ (let load p :=
        Leads.loadLeads Sample.healthy Sample.scenarioDb
          (Leads.setCurrentPage p Sample.page7) in
      List.length (Leads.leads (load 1)) = 50%nat
      /\ Leads.totalRecords (load 1) = 120
      /\ Leads.totalPages (load 1) = Js.Int 3
      /\ List.length (Leads.leads (load 3)) = 20%nat).
Proof.
  split.
  - intros be db st uid Hbe Hacc Hps Hkey filtered pageSize slice load.
    destruct (ceil_div_pos (Z.of_nat (List.length filtered)) pageSize Hps)
      as [k [Hk Hbounds]].
    exists k. split; [exact Hbounds|]. split; [|split].
    + intros p.
      destruct (loadLeads_totals be db (Leads.setCurrentPage p st) uid Hbe)
        as (Ht & Hp' & Hl); [exact Hacc|cbn; lia|].
      change (Leads.filteredUserLeads db (Leads.setCurrentPage p st) uid)
        with filtered in *.
      cbn [Leads.recordsPerPage Leads.currentPage Leads.setCurrentPage] in *.
      fold pageSize in Hp', Hl. fold (slice p) in Hl. fold (load p) in *.
      repeat split.
      * exact Ht.
      * now rewrite Hp'.
      * apply paginate_length. lia.
      * exact Hl.
      * rewrite Hl, mergeLeads_length, <- (length_map Db.ul_lead_id (slice p)).
        now apply select_leads_in_length.
    + apply pages_cover; [exact Hps|lia].
    + apply pages_lengths; [exact Hps|lia].
  - vm_compute. repeat split.
Qed.

Lemma C1_pagination_totals_witness :
  exists k,
    (k - 1) * 50 < 120 <= k * 50
    /\ List.concat
         (map (fun p => Leads.paginate p 50
                          (Leads.filteredUserLeads Sample.scenarioDb
                             Sample.page7 7))
              (Spec.pageNumbers k))
       = Leads.filteredUserLeads Sample.scenarioDb Sample.page7 7.
Proof.
  destruct C1_pagination_totals as [H _].
  destruct (H Sample.healthy Sample.scenarioDb Sample.page7 7)
    as [k (Hk & _ & Hcat & _)].
  - split; reflexivity.
  - reflexivity.
  - reflexivity.
  - apply distinct_NoDup. vm_compute. reflexivity.
  - exists k. split; [|exact Hcat].
    replace 120 with
      (Z.of_nat (List.length (Leads.filteredUserLeads Sample.scenarioDb
                                Sample.page7 7)))
      by (vm_compute; reflexivity).
    exact Hk.
Defined.

(** ** Loading the leads: a failed association fetch *)

Section PrimaryFetch.
Import Db Leads.

(** What [loadLeads] leaves when the [user_leads] query fails. *)
Lemma loadLeads_primary_failure be db st uid :
  getToken be = TokenIssued -> account st = Some uid ->
  fault be SelectUserLeads <> Healthy ->
  exists message,
    message <> []
    /\ loadLeads be db st
       = setIsLoading false (setError message (setError []
           (setIsLoading true st))).
Proof.
  intros Htok Hacc Hf. unfold loadLeads, loadLeads_try.
  rewrite Htok.
  change (account (setError [] (setIsLoading true st))) with (account st).
  rewrite Hacc. unfold request.
  destruct (fault be SelectUserLeads) as [|m|]; [contradiction| |].
  - exists (loadFailed m). split; [discriminate|reflexivity].
  - eexists. split; [|reflexivity]. discriminate.
Qed.

End PrimaryFetch.

(** C2 (as the code has it). When the [user_leads] query fails, by an
    error object or by a rejection, [loadLeads] reports the failure in
    [error] and stops loading, and leaves the total record count, the
    page count and the rows on screen as they were. The totals are reset
    to zero when the query succeeds with no rows. *)
Theorem C2_primary_fetch_failure :
  forall be db st uid,
    Db.getToken be = Db.TokenIssued ->
    Leads.account st = Some uid ->
    let st' := Leads.loadLeads be db st in
    (Db.fault be Db.SelectUserLeads <> Db.Healthy ->
     Leads.error st' <> []
     /\ Leads.isLoading st' = false
     /\ Leads.totalRecords st' = Leads.totalRecords st
     /\ Leads.totalPages st' = Leads.totalPages st
     /\ Leads.leads st' = Leads.leads st)
    /\ (Db.fault be Db.SelectUserLeads = Db.Healthy ->
        Db.select_user_leads db uid (Leads.showExcludedLeads st) = [] ->
        Leads.error st' = []
        /\ Leads.totalRecords st' = 0
        /\ Leads.totalPages st' = Js.Int 0
        /\ Leads.leads st' = []).
Proof.
  intros be db st uid Htok Hacc st'. subst st'. split.
  - intros Hf.
    destruct (loadLeads_primary_failure be db st uid Htok Hacc Hf)
      as [message [Hne ->]].
    repeat split. exact Hne.
  - intros Hf Hnil.
    rewrite (loadLeads_no_rows be db st uid Htok Hf Hacc Hnil).
    repeat split.
Qed.

Lemma C2_primary_fetch_failure_witness :
  let st := Leads.loadLeads Sample.healthy Sample.scenarioDb Sample.page7 in
  let st' := Leads.loadLeads Sample.userLeadsDown Sample.scenarioDb st in
  Leads.error st' <> []
  /\ Leads.isLoading st' = false
  /\ Leads.totalRecords st' = Leads.totalRecords st
  /\ Leads.totalPages st' = Leads.totalPages st
  /\ Leads.leads st' = Leads.leads st.
Proof.
  intros st st'.
  apply (C2_primary_fetch_failure Sample.userLeadsDown Sample.scenarioDb
           st 7).
  - reflexivity.
  - reflexivity.
  - discriminate.
Defined.

(** C2, refuted as stated: after a load that counted 120 records, a load
    whose [user_leads] query fails reports the failure and still shows a
    total of 120, not zero. *)
Lemma C2_total_not_reset :
  let st := Leads.loadLeads Sample.healthy Sample.scenarioDb Sample.page7 in
  let st' := Leads.loadLeads Sample.userLeadsDown Sample.scenarioDb st in
  Db.fault Sample.userLeadsDown Db.SelectUserLeads
  = Db.Fails (Js.lit "timeout")
  /\ Leads.error st' = Js.lit "Failed to load leads: timeout"
  /\ Leads.totalRecords st' = 120
  /\ Leads.totalRecords st' <> 0.
Proof. vm_compute. repeat split. discriminate. Qed.

(** ** The in-memory filter *)

Section Filter.
Import Db Leads.

Lemma filterUserLeads_excluded_view st emailed withEmail all :
  showExcludedLeads st = true ->
  filterUserLeads st emailed withEmail all = all.
Proof.
  intros H. unfold filterUserLeads, keepUserLead. rewrite H. simpl.
  induction all as [|ul all IH]; simpl; congruence.
Qed.

Lemma filterUserLeads_in_order st emailed withEmail all :
  filterUserLeads st emailed withEmail all
  = Spec.dropWithoutEmail (showExcludedLeads st) (showWithoutEmails st)
      withEmail
      (Spec.dropDrafted (showExcludedLeads st) (showEmailedLeads st)
         emailed all).
Proof.
  unfold filterUserLeads, keepUserLead, Spec.dropWithoutEmail,
    Spec.dropDrafted.
  destruct (showExcludedLeads st), (showEmailedLeads st),
    (showWithoutEmails st); simpl;
    induction all as [|ul all IH]; simpl; try congruence;
    try (destruct (Js.includes emailed (ul_lead_id ul)); simpl);
    try (destruct (Js.includes withEmail (ul_lead_id ul)); simpl);
    congruence.
Qed.

Lemma hasValidEmail_spec l : hasValidEmail l = true <-> Spec.validEmail l.
Proof.
  unfold hasValidEmail, Spec.validEmail.
  destruct (sl_email l) as [e|].
  - rewrite andb_true_iff, negb_true_iff, eqb_neq. split.
    + intros [Ht Hs]. exists e. repeat split; [|assumption].
      intros ->. discriminate.
    + intros [e' [[= <-] [Hne Hs]]]. split; [|assumption].
      destruct e; [contradiction|reflexivity].
  - split; [discriminate|]. intros [e [[=] _]].
Qed.

Lemma leadsWithEmailSet_spec leadsData id :
  In id (leadsWithEmailSet leadsData)
  <-> exists l, In l leadsData /\ sl_id l = id /\ Spec.validEmail l.
Proof.
  unfold leadsWithEmailSet. rewrite set_of_list_In, in_map_iff.
  split; intros [l H]; exists l; rewrite filter_In, hasValidEmail_spec in *;
    tauto.
Qed.

Lemma truthyIds_spec draftIds id :
  In id (truthyIds draftIds) <-> id <> [] /\ In (Some id) draftIds.
Proof.
  unfold truthyIds. rewrite in_flat_map. split.
  - intros [[d|] [Hd Hin]]; [|destruct Hin].
    destruct d as [|c d]; simpl in Hin; [destruct Hin|].
    destruct Hin as [<-|[]]. split; [discriminate|assumption].
  - intros [Hne Hin]. exists (Some id). split; [assumption|].
    destruct id; [contradiction|now left].
Qed.

Lemma fetchEmailedLeadIds_answered be db st uid :
  answers be -> showExcludedLeads st = false ->
  showEmailedLeads st = false ->
  exists ids,
    fetchEmailedLeadIds be db st uid = Some ids
    /\ forall id,
         In id ids
         <-> id <> []
             /\ exists d, In d (email_drafts db) /\ ed_user_id d = uid
                          /\ ed_lead_id d = Some id.
Proof.
  intros [_ Hf] He Hm. unfold fetchEmailedLeadIds, request.
  rewrite He, Hm, Hf. simpl. eexists. split; [reflexivity|].
  intros id. rewrite truthyIds_spec. unfold select_draft_lead_ids.
  rewrite in_map_iff.
  split; intros [Hne [d H]]; (split; [assumption|]); exists d;
    rewrite filter_In, Z.eqb_eq in *; tauto.
Qed.

End Filter.

(** C9. The Step 4 filter is the two drops of the specification applied in
    order: first the associations whose lead id is among the drafted ids
    (unless in excluded view or with "show already emailed" on), then those
    whose lead id is not among the ids with a valid email (unless in
    excluded view or with "show leads without emails" on); in excluded view
    the list is left as it is. A lead id has a valid email when some
    fetched lead with that id has an email that is non-empty and is not
    ['EmailNotFound']; the drafted ids of an answered run in normal view
    are the non-empty lead ids of the account's drafts. *)
Theorem C9_in_memory_filter :
  (forall st emailedLeadIds withEmail allUserLeadsData,
      Leads.filterUserLeads st emailedLeadIds withEmail allUserLeadsData
      = Spec.dropWithoutEmail (Leads.showExcludedLeads st)
          (Leads.showWithoutEmails st) withEmail
          (Spec.dropDrafted (Leads.showExcludedLeads st)
             (Leads.showEmailedLeads st) emailedLeadIds allUserLeadsData))
  /\ (forall st emailedLeadIds withEmail allUserLeadsData,
         Leads.showExcludedLeads st = true ->
         Leads.filterUserLeads st emailedLeadIds withEmail allUserLeadsData
         = allUserLeadsData)
  /\ (forall allLeadsData id,
         In id (Leads.leadsWithEmailSet allLeadsData)
         <-> exists l, In l allLeadsData /\ Db.sl_id l = id
                       /\ Spec.validEmail l)
  /\ (forall be db st uid,
         Db.answers be ->
         Leads.showExcludedLeads st = false ->
         Leads.showEmailedLeads st = false ->
         exists ids,
           Leads.fetchEmailedLeadIds be db st uid = Some ids
           /\ forall id,
                In id ids
                <-> id <> []
                    /\ exists d, In d (Db.email_drafts db)
                                 /\ Db.ed_user_id d = uid
                                 /\ Db.ed_lead_id d = Some id).
Proof.
  split; [exact filterUserLeads_in_order|].
  split; [exact filterUserLeads_excluded_view|].
  split; [exact leadsWithEmailSet_spec|].
  exact fetchEmailedLeadIds_answered.
Qed.

Lemma C9_in_memory_filter_witness :
  Leads.filterUserLeads (Leads.setShowExcludedLeads true Sample.page7)
    [Sample.leadId 1] [] (Db.user_leads Sample.scenarioDb)
  = Db.user_leads Sample.scenarioDb
  /\ exists ids,
       Leads.fetchEmailedLeadIds Sample.healthy Sample.scenarioDb
         Sample.page7 7 = Some ids
       /\ forall id,
            In id ids
            <-> id <> []
                /\ exists d, In d (Db.email_drafts Sample.scenarioDb)
                             /\ Db.ed_user_id d = 7
                             /\ Db.ed_lead_id d = Some id.
Proof.
  destruct C9_in_memory_filter as (_ & Hview & _ & Hdrafts).
  split.
  - apply Hview. reflexivity.
  - apply Hdrafts.
    + split; reflexivity.
    + reflexivity.
    + reflexivity.
Defined.

(** ** The exclusion workflow *)

Section Exclusion.
Import Db Leads.

Lemma includes_set_of_list l cat :
  Js.includes (Js.set_of_list l) cat = Js.includes l cat.
Proof.
  destruct (Js.includes l cat) eqn:H.
  - apply includes_In. apply set_of_list_In. now apply includes_In.
  - apply includes_not_In. rewrite set_of_list_In.
    now apply includes_not_In.
Qed.

(** By design the merge keeps the stored tokens in their order and
    appends the chosen categories that are not among them, in the order
    chosen. *)
Lemma mergeCategories_order stored toAdd :
  mergeCategories stored toAdd
  = Js.join [Js.comma]
      (existingCategories stored
       ++ filter (fun cat => negb (Js.includes (existingCategories stored)
                                               cat))
                 toAdd).
Proof.
  unfold mergeCategories. cbv zeta.
  rewrite (filter_ext _ (fun cat =>
             negb (Js.includes (existingCategories stored) cat)))
    by (intros cat; now rewrite includes_set_of_list).
  destruct (existingCategories stored); reflexivity.
Qed.

(** Nothing in [loadLeads] touches the selection, the notice or the
    dialog. *)
Lemma loadLeads_frame be db st :
  successMessage (loadLeads be db st) = successMessage st
  /\ selectedLeads (loadLeads be db st) = selectedLeads st
  /\ excludeDialogOpen (loadLeads be db st) = excludeDialogOpen st.
Proof.
  unfold loadLeads, loadLeads_try, fetchEmailedLeadIds, request.
  repeat match goal with
         | |- context [match ?x with _ => _ end] =>
             lazymatch x with
             | context [match _ with _ => _ end] => fail
             | _ => destruct x
             end
         end; repeat split.
Qed.

Lemma restore_guard be w :
  selectedLeads (page w) = [] \/ account (page w) = None ->
  handleRestoreLeads be w = w.
Proof.
  unfold handleRestoreLeads. intros [->| ->]; [reflexivity|].
  destruct (Nat.eqb _ _); reflexivity.
Qed.

(** The store after a restore: untouched, or updated once. *)
Lemma restore_db be w :
  db (handleRestoreLeads be w) = db w
  \/ exists uid,
       account (page w) = Some uid
       /\ db (handleRestoreLeads be w)
          = update_excluded uid (selectedLeads (page w)) None (db w).
Proof.
  unfold handleRestoreLeads.
  destruct (Nat.eqb _ _); [now left|].
  destruct (account (page w)) as [uid|] eqn:Hacc; [|now left].
  unfold handleRestoreLeads_try.
  destruct (getToken be); try (now left).
  destruct (fault be UpdateUserLeads); try (now left).
  right. exists uid. split; reflexivity.
Qed.

Lemma restore_success be w uid :
  getToken be = TokenIssued -> fault be UpdateUserLeads = Healthy ->
  account (page w) = Some uid -> selectedLeads (page w) <> [] ->
  let w' := handleRestoreLeads be w in
  db w' = update_excluded uid (selectedLeads (page w)) None (db w)
  /\ successMessage (page w')
     = successNotice (Js.lit "restored")
         (List.length (selectedLeads (page w)))
  /\ selectedLeads (page w') = []
  /\ alerts w' = alerts w.
Proof.
  intros Htok Hf Hacc Hsel. unfold handleRestoreLeads.
  destruct (selectedLeads (page w)) as [|x sel] eqn:Es; [contradiction|].
  cbn [List.length Nat.eqb]. rewrite Hacc.
  unfold handleRestoreLeads_try. rewrite Htok, Hf. cbv zeta.
  cbn [db page alerts on_page on_db setTimeout].
  change (selectedLeads (setIsLoading true (page w)))
    with (selectedLeads (page w)).
  rewrite Es.
  match goal with
  | |- context [loadLeads be ?d ?s] =>
      destruct (loadLeads_frame be d s) as (Hmsg & Hsel' & _);
        set (st' := loadLeads be d s) in *
  end.
  change (successMessage (setIsLoading false st'))
    with (successMessage st').
  change (selectedLeads (setIsLoading false st'))
    with (selectedLeads st').
  rewrite Hmsg, Hsel'. repeat split.
Qed.

Lemma set_excluded_null ul :
  ul_excluded ul = None -> set_excluded None ul = ul.
Proof. destruct ul; simpl; intros ->; reflexivity. Qed.

End Exclusion.

(** C3 (the code at the failing input). The merge removes from the chosen
    categories only those already stored; it does not compare the chosen
    categories with one another. With [roofer] stored, ticking the
    checkbox [plumber] and typing [plumber] in the custom field stores
    [roofer,plumber,plumber]: the token [plumber] twice. The example of
    the specification, custom field [plumber,electrician] and nothing
    ticked, stores each of the two once, after [roofer]. *)
Theorem C3_exclusion_set_duplicates :
  let confirm st :=
    Leads.confirmExcludeLeads Sample.healthy
      (Sample.world Sample.exclusionDb st) in
  let stored w := map Db.serp_exc_cat (Db.user_accounts (Leads.db w)) in
  let tokens w := flat_map (fun v => Js.split Js.comma (Js.or_else v []))
                    (stored w) in
  stored (confirm (Sample.dialog [Js.lit "plumber"] (Js.lit "plumber")))
  = [Some (Js.lit "roofer,plumber,plumber")]
  /\ count_occ (list_eq_dec N.eq_dec)
       (tokens (confirm (Sample.dialog [Js.lit "plumber"] (Js.lit "plumber"))))
       (Js.lit "plumber") = 2%nat
  /\ stored (confirm (Sample.dialog [] (Js.lit "plumber,plumber")))
     = [Some (Js.lit "roofer,plumber,plumber")]
  /\ stored (confirm (Sample.dialog [] (Js.lit "plumber,electrician")))
     = [Some (Js.lit "roofer,plumber,electrician")].
Proof. vm_compute. repeat split. Qed.

(** C4 (as the code has it). Restore returns at once, changing nothing,
    when the selection is empty or the account id is null. The confirm
    step of Exclude returns at once, changing nothing, when the account id
    is null; its guard against an empty selection is the one of the step
    that opens the dialog, which leaves the page as it is and the dialog
    closed. *)
Theorem C4_guards :
  forall be w,
    (Leads.selectedLeads (Leads.page w) = []
     \/ Leads.userAccountId (Leads.page w) = None ->
     Leads.handleRestoreLeads be w = w)
    /\ (Leads.userAccountId (Leads.page w) = None ->
        Leads.confirmExcludeLeads be w = w)
    /\ (Leads.selectedLeads (Leads.page w) = [] ->
        Leads.handleRemoveLeads (Leads.page w) = Leads.page w).
Proof.
  intros be w. split; [|split].
  - intros [H|H]; apply restore_guard; [now left|right].
    unfold Leads.account. now rewrite H.
  - intros H. unfold Leads.confirmExcludeLeads, Leads.account.
    now rewrite H.
  - intros H. unfold Leads.handleRemoveLeads. now rewrite H.
Qed.

Lemma C4_guards_witness :
  Leads.handleRestoreLeads Sample.healthy
    (Sample.world Sample.exclusionDb Sample.page7)
  = Sample.world Sample.exclusionDb Sample.page7
  /\ Leads.handleRemoveLeads Sample.page7 = Sample.page7.
Proof.
  destruct (C4_guards Sample.healthy
              (Sample.world Sample.exclusionDb Sample.page7))
    as (Hrestore & _ & Hopen).
  split.
  - apply Hrestore. left. reflexivity.
  - apply Hopen. reflexivity.
Defined.

(** C4, refuted as stated: the confirm step of Exclude run with an empty
    selection and a non-null account id shows the success notice, and
    merges a ticked category into the exclusion set. *)
Lemma C4_exclude_empty_selection :
  let st := Leads.setSelectedCategories [Js.lit "plumber"] Sample.page7 in
  let w := Sample.world Sample.exclusionDb st in
  let w' := Leads.confirmExcludeLeads Sample.healthy w in
  Leads.selectedLeads st = []
  /\ Leads.userAccountId st = Some 7
  /\ Leads.successMessage (Leads.page w')
     = Js.lit "Successfully excluded 0 leads!"
  /\ map Db.serp_exc_cat (Db.user_accounts (Leads.db w))
     = [Some (Js.lit "roofer")]
  /\ map Db.serp_exc_cat (Db.user_accounts (Leads.db w'))
     = [Some (Js.lit "roofer,plumber")]
  /\ w' <> w.
Proof.
  vm_compute. repeat split. intros H. discriminate H.
Qed.

(** C6. Restore never touches [user_accounts], so the exclusion set stays
    as it was; every association is left as it was or, if it belongs to
    the account and its lead is selected, has [excluded] set to NULL. When
    the update goes through, exactly the account's selected associations
    are set to NULL, an association that was NULL already is unchanged,
    and the run ends with the success notice and no alert. *)
Theorem C6_restore_frame :
  forall be w,
    let w' := Leads.handleRestoreLeads be w in
    let selected := Leads.selectedLeads (Leads.page w) in
    Db.user_accounts (Leads.db w') = Db.user_accounts (Leads.db w)
    /\ Forall2
         (fun ul ul' =>
            ul' = ul
            \/ (ul' = Db.set_excluded None ul
                /\ Some (Db.ul_user_id ul) = Leads.account (Leads.page w)
                /\ In (Db.ul_lead_id ul) selected))
         (Db.user_leads (Leads.db w)) (Db.user_leads (Leads.db w'))
    /\ (forall uid,
           Db.getToken be = Db.TokenIssued ->
           Db.fault be Db.UpdateUserLeads = Db.Healthy ->
           Leads.account (Leads.page w) = Some uid ->
           selected <> [] ->
           Db.user_leads (Leads.db w')
           = map (fun ul =>
                    if (Db.ul_user_id ul =? uid)
                       && Js.includes selected (Db.ul_lead_id ul)
                    then Db.set_excluded None ul else ul)
                 (Db.user_leads (Leads.db w))
           /\ (forall ul,
                  In ul (Db.user_leads (Leads.db w)) ->
                  Db.ul_excluded ul = None ->
                  In ul (Db.user_leads (Leads.db w')))
           /\ Leads.successMessage (Leads.page w')
              = Leads.successNotice (Js.lit "restored")
                  (List.length selected)
           /\ Leads.alerts w' = Leads.alerts w).
Proof.
  intros be w w' selected. subst w' selected.
  assert (Hmap : forall uid,
             Leads.account (Leads.page w) = Some uid ->
             Forall2
               (fun ul ul' =>
                  ul' = ul
                  \/ (ul' = Db.set_excluded None ul
                      /\ Some (Db.ul_user_id ul) = Some uid
                      /\ In (Db.ul_lead_id ul)
                            (Leads.selectedLeads (Leads.page w))))
               (Db.user_leads (Leads.db w))
               (map (fun ul =>
                       if (Db.ul_user_id ul =? uid)
                          && Js.includes (Leads.selectedLeads (Leads.page w))
                                         (Db.ul_lead_id ul)
                       then Db.set_excluded None ul else ul)
                    (Db.user_leads (Leads.db w)))).
  { intros uid _. induction (Db.user_leads (Leads.db w)) as [|ul l IH];
      simpl; constructor; [|exact IH].
    destruct (Z.eqb_spec (Db.ul_user_id ul) uid) as [E|E]; simpl;
      [|now left].
    destruct (Js.includes _ _) eqn:Hin; [|now left].
    right. apply includes_In in Hin. subst. auto. }
  split; [|split].
  - destruct (restore_db be w) as [->|[uid [_ ->]]]; reflexivity.
  - destruct (restore_db be w) as [->|[uid [Hacc ->]]].
    + clear Hmap. generalize (Db.user_leads (Leads.db w)).
      intros l. induction l; constructor; [now left|assumption].
    + rewrite Hacc. exact (Hmap uid Hacc).
  - intros uid Htok Hf Hacc Hsel.
    destruct (restore_success be w uid Htok Hf Hacc Hsel)
      as (Hdb & Hmsg & _ & Halerts).
    rewrite Hdb. cbn [Db.update_excluded Db.with_user_leads Db.user_leads].
    repeat split; try assumption.
    intros ul Hin Hnull. apply in_map_iff. exists ul. split; [|exact Hin].
    destruct (_ && _); [now apply set_excluded_null|reflexivity].
Qed.

Lemma C6_restore_frame_witness :
  let w := Sample.world Sample.exclusionDb Sample.restorePage in
  let w' := Leads.handleRestoreLeads Sample.healthy w in
  map Db.ul_excluded (Db.user_leads (Leads.db w))
  = [None; None; Some 1690000000000; Some 1680000000000]
  /\ map Db.ul_excluded (Db.user_leads (Leads.db w'))
     = [None; None; None; Some 1680000000000]
  /\ Leads.successMessage (Leads.page w')
     = Js.lit "Successfully restored 2 leads!"
  /\ Leads.alerts w' = [].
Proof.
  intros w w'.
  destruct (C6_restore_frame Sample.healthy w) as (_ & _ & H).
  destruct (H 7) as (Hrows & _ & Hmsg & Halerts);
    [reflexivity|reflexivity|reflexivity|discriminate|].
  fold w' in Hrows, Hmsg, Halerts.
  rewrite Hrows, Hmsg, Halerts. vm_compute. repeat split.
Defined.

(** ** The autosave machine *)

Section Autosave.
Import Db Settings.

Lemma anyInvalid_false st :
  anyInvalid st = false
  <-> invalidCategoryItems st = [] /\ invalidExcludedCategoryItems st = []
      /\ invalidLocationCodes st = [].
Proof.
  unfold anyInvalid.
  destruct (invalidCategoryItems st), (invalidExcludedCategoryItems st),
    (invalidLocationCodes st); simpl; split; try discriminate;
    try tauto; intros (H1 & H2 & H3); discriminate.
Qed.

(** What the two guards of autosave test: the validation flag and the
    three lists. *)
Lemma suppressed_effect st :
  isValidatingCodes st = true \/ anyInvalid st = true ->
  autosaveEffect st = false.
Proof.
  unfold autosaveEffect. intros H.
  destruct (negb (isSignedIn st) || negb (serpDataLoaded st));
    [reflexivity|].
  destruct (isValidatingCodes st) eqn:Hv; [reflexivity|].
  destruct (anyInvalid st) eqn:Hi; [reflexivity|].
  destruct H as [H|H]; discriminate.
Qed.

Lemma suppressed_save be st w :
  isValidatingCodes st = true \/ anyInvalid st = true ->
  autoSaveSerpSettings be st w = w.
Proof.
  unfold autoSaveSerpSettings. intros H.
  destruct (signedInUser st); [|reflexivity].
  destruct (isValidatingCodes st) eqn:Hv; [reflexivity|].
  destruct (anyInvalid st) eqn:Hi; [reflexivity|].
  destruct H as [H|H]; discriminate.
Qed.

Lemma rearm_fresh m : timerFresh (rearm m).
Proof.
  unfold timerFresh, rearm. cbn [saveTimer page]. intros closure.
  destruct (autosaveEffect (page m)) eqn:E; [|discriminate].
  intros [= <-]. now split.
Qed.

Lemma step_fresh e m : timerFresh m -> timerFresh (step e m).
Proof.
  intros Hm. destruct e as [row|f v| |n be|be]; cbn [step].
  - apply rearm_fresh.
  - apply rearm_fresh.
  - destruct (validateTimer m); [|exact Hm].
    destruct (validateLocationCodes_start _ _). apply rearm_fresh.
  - destruct (nth_error (inFlight m) n); [|exact Hm]. apply rearm_fresh.
  - destruct (saveTimer m); [|exact Hm].
    destruct (autoSaveSerpSettings _ _ _). intros closure. discriminate.
Qed.

Lemma reachable_fresh start m :
  timerFresh start -> reachable start m -> timerFresh m.
Proof. intros H0. induction 1; [exact H0|now apply step_fresh]. Qed.

Lemma initial_fresh signedIn user db : timerFresh (initial signedIn user db).
Proof. intros closure. discriminate. Qed.

(** Only the autosave callback writes the store or sets [error] and
    [message]. *)
Lemma step_quiet e m :
  (forall be, e <> SaveTimerFires be) ->
  store (step e m) = store m
  /\ Settings.error (page (step e m)) = Settings.error (page m)
  /\ message (page (step e m)) = message (page m).
Proof.
  intros He. destruct e as [row|f v| |n be|be]; cbn [step].
  - unfold rearm, rearmValidation, locationEffect, on_page,
      excludedCategoryEffect, categoryEffect, loaded.
    repeat match goal with
           | |- context [match ?x with _ => _ end] =>
               lazymatch x with
               | context [match _ with _ => _ end] => fail
               | _ => destruct x
               end
           end; repeat split.
  - destruct f;
      unfold rearm, rearmValidation, locationEffect, on_page,
        excludedCategoryEffect, categoryEffect, setField;
      repeat match goal with
             | |- context [match ?x with _ => _ end] =>
                 lazymatch x with
                 | context [match _ with _ => _ end] => fail
                 | _ => destruct x
                 end
             end; repeat split.
  - destruct (validateTimer m); [|repeat split].
    unfold validateLocationCodes_start.
    destruct (negb _); repeat split.
  - destruct (nth_error (inFlight m) n); [|repeat split].
    unfold validateLocationCodes_finish, request.
    destruct (getToken be); cbn; repeat split;
      destruct (locationCodes s); cbn; repeat split;
      destruct (fault be SelectLocations); repeat split.
  - now contradiction (He be).
Qed.

Lemma validateCategoryField_empty value :
  Js.truthy value = false -> validateCategoryField value = [].
Proof. destruct value; [reflexivity|discriminate]. Qed.

Lemma categoryEffect_current st :
  invalidCategoryItems (categoryEffect st)
  = validateCategoryField (serpCategory (categoryEffect st)).
Proof.
  unfold categoryEffect.
  destruct (Js.truthy (serpCategory st)) eqn:E; simpl; [reflexivity|].
  now rewrite validateCategoryField_empty.
Qed.

Lemma excludedCategoryEffect_current st :
  invalidExcludedCategoryItems (excludedCategoryEffect st)
  = validateCategoryField (serpExcludedCategory (excludedCategoryEffect st)).
Proof.
  unfold excludedCategoryEffect.
  destruct (Js.truthy (serpExcludedCategory st)) eqn:E; simpl; [reflexivity|].
  now rewrite validateCategoryField_empty.
Qed.

(** The category effects run in the render of every change of their
    field, so the two lists never lag behind the text. *)
Lemma step_current e m : listsCurrent m -> listsCurrent (step e m).
Proof.
  unfold listsCurrent. intros [Hc Hx].
  destruct e as [row|f v| |n be|be]; cbn [step].
  - unfold rearm, rearmValidation, locationEffect. cbn [page].
    destruct (negb _ || negb _); cbn [page on_page];
      set (st := loaded row (page m));
      pose proof (categoryEffect_current st) as H1;
      pose proof (excludedCategoryEffect_current (categoryEffect st)) as H2;
      (split; [|exact H2]);
      unfold excludedCategoryEffect;
      destruct (negb (Js.truthy (serpExcludedCategory (categoryEffect st))));
      exact H1.
  - destruct f; unfold rearm, rearmValidation, locationEffect;
      cbn [page on_page setField].
    + split; [exact Hc|exact Hx].
    + split; [apply categoryEffect_current|].
      unfold categoryEffect.
      destruct (negb (Js.truthy (serpCategory (setSerpCategory v (page m)))));
        exact Hx.
    + split; [|apply excludedCategoryEffect_current].
      unfold excludedCategoryEffect.
      destruct (negb (Js.truthy (serpExcludedCategory
                                   (setSerpExcludedCategory v (page m)))));
        exact Hc.
    + destruct (negb _ || negb _); cbn [page]; split; assumption.
    + split; [exact Hc|exact Hx].
  - destruct (validateTimer m); [|now split].
    unfold validateLocationCodes_start.
    destruct (negb _); cbn [rearm page]; split; assumption.
  - destruct (nth_error (inFlight m) n); [|now split].
    cbn [rearm page]. unfold validateLocationCodes_finish, request.
    destruct (getToken be); [|split; assumption|split; assumption].
    destruct (locationCodes s); [split; assumption|].
    destruct (fault be SelectLocations); split; assumption.
  - destruct (saveTimer m); [|now split].
    destruct (autoSaveSerpSettings be s (store m, page m)) as [db' st'] eqn:E.
    cbn [page].
    assert (serpCategory st' = serpCategory (page m)
            /\ serpExcludedCategory st' = serpExcludedCategory (page m)
            /\ invalidCategoryItems st' = invalidCategoryItems (page m)
            /\ invalidExcludedCategoryItems st'
               = invalidExcludedCategoryItems (page m)) as (E1 & E2 & E3 & E4).
    { revert E. unfold autoSaveSerpSettings, autoSave_try.
      destruct (signedInUser s); [|intros [= _ <-]; repeat split].
      destruct (isValidatingCodes s); [intros [= _ <-]; repeat split|].
      destruct (anyInvalid s); [intros [= _ <-]; repeat split|].
      cbn [fst snd].
      destruct (getToken be); [|intros [= _ <-]; repeat split..].
      destruct (fault be UpdateSettings); intros [= _ <-]; repeat split. }
    rewrite E1, E2, E3, E4. now split.
Qed.

Lemma reachable_current signedIn user db m :
  reachable (initial signedIn user db) m -> listsCurrent m.
Proof.
  induction 1; [split; reflexivity|now apply step_current].
Qed.

End Autosave.

(** C7. Autosave is not suppressed in every state where a validation of
    location codes is in flight. The guards of the effect and of the
    callback test the flag [isValidatingCodes] and the three lists, and
    with the flag set or a list non-empty they arm no timer and write
    nothing. But the flag is one boolean for all lookups: when the codes
    are edited while a lookup is out, a second lookup starts, and the
    return of the first clears the flag. In the state reached then a
    lookup is still in flight, the autosave timer is armed, and its
    callback writes the codes that lookup is checking, with the notice of
    a successful save; the lookup comes back and flags one of them, which
    is not in the table of locations. *)
Theorem C7_autosave_during_validation :
  let overlap :=
    Settings.run
      [ Settings.Load Sample.storedRow;
        Settings.Edit Settings.Locations (Js.lit "200819");
        Settings.ValidateTimerFires;
        Settings.Edit Settings.Locations (Js.lit "200819,1");
        Settings.ValidateTimerFires;
        Settings.ValidationReturns 0 Sample.healthy ]
      Sample.firstRender in
  let saved :=
    Settings.step (Settings.SaveTimerFires Sample.healthy) overlap in
  let checked :=
    Settings.step (Settings.ValidationReturns 0 Sample.healthy) saved in
  Settings.reachable Sample.firstRender overlap
  /\ Spec.autosaveSuppressed overlap
  /\ map Settings.serpLocations (Settings.inFlight overlap)
     = [Js.lit "200819,1"]
  /\ Settings.isValidatingCodes (Settings.page overlap) = false
  /\ Settings.autosaveEffect (Settings.page overlap) = true
  /\ Settings.saveTimer overlap = Some (Settings.page overlap)
  /\ map Db.serp_locations (Db.user_accounts (Settings.store overlap))
     = [None]
  /\ map Db.serp_locations (Db.user_accounts (Settings.store saved))
     = [Some (Js.lit "200819,1")]
  /\ Settings.error (Settings.page saved) = []
  /\ Settings.message (Settings.page saved)
     = Js.lit "Settings saved automatically"
  /\ Settings.inFlight saved = Settings.inFlight overlap
  /\ Settings.invalidLocationCodes (Settings.page checked) = [Js.lit "1"]
  /\ Db.google_locations (Settings.store saved) = [200819]
  /\ (forall st,
         Settings.isValidatingCodes st = true \/ Settings.anyInvalid st = true ->
         Settings.autosaveEffect st = false
         /\ forall be w, Settings.autoSaveSerpSettings be st w = w).
Proof.
  intros overlap saved checked.
  split.
  { unfold overlap, Settings.run. cbn [fold_left].
    repeat apply Settings.reach_step. apply Settings.reach_start. }
  split; [left; vm_compute; discriminate|].
  repeat (split; [vm_compute; reflexivity|]).
  intros st H. split; [now apply suppressed_effect|].
  intros be w. now apply suppressed_save.
Qed.

(** The machine does save from a state that is not suppressed: after the
    load and an edit of the keywords, the timer is pending and its
    callback writes the normalised keywords. While a validation is
    flagged in flight no timer is pending. *)
Example autosave_runs :
  let edited :=
    Settings.run [Settings.Load Sample.storedRow;
                  Settings.Edit Settings.Keywords (Js.lit "roofing, gutters ")]
                 Sample.firstRender in
  let saved := Settings.step (Settings.SaveTimerFires Sample.healthy) edited in
  let validating :=
    Settings.run [Settings.Edit Settings.Locations (Js.lit "200819,5");
                  Settings.ValidateTimerFires] edited in
  Settings.saveTimer edited = Some (Settings.page edited)
  /\ map Db.serp_keywords (Db.user_accounts (Settings.store saved))
     = [Some (Js.lit "roofing,gutters")]
  /\ Settings.isValidatingCodes (Settings.page validating) = true
  /\ Settings.saveTimer validating = None
  /\ Settings.invalidLocationCodes
       (Settings.page
          (Settings.step (Settings.ValidationReturns 0 Sample.healthy)
             validating))
     = [Js.lit "5"].
Proof. vm_compute. repeat split. Qed.

(* ================================================================== *)
(** * Part III: further properties of the handlers                     *)
(* ================================================================== *)

(** ** Selecting rows *)

Section Selection.
Import Db Leads LeadsTable.

Lemma set_add_includes x s y :
  Js.includes (Js.set_add x s) y = Js.eqb x y || Js.includes s y.
Proof.
  destruct (Js.eqb x y || Js.includes s y) eqn:E.
  - apply includes_In. apply set_add_In.
    apply orb_true_iff in E as [E|E].
    + apply eqb_eq in E. now left.
    + right. now apply includes_In.
  - apply orb_false_iff in E as [E1 E2].
    apply includes_not_In. rewrite set_add_In.
    apply eqb_neq in E1. apply includes_not_In in E2.
    intros [H|H]; [congruence|contradiction].
Qed.

Lemma set_delete_In x s y : In y (Js.set_delete x s) <-> In y s /\ y <> x.
Proof.
  unfold Js.set_delete. rewrite filter_In, negb_true_iff, eqb_neq.
  intuition congruence.
Qed.

Lemma set_delete_includes x s y :
  Js.includes (Js.set_delete x s) y = negb (Js.eqb x y) && Js.includes s y.
Proof.
  destruct (negb (Js.eqb x y) && Js.includes s y) eqn:E.
  - apply andb_true_iff in E as [E1 E2].
    apply includes_In, set_delete_In. apply negb_true_iff, eqb_neq in E1.
    apply includes_In in E2. split; congruence.
  - apply includes_not_In. rewrite set_delete_In. intros [H1 H2].
    apply andb_false_iff in E as [E|E].
    + apply negb_false_iff, eqb_eq in E. congruence.
    + apply includes_not_In in E. contradiction.
Qed.

Lemma set_add_NoDup x s : NoDup s -> NoDup (Js.set_add x s).
Proof.
  intros H. unfold Js.set_add. destruct (Js.includes s x) eqn:E; [exact H|].
  apply includes_not_In in E.
  apply NoDup_app; [exact H|repeat constructor; intros []|].
  intros y Hy [<-|[]]. contradiction.
Qed.

Lemma set_delete_length x s :
  NoDup s -> In x s ->
  S (List.length (Js.set_delete x s)) = List.length s.
Proof.
  unfold Js.set_delete. induction s as [|y s IH]; intros Hnd Hin; [destruct Hin|].
  inversion Hnd as [|? ? Hy Hs]; subst. simpl.
  destruct (Js.eqb x y) eqn:E; simpl.
  - apply eqb_eq in E. subst y. f_equal.
    f_equal. apply filter_all. apply Forall_forall. intros z Hz.
    apply negb_true_iff, eqb_neq. intros ->. contradiction.
  - f_equal. apply IH; [exact Hs|].
    destruct Hin as [->|Hin]; [|exact Hin].
    rewrite eqb_refl in E. discriminate.
Qed.

(** The state of a [Set] after the toggle of one element. *)
Lemma toggle_set x s :
  NoDup s ->
  let s' := if Js.includes s x then Js.set_delete x s else Js.set_add x s in
  (forall y, Js.includes s' y
             = if Js.eqb x y then negb (Js.includes s x) else Js.includes s y)
  /\ NoDup s'
  /\ List.length s'
     = if Js.includes s x then pred (List.length s) else S (List.length s).
Proof.
  intros Hnd. cbv zeta. destruct (Js.includes s x) eqn:Hx.
  - split; [|split].
    + intros y. rewrite set_delete_includes.
      destruct (Js.eqb x y); reflexivity.
    + unfold Js.set_delete. now apply NoDup_filter.
    + apply includes_In in Hx.
      rewrite <- (set_delete_length x s Hnd Hx). reflexivity.
  - split; [|split].
    + intros y. rewrite set_add_includes.
      destruct (Js.eqb x y) eqn:E; [|reflexivity].
      reflexivity.
    + now apply set_add_NoDup.
    + unfold Js.set_add. rewrite Hx, length_app. simpl. lia.
Qed.

Lemma set_of_list_fixed l : NoDup l -> Js.set_of_list l = l.
Proof.
  unfold Js.set_of_list.
  assert (G : forall acc, NoDup (acc ++ l) ->
                fold_left (fun s x => Js.set_add x s) l acc = acc ++ l).
  { induction l as [|x l IH]; intros acc H; simpl.
    - now rewrite app_nil_r.
    - assert (Hx : Js.includes acc x = false).
      { apply includes_not_In. intros Hin.
        apply NoDup_remove_2 in H. apply H. apply in_or_app. now left. }
      unfold Js.set_add at 2. rewrite Hx.
      rewrite IH; rewrite <- app_assoc; simpl; [reflexivity|exact H]. }
  intros H. now rewrite (G [] H).
Qed.

Lemma set_of_list_NoDup l : NoDup (Js.set_of_list l).
Proof.
  unfold Js.set_of_list.
  assert (G : forall acc, NoDup acc ->
                NoDup (fold_left (fun s x => Js.set_add x s) l acc)).
  { induction l as [|x l IH]; intros acc H; simpl; [exact H|].
    apply IH. now apply set_add_NoDup. }
  apply G. constructor.
Qed.

End Selection.

(** X1. A click on a row's checkbox, or on a category's checkbox in the
    exclusion dialog, flips the membership of that one element and of no
    other, keeps the set free of duplicates, and moves its size by one. *)
Theorem X1_toggle_selection :
  forall (x : Js.str) (st : Leads.LeadsPage),
    NoDup (Leads.selectedLeads st) ->
    NoDup (Leads.selectedCategories st) ->
    let byLead := Leads.toggleLeadSelection x st in
    let byCategory := Leads.toggleCategorySelection x st in
    (forall y,
        Js.includes (Leads.selectedLeads byLead) y
        = if Js.eqb x y then negb (Js.includes (Leads.selectedLeads st) x)
          else Js.includes (Leads.selectedLeads st) y)
    /\ NoDup (Leads.selectedLeads byLead)
    /\ List.length (Leads.selectedLeads byLead)
       = (if Js.includes (Leads.selectedLeads st) x
          then pred (List.length (Leads.selectedLeads st))
          else S (List.length (Leads.selectedLeads st)))
    /\ Leads.selectedCategories byLead = Leads.selectedCategories st
    /\ (forall y,
           Js.includes (Leads.selectedCategories byCategory) y
           = if Js.eqb x y
             then negb (Js.includes (Leads.selectedCategories st) x)
             else Js.includes (Leads.selectedCategories st) y)
    /\ NoDup (Leads.selectedCategories byCategory)
    /\ Leads.selectedLeads byCategory = Leads.selectedLeads st.
Proof.
  intros x st Hl Hc byLead byCategory.
  destruct (toggle_set x _ Hl) as (L1 & L2 & L3).
  destruct (toggle_set x _ Hc) as (C1 & C2 & _).
  subst byLead byCategory.
  unfold Leads.toggleLeadSelection, Leads.toggleCategorySelection.
  destruct (Js.includes (Leads.selectedLeads st) x);
    destruct (Js.includes (Leads.selectedCategories st) x);
    cbn [Leads.selectedLeads Leads.selectedCategories
         Leads.setSelectedLeads Leads.setSelectedCategories];
    repeat split; assumption.
Qed.

Lemma X1_toggle_selection_witness :
  let st := Leads.setSelectedLeads [Sample.leadId 1; Sample.leadId 2]
              Sample.page7 in
  Leads.selectedLeads (Leads.toggleLeadSelection (Sample.leadId 1) st)
  = [Sample.leadId 2]
  /\ NoDup (Leads.selectedLeads
              (Leads.toggleLeadSelection (Sample.leadId 1) st))
  /\ List.length
       (Leads.selectedLeads (Leads.toggleLeadSelection (Sample.leadId 1) st))
     = 1%nat.
Proof.
  intros st.
  assert (Hl : NoDup (Leads.selectedLeads st))
    by (apply distinct_NoDup; reflexivity).
  assert (Hc : NoDup (Leads.selectedCategories st)) by constructor.
  destruct (X1_toggle_selection (Sample.leadId 1) st Hl Hc)
    as (_ & Hnd & Hlen & _).
  split; [reflexivity|]. split; [exact Hnd|]. rewrite Hlen. reflexivity.
Defined.

(** X2. "Select all" with a selection whose size differs from the number
    of rows selects every row on screen; when the rows have distinct,
    non-empty ids the header checkbox then shows as ticked on a non-empty
    page and a second click clears the selection. A selection that has as
    many elements as there are rows is cleared, whatever it holds. *)
Theorem X2_select_all :
  forall st,
    NoDup (map (fun r => Db.sl_id (Leads.lead r)) (Leads.leads st)) ->
    Forall (fun r => Db.sl_id (Leads.lead r) <> []) (Leads.leads st) ->
    let st1 := LeadsTable.toggleSelectAll st in
    (List.length (Leads.selectedLeads st) <> List.length (Leads.leads st) ->
     Leads.selectedLeads st1
     = map (fun r => Db.sl_id (Leads.lead r)) (Leads.leads st)
     /\ LeadsTable.headerChecked st1
        = (0 <? List.length (Leads.leads st))%nat
     /\ Leads.selectedLeads (LeadsTable.toggleSelectAll st1) = [])
    /\ (List.length (Leads.selectedLeads st) = List.length (Leads.leads st) ->
        Leads.selectedLeads st1 = []).
Proof.
  intros st Hnd Hne st1. subst st1. unfold LeadsTable.toggleSelectAll.
  destruct (Nat.eqb_spec (List.length (Leads.selectedLeads st))
              (List.length (Leads.leads st))) as [E|E].
  - split; [intros H; contradiction|reflexivity].
  - split; [|intros H; contradiction]. intros _.
    assert (Hids : LeadsTable.rowIds st
                   = map (fun r => Db.sl_id (Leads.lead r)) (Leads.leads st)).
    { unfold LeadsTable.rowIds. apply filter_all.
      apply Forall_forall. intros id Hid.
      apply in_map_iff in Hid as [r [<- Hr]].
      rewrite Forall_forall in Hne. specialize (Hne r Hr).
      destruct (Db.sl_id (Leads.lead r)); [contradiction|reflexivity]. }
    rewrite Hids, (set_of_list_fixed _ Hnd).
    cbn [Leads.selectedLeads Leads.setSelectedLeads].
    split; [reflexivity|].
    unfold LeadsTable.headerChecked.
    cbn [Leads.selectedLeads Leads.leads Leads.setSelectedLeads].
    rewrite length_map, Nat.eqb_refl. split; reflexivity.
Qed.

Lemma X2_select_all_witness :
  let st := Leads.loadLeads Sample.healthy Sample.exclusionDb Sample.page7 in
  let st1 := LeadsTable.toggleSelectAll st in
  Leads.selectedLeads st1 = [Sample.leadId 1; Sample.leadId 2]
  /\ LeadsTable.headerChecked st1 = true
  /\ Leads.selectedLeads (LeadsTable.toggleSelectAll st1) = [].
Proof.
  intros st st1.
  assert (Hnd : NoDup (map (fun r => Db.sl_id (Leads.lead r)) (Leads.leads st)))
    by (apply distinct_NoDup; vm_compute; reflexivity).
  assert (Hne : Forall (fun r => Db.sl_id (Leads.lead r) <> [])
                       (Leads.leads st))
    by (vm_compute; repeat constructor; discriminate).
  destruct (X2_select_all st Hnd Hne) as [H _].
  destruct H as (H1 & H2 & H3); [vm_compute; discriminate|].
  fold st1 in H1, H2, H3. rewrite H1, H2, H3. vm_compute. repeat split.
Defined.

(** ** The categories offered by the exclusion dialog *)

Section Offered.
Import Db Leads LeadsTable.

Lemma leb_total a b : Js.leb a b = false -> Js.leb b a = true.
Proof.
  revert b; induction a as [|x a IH]; intros [|y b]; simpl; try discriminate;
    try reflexivity.
  intros H. apply orb_false_iff in H as [H1 H2].
  apply N.ltb_ge in H1.
  destruct (N.eqb_spec x y) as [->|Hxy].
  - simpl in H2. rewrite N.eqb_refl, (IH b H2). apply orb_true_r.
  - assert (Hlt : (y <? x)%N = true) by (apply N.ltb_lt; lia).
    now rewrite Hlt.
Qed.

Lemma sort_insert_In x l y : In y (Js.sort_insert x l) <-> y = x \/ In y l.
Proof.
  induction l as [|z l IH]; simpl; [intuition congruence|].
  destruct (Js.leb x z); simpl; [intuition congruence|].
  rewrite IH. intuition congruence.
Qed.

Lemma sort_insert_perm x l : Permutation (x :: l) (Js.sort_insert x l).
Proof.
  induction l as [|z l IH]; simpl; [reflexivity|].
  destruct (Js.leb x z); [reflexivity|].
  rewrite perm_swap. now constructor.
Qed.

Lemma sort_perm l : Permutation l (Js.sort l).
Proof.
  induction l as [|x l IH]; simpl; [constructor|].
  rewrite <- sort_insert_perm. now constructor.
Qed.

Lemma sort_insert_ascending x l :
  ascending l -> ascending (Js.sort_insert x l).
Proof.
  induction l as [|z l IH]; intros H; [exact I|].
  cbn [Js.sort_insert]. destruct (Js.leb x z) eqn:E.
  - split; assumption.
  - apply leb_total in E.
    destruct l as [|u l].
    + simpl. split; [exact E|exact I].
    + destruct H as [Hzu Hl]. specialize (IH Hl).
      cbn [Js.sort_insert] in *. destruct (Js.leb x u).
      * split; [exact E|exact IH].
      * split; [exact Hzu|exact IH].
Qed.

Lemma sort_ascending l : ascending (Js.sort l).
Proof.
  induction l as [|x l IH]; [exact I|]. now apply sort_insert_ascending.
Qed.

(** Collecting values into a [Set] in a loop. *)
Lemma collect_spec {A : Type} (f : A -> Js.str) (l : list A) :
  forall acc,
    (NoDup acc ->
     NoDup (fold_left (fun acc x => Js.set_add (f x) acc) l acc))
    /\ forall c,
         In c (fold_left (fun acc x => Js.set_add (f x) acc) l acc)
         <-> In c acc \/ exists x, In x l /\ f x = c.
Proof.
  induction l as [|x l IH]; intros acc; simpl.
  - split; [auto|]. intros c. split; [now left|].
    intros [H|[x [[] _]]]. exact H.
  - destruct (IH (Js.set_add (f x) acc)) as [Hnd Hin]. split.
    + intros H. apply Hnd. now apply set_add_NoDup.
    + intros c. rewrite Hin, set_add_In. split.
      * intros [[->|H]|[y [Hy <-]]]; eauto.
      * intros [H|[y [[->|Hy] <-]]]; eauto.
Qed.



End Offered.

Section OfferedCategories.
Import Db Leads LeadsTable.

Lemma truthy_true (s : Js.str) : Js.truthy s = true <-> s <> [].
Proof.
  destruct s; simpl; split; intros H; try discriminate; try reflexivity.
  now contradiction H.
Qed.

Lemma collected_categories (l : list LeadRow) :
  forall acc,
    let collect :=
      fold_left
        (fun acc r =>
           match sl_categories (lead r) with
           | Some cats =>
               if Js.truthy cats then
                 fold_left (fun acc cat => Js.set_add (Js.trim cat) acc)
                           (filter (fun cat => Js.truthy (Js.trim cat))
                                   (Js.split Js.space cats))
                           acc
               else acc
           | None => acc
           end) l acc in
    (NoDup acc -> NoDup collect)
    /\ forall c, In c collect
                 <-> In c acc \/ exists r, In r l /\ offeredBy r c.
Proof.
  induction l as [|r l IH]; intros acc; cbv zeta; simpl.
  - split; [auto|]. intros c. split; [now left|].
    intros [H|[r [[] _]]]. exact H.
  - set (acc' := match sl_categories (lead r) with
                 | Some cats => _
                 | None => acc
                 end).
    assert (Hacc' : (NoDup acc -> NoDup acc')
                    /\ forall c, In c acc' <-> In c acc \/ offeredBy r c).
    { subst acc'. unfold offeredBy.
      destruct (sl_categories (lead r)) as [cats|].
      - destruct (Js.truthy cats) eqn:Ht.
        + destruct (collect_spec Js.trim
                      (filter (fun cat => Js.truthy (Js.trim cat))
                              (Js.split Js.space cats)) acc) as [Hnd Hin].
          split; [exact Hnd|]. intros c. rewrite Hin. split.
          * intros [H|[piece [Hp <-]]]; [now left|right].
            apply filter_In in Hp as [Hp Htp].
            exists cats, piece. repeat split; auto.
            now apply truthy_true.
          * intros [H|(cats' & piece & [= <-] & Hp & <- & Hne)];
              [now left|right].
            exists piece. split; [|reflexivity].
            apply filter_In. split; [exact Hp|now apply truthy_true].
        + split; [auto|]. intros c. split; [now left|].
          intros [H|(cats' & piece & [= <-] & Hp & <- & Hne)]; [exact H|].
          destruct cats; [|discriminate]. simpl in Hp.
          destruct Hp as [<-|[]]. now contradiction Hne.
      - split; [auto|]. intros c. split; [now left|].
        intros [H|(cats' & piece & [=] & _)]. exact H. }
    destruct Hacc' as [Hnd' Hin']. destruct (IH acc') as [Hnd Hin].
    split; [auto|]. intros c. rewrite Hin, Hin'. split.
    + intros [[H|H]|[r' [Hr' H]]]; eauto.
    + intros [H|[r' [[->|Hr'] H]]]; eauto.
Qed.

End OfferedCategories.

(** X3. Opening the exclusion dialog on a non-empty selection offers the
    categories of the selected rows on screen: the trimmed, non-empty
    pieces of their space-separated category fields, each once, in
    ascending code-unit order. The checkboxes start unticked, the custom
    field empty and without an error, and the selection is kept. *)
Theorem X3_offered_categories :
  forall st,
    Leads.selectedLeads st <> [] ->
    let st' := Leads.handleRemoveLeads st in
    Leads.excludeDialogOpen st' = true
    /\ Leads.selectedCategories st' = []
    /\ Leads.customCategory st' = []
    /\ Leads.customCategoryError st' = []
    /\ Leads.selectedLeads st' = Leads.selectedLeads st
    /\ LeadsTable.ascending (Leads.availableCategories st')
    /\ NoDup (Leads.availableCategories st')
    /\ forall c,
         In c (Leads.availableCategories st')
         <-> exists r,
               In r (Leads.leads st)
               /\ In (Db.sl_id (Leads.lead r)) (Leads.selectedLeads st)
               /\ LeadsTable.offeredBy r c.
Proof.
  intros st Hsel st'. subst st'. unfold Leads.handleRemoveLeads.
  destruct (Leads.selectedLeads st) as [|x sel] eqn:Es; [contradiction|].
  cbn [List.length Nat.eqb Leads.excludeDialogOpen Leads.selectedCategories
       Leads.customCategory Leads.customCategoryError Leads.selectedLeads
       Leads.availableCategories Leads.setExcludeDialogOpen
       Leads.setCustomCategoryError Leads.setCustomCategory
       Leads.setSelectedCategories Leads.setAvailableCategories].
  repeat (split; [reflexivity|]). split; [exact Es|].
  unfold Leads.extractCategories.
  match goal with
  | |- context [Js.sort ?l] => set (collected := l)
  end.
  destruct (collected_categories
              (filter (fun r => Js.includes (Leads.selectedLeads st)
                                            (Db.sl_id (Leads.lead r)))
                      (Leads.leads st)) []) as [Hnd Hin].
  cbv zeta in Hnd, Hin. fold collected in Hnd, Hin.
  split; [apply sort_ascending|]. split.
  - apply (Permutation_NoDup (sort_perm collected)). apply Hnd. constructor.
  - intros c. rewrite <- Es.
    rewrite <- (Permutation_in' (eq_refl c) (sort_perm collected)), Hin.
    split.
    + intros [[]|[r [Hr Hc]]]. apply filter_In in Hr as [Hr Hs].
      exists r. repeat split; auto. now apply includes_In.
    + intros [r (Hr & Hs & Hc)]. right. exists r. split; [|exact Hc].
      apply filter_In. split; [exact Hr|now apply includes_In].
Qed.

Lemma X3_offered_categories_witness :
  let st :=
    Leads.setSelectedLeads [Sample.leadId 1; Sample.leadId 2]
      Cases.allActive in
  Leads.availableCategories (Leads.handleRemoveLeads st)
  = [Js.lit "electrician"; Js.lit "plumber"; Js.lit "roofer"]
  /\ NoDup (Leads.availableCategories (Leads.handleRemoveLeads st))
  /\ LeadsTable.ascending
       (Leads.availableCategories (Leads.handleRemoveLeads st)).
Proof.
  intros st.
  assert (Hsel : Leads.selectedLeads st <> []) by discriminate.
  destruct (X3_offered_categories st Hsel)
    as (_ & _ & _ & _ & _ & Hasc & Hnd & _).
  split; [vm_compute; reflexivity|]. split; assumption.
Defined.

(** ** Merging into the exclusion set *)

Section Merge.
Import Db Leads.

Lemma or_else_some (s : Js.str) : Js.or_else (Some s) [] = s.
Proof. destruct s; reflexivity. Qed.

Lemma existingCategories_wellFormed stored :
  Forall LeadsTable.wellFormed (existingCategories stored).
Proof.
  unfold existingCategories. apply Forall_forall. intros c Hc.
  apply filter_In in Hc as [Hc Ht]. split.
  - pose proof (split_no_sep Js.comma (Js.or_else stored [])) as H.
    rewrite Forall_forall in H. now apply H.
  - now apply truthy_true.
Qed.

(** Reading back what a join of well-formed tokens stored. *)
Lemma existingCategories_join tokens :
  Forall LeadsTable.wellFormed tokens ->
  existingCategories (Some (Js.join [Js.comma] tokens)) = tokens.
Proof.
  intros H. unfold existingCategories. rewrite or_else_some.
  destruct tokens as [|t tokens]; [reflexivity|].
  rewrite split_join;
    [|discriminate|revert H; apply Forall_impl; unfold LeadsTable.wellFormed; tauto].
  apply filter_all. revert H. apply Forall_impl.
  intros c [_ Hc]. now apply truthy_true.
Qed.

Lemma merged_wellFormed stored toAdd :
  Forall LeadsTable.wellFormed toAdd ->
  Forall LeadsTable.wellFormed
    (existingCategories stored
     ++ filter (fun cat => negb (Js.includes (existingCategories stored) cat))
               toAdd).
Proof.
  intros H. apply Forall_app. split; [apply existingCategories_wellFormed|].
  apply Forall_forall. intros c Hc. apply filter_In in Hc as [Hc _].
  rewrite Forall_forall in H. now apply H.
Qed.

Lemma filter_none {A : Type} (q : A -> bool) l :
  (forall a, In a l -> q a = false) -> filter q l = [].
Proof.
  induction l as [|x l IH]; intros H; simpl; [reflexivity|].
  rewrite (H x (or_introl eq_refl)). apply IH. intros a Ha. apply H. now right.
Qed.

End Merge.

(** X4. Read back through the parser of the stored exclusion set, a merge
    of chosen categories (each free of commas and not blank) keeps the
    stored entries first and in order, holds exactly the stored and the
    chosen entries, has no duplicates when neither the stored set nor the
    choice had any, and is unchanged by merging the same choice again. *)
Theorem X4_merge_read_back :
  forall stored toAdd,
    Forall LeadsTable.wellFormed toAdd ->
    let before := Leads.existingCategories stored in
    let after :=
      Leads.existingCategories (Some (Leads.mergeCategories stored toAdd)) in
    firstn (List.length before) after = before
    /\ (forall c, In c after <-> In c before \/ In c toAdd)
    /\ (NoDup before -> NoDup toAdd -> NoDup after)
    /\ Leads.mergeCategories (Some (Leads.mergeCategories stored toAdd)) toAdd
       = Leads.mergeCategories stored toAdd.
Proof.
  intros stored toAdd Hwf before after. subst after before.
  rewrite (mergeCategories_order stored toAdd).
  rewrite (existingCategories_join _ (merged_wellFormed stored toAdd Hwf)).
  set (before := Leads.existingCategories stored).
  split; [|split; [|split]].
  - rewrite firstn_app, Nat.sub_diag, firstn_all. simpl. apply app_nil_r.
  - intros c. rewrite in_app_iff, filter_In, negb_true_iff, includes_not_In.
    split; [tauto|]. intros [H|H]; [now left|].
    destruct (in_dec (list_eq_dec N.eq_dec) c before); tauto.
  - intros Hb Ha. apply NoDup_app; [exact Hb|now apply NoDup_filter|].
    intros c Hc Hc'. apply filter_In in Hc' as [_ Hc'].
    apply negb_true_iff, includes_not_In in Hc'. contradiction.
  - subst before.
    rewrite (mergeCategories_order (Some _)).
    rewrite (existingCategories_join _ (merged_wellFormed stored toAdd Hwf)).
    set (before := Leads.existingCategories stored).
    rewrite (filter_none (fun cat => negb (Js.includes (before ++ _) cat)));
      [now rewrite app_nil_r|].
    intros c Hc. apply negb_false_iff, includes_In, in_app_iff.
    destruct (Js.includes before c) eqn:E; [left; now apply includes_In|].
    right. apply filter_In. split; [exact Hc|now rewrite E].
Qed.

Lemma X4_merge_read_back_witness :
  Leads.existingCategories
    (Some (Leads.mergeCategories (Some (Js.lit "roofer,plumber"))
             [Js.lit "plumber"; Js.lit "electrician"]))
  = [Js.lit "roofer"; Js.lit "plumber"; Js.lit "electrician"]
  /\ NoDup (Leads.existingCategories
              (Some (Leads.mergeCategories (Some (Js.lit "roofer,plumber"))
                       [Js.lit "plumber"; Js.lit "electrician"]))).
Proof.
  split; [reflexivity|].
  assert (Hwf : Forall LeadsTable.wellFormed
                  [Js.lit "plumber"; Js.lit "electrician"]).
  { repeat constructor; try discriminate;
      intros H; vm_compute in H; intuition discriminate. }
  destruct (X4_merge_read_back (Some (Js.lit "roofer,plumber")) _ Hwf)
    as (_ & _ & Hnd & _).
  apply Hnd; apply distinct_NoDup; reflexivity.
Defined.

(** ** Exclude: what it writes, and what the reload then shows *)

Section ExcludeFlow.
Import Db Leads.

Lemma order_desc_In {A : Type} (key : A -> Z) (l : list A) x :
  In x (order_desc key l) <-> In x l.
Proof.
  assert (Hins : forall y m, In x (insert_desc key y m) <-> x = y \/ In x m).
  { intros y m. induction m as [|z m IH]; simpl; [intuition congruence|].
    destruct (key z <=? key y); simpl; [intuition congruence|].
    rewrite IH. intuition congruence. }
  induction l as [|y l IH]; simpl; [tauto|].
  rewrite Hins, IH. intuition congruence.
Qed.

(** The rows of Step 1 are associations of the account on the asked side
    of the exclusion flag. *)
Lemma select_user_leads_In db uid excludedView ul :
  In ul (select_user_leads db uid excludedView)
  <-> In ul (user_leads db) /\ ul_user_id ul = uid
      /\ (if excludedView then ul_excluded ul <> None
          else ul_excluded ul = None).
Proof.
  unfold select_user_leads. destruct excludedView;
    rewrite order_desc_In, !filter_In, Z.eqb_eq;
    destruct (ul_excluded ul); simpl; intuition congruence.
Qed.

Lemma firstn_In {A : Type} n (l : list A) x : In x (firstn n l) -> In x l.
Proof.
  revert l; induction n as [|n IH]; intros [|y l]; simpl; try tauto.
  intros [H|H]; [now left|right; auto].
Qed.

Lemma skipn_In {A : Type} n (l : list A) x : In x (skipn n l) -> In x l.
Proof.
  revert l; induction n as [|n IH]; intros [|y l]; simpl; try tauto.
  intros H. right. auto.
Qed.

Lemma slice_In {A : Type} (l : list A) from to x :
  In x (Js.slice l from to) -> In x l.
Proof.
  unfold Js.slice. intros H. now apply firstn_In, skipn_In in H.
Qed.

(** Every row on screen after an answered load is a lead of the store
    whose id is the lead id of an association in the filtered list; its
    exclusion timestamp is the one of such an association, or null. *)
Lemma loadLeads_rows be db st uid :
  answers be -> account st = Some uid ->
  let F := filteredUserLeads db st uid in
  forall row,
    In row (leads (loadLeads be db st)) ->
    In (lead row) (serp_leads_v2 db)
    /\ exists ul, In ul F /\ ul_lead_id ul = sl_id (lead row)
                   /\ excluded row = ul_excluded ul.
Proof.
  intros Hbe Hacc F row Hrow.
  assert (Hl : leads (loadLeads be db st)
               = mergeLeads (paginate (currentPage st) (recordsPerPage st) F)
                   (select_leads_in db
                      (map ul_lead_id
                         (paginate (currentPage st) (recordsPerPage st) F)))).
  { destruct (select_user_leads db uid (showExcludedLeads st)) eqn:Eall.
    - destruct Hbe as [Htok Hf].
      rewrite (loadLeads_no_rows be db st uid Htok (Hf _) Hacc Eall).
      assert (EF : F = []).
      { subst F. unfold filteredUserLeads. rewrite Eall. reflexivity. }
      rewrite EF.
      assert (E : paginate (currentPage st) (recordsPerPage st) [] = []).
      { unfold paginate, Js.slice. rewrite skipn_nil. apply firstn_nil. }
      rewrite E. simpl. now rewrite select_leads_in_nil.
    - rewrite (loadLeads_answered be db st uid Hbe Hacc)
        by (rewrite Eall; discriminate).
      reflexivity. }
  rewrite Hl in Hrow. clear Hl.
  set (pg := paginate (currentPage st) (recordsPerPage st) F) in *.
  unfold mergeLeads in Hrow. apply in_map_iff in Hrow as [l [<- Hl]].
  unfold select_leads_in in Hl. apply filter_In in Hl as [Hl Hid].
  apply includes_In, in_map_iff in Hid as [ul [Hul Hpg]].
  cbn [lead excluded].
  split; [exact Hl|].
  unfold excludedMap_get.
  destruct (find _ (rev pg)) as [ul'|] eqn:Ef.
  - apply find_some in Ef as [Hin Hk].
    apply eqb_eq in Hk. exists ul'. repeat split; [|congruence].
    apply in_rev in Hin. now apply slice_In in Hin.
  - exfalso. apply in_rev in Hpg.
    pose proof (find_none _ _ Ef ul Hpg) as Hk. cbv beta in Hk.
    rewrite <- Hul, eqb_refl in Hk. discriminate.
Qed.

End ExcludeFlow.

Section Views.
Import Db Leads.

Lemma filteredUserLeads_In db st uid ul :
  In ul (filteredUserLeads db st uid) ->
  In ul (user_leads db) /\ ul_user_id ul = uid
  /\ (if showExcludedLeads st then ul_excluded ul <> None
      else ul_excluded ul = None)
  /\ keepUserLead st
       (if negb (showEmailedLeads st) && negb (showExcludedLeads st)
        then truthyIds (select_draft_lead_ids db uid) else [])
       (leadsWithEmailSet
          (select_leads_in db
             (map ul_lead_id
                (select_user_leads db uid (showExcludedLeads st)))))
       ul = true.
Proof.
  unfold filteredUserLeads, filterUserLeads. intros H.
  apply filter_In in H as [H Hk]. apply select_user_leads_In in H.
  tauto.
Qed.


End Views.

(** X5. After an answered load every row on screen is a lead of one of
    the account's associations and carries that association's exclusion
    timestamp: null on every row of the normal view, set on every row of
    the excluded view. *)
Theorem X5_views_do_not_mix :
  forall be db st uid,
    Db.answers be ->
    Leads.account st = Some uid ->
    forall row,
      In row (Leads.leads (Leads.loadLeads be db st)) ->
      (exists ul,
          In ul (Db.user_leads db) /\ Db.ul_user_id ul = uid
          /\ Db.ul_lead_id ul = Db.sl_id (Leads.lead row)
          /\ Leads.excluded row = Db.ul_excluded ul)
      /\ (Leads.showExcludedLeads st = false -> Leads.excluded row = None)
      /\ (Leads.showExcludedLeads st = true -> Leads.excluded row <> None).
Proof.
  intros be db st uid Hbe Hacc row Hrow.
  destruct (loadLeads_rows be db st uid Hbe Hacc row Hrow)
    as (_ & ul & Hul & Hid & Hex).
  apply filteredUserLeads_In in Hul as (Hin & Hu & Hside & _).
  split; [exists ul; tauto|].
  split; intros Hv; rewrite Hv in Hside; congruence.
Qed.

Lemma X5_views_do_not_mix_witness :
  Forall (fun row => Leads.excluded row = None)
         (Leads.leads (Leads.loadLeads Sample.healthy Cases.mixedDb
                         Sample.page7))
  /\ Forall (fun row => Leads.excluded row <> None)
            (Leads.leads
               (Leads.loadLeads Sample.healthy Cases.mixedDb
                  (Leads.setShowExcludedLeads true Sample.page7))).
Proof.
  assert (Hbe : Db.answers Sample.healthy)
    by (split; [reflexivity|intros r; reflexivity]).
  split; apply Forall_forall; intros row Hrow.
  - destruct (X5_views_do_not_mix Sample.healthy Cases.mixedDb Sample.page7 7
                Hbe eq_refl row Hrow) as (_ & Hn & _).
    now apply Hn.
  - destruct (X5_views_do_not_mix Sample.healthy Cases.mixedDb
                (Leads.setShowExcludedLeads true Sample.page7) 7
                Hbe eq_refl row Hrow) as (_ & _ & Hx).
    now apply Hx.
Defined.



Section ExcludeRuns.
Import Db Leads.

(** The dialog's page once the confirm handler has shown its notice and
    reset the dialog, before the reload. *)
Lemma confirm_answered be w uid :
  answers be -> account (page w) = Some uid ->
  Js.truthy (Js.trim (customCategory (page w)))
  && negb (Regex.test Regex.customCategoryPattern (customCategory (page w)))
  = false ->
  let sel := selectedLeads (page w) in
  let db1 := update_excluded uid sel (Some (now be)) (db w) in
  let db2 :=
    match categoriesToAdd (page w), select_account_single db1 uid with
    | _ :: _, Some userData =>
        update_serp_exc_cat uid
          (mergeCategories (serp_exc_cat userData) (categoriesToAdd (page w)))
          db1
    | _, _ => db1
    end in
  let st1 :=
    setCustomCategoryError []
      (setCustomCategory []
         (setSelectedCategories []
            (setExcludeDialogOpen false
               (setSelectedLeads []
                  (setSuccessMessage
                     (successNotice (Js.lit "excluded") (List.length sel))
                     (setIsLoading true (page w))))))) in
  db (confirmExcludeLeads be w) = db2
  /\ page (confirmExcludeLeads be w)
     = setIsLoading false (loadLeads be db2 st1)
  /\ alerts (confirmExcludeLeads be w) = alerts w
  /\ timers (confirmExcludeLeads be w) = timers w ++ [3000].
Proof.
  intros [Htok Hf] Hacc Hguard sel db1 db2 st1.
  unfold confirmExcludeLeads. rewrite Hacc, Hguard.
  unfold confirmExcludeLeads_try. rewrite Htok, Hf. cbv zeta.
  unfold updateExcludedCategories.
  change (categoriesToAdd
            (page (on_db (update_excluded uid
                            (selectedLeads (page (on_page (setIsLoading true) w)))
                            (Some (now be)))
                         (on_page (setIsLoading true) w))))
    with (categoriesToAdd (page w)).
  subst db2. destruct (categoriesToAdd (page w)) as [|c toAdd] eqn:Ecat.
  - repeat split.
  - rewrite !Hf.
    change (select_account_single
              (db (on_db (update_excluded uid
                            (selectedLeads
                               (page (on_page (setIsLoading true) w)))
                            (Some (now be)))
                         (on_page (setIsLoading true) w))) uid)
      with (select_account_single db1 uid).
    destruct (select_account_single db1 uid); repeat split.
Qed.

Lemma restore_answered be w uid :
  answers be -> account (page w) = Some uid -> selectedLeads (page w) <> [] ->
  let sel := selectedLeads (page w) in
  let db1 := update_excluded uid sel None (db w) in
  let st1 :=
    setSelectedLeads []
      (setSuccessMessage
         (successNotice (Js.lit "restored") (List.length sel))
         (setIsLoading true (page w))) in
  db (handleRestoreLeads be w) = db1
  /\ page (handleRestoreLeads be w)
     = setIsLoading false (loadLeads be db1 st1).
Proof.
  intros [Htok Hf] Hacc Hsel sel db1 st1. unfold handleRestoreLeads.
  subst sel db1 st1.
  destruct (selectedLeads (page w)) as [|x sel] eqn:Es; [contradiction|].
  cbn [List.length Nat.eqb]. rewrite Hacc.
  unfold handleRestoreLeads_try. rewrite Htok, Hf. cbv zeta.
  cbn [db page on_page on_db setTimeout].
  change (selectedLeads (setIsLoading true (page w)))
    with (selectedLeads (page w)).
  rewrite Es. split; reflexivity.
Qed.

(** What [loadLeads] leaves alone. *)
Lemma loadLeads_keeps be db st :
  userAccountId (loadLeads be db st) = userAccountId st
  /\ showExcludedLeads (loadLeads be db st) = showExcludedLeads st
  /\ selectedCategories (loadLeads be db st) = selectedCategories st
  /\ customCategory (loadLeads be db st) = customCategory st
  /\ customCategoryError (loadLeads be db st) = customCategoryError st.
Proof.
  unfold loadLeads, loadLeads_try, fetchEmailedLeadIds, request.
  repeat match goal with
         | |- context [match ?x with _ => _ end] =>
             lazymatch x with
             | context [match _ with _ => _ end] => fail
             | _ => destruct x
             end
         end; repeat split.
Qed.

(** The store after the confirm handler, whatever the backend does. *)
Lemma confirm_store be w :
  db (confirmExcludeLeads be w) = db w
  \/ exists uid,
       account (page w) = Some uid
       /\ let db1 := update_excluded uid (selectedLeads (page w))
                       (Some (now be)) (db w) in
          db (confirmExcludeLeads be w) = db1
          \/ (categoriesToAdd (page w) <> []
              /\ exists v, db (confirmExcludeLeads be w)
                           = update_serp_exc_cat uid v db1).
Proof.
  unfold confirmExcludeLeads.
  destruct (account (page w)) as [uid|] eqn:Hacc; [|now left].
  destruct (_ && _); [now left|].
  unfold confirmExcludeLeads_try.
  destruct (getToken be); try (now left).
  destruct (fault be UpdateUserLeads); try (now left).
  right. exists uid. split; [reflexivity|]. cbv zeta.
  unfold updateExcludedCategories.
  change (categoriesToAdd
            (page (on_db (update_excluded uid
                            (selectedLeads (page (on_page (setIsLoading true) w)))
                            (Some (now be)))
                         (on_page (setIsLoading true) w))))
    with (categoriesToAdd (page w)).
  destruct (categoriesToAdd (page w)) as [|c toAdd] eqn:Ecat; [now left|].
  destruct (fault be SelectAccount); try (now left).
  destruct (select_account_single _ uid); [|now left].
  destruct (fault be UpdateAccount); try (now left).
  right. split; [discriminate|]. eexists. reflexivity.
Qed.

Lemma update_excluded_rows uid sel v db0 :
  Forall2
    (fun ul ul' =>
       ul' = ul
       \/ (ul' = set_excluded v ul /\ ul_user_id ul = uid
           /\ In (ul_lead_id ul) sel))
    (user_leads db0) (user_leads (update_excluded uid sel v db0)).
Proof.
  cbn [update_excluded with_user_leads user_leads].
  induction (user_leads db0) as [|ul l IH]; simpl; constructor; [|exact IH].
  destruct (Z.eqb_spec (ul_user_id ul) uid) as [E|E]; simpl; [|now left].
  destruct (Js.includes sel (ul_lead_id ul)) eqn:Hin; [|now left].
  right. apply includes_In in Hin. auto.
Qed.

Lemma Forall2_same {A : Type} (R : A -> A -> Prop) l :
  (forall x, R x x) -> Forall2 R l l.
Proof. intros H. induction l; constructor; auto. Qed.

End ExcludeRuns.

(** X7. Excluding leads with no checkbox ticked and a blank custom field
    leaves [user_accounts], and with it the exclusion set, as it was,
    whatever the backend does. *)
Theorem X7_exclude_without_categories :
  forall be w,
    Leads.selectedCategories (Leads.page w) = [] ->
    Js.trim (Leads.customCategory (Leads.page w)) = [] ->
    Db.user_accounts (Leads.db (Leads.confirmExcludeLeads be w))
    = Db.user_accounts (Leads.db w).
Proof.
  intros be w Hticked Hblank.
  destruct (confirm_store be w) as [->|[uid [_ [->|[Hne _]]]]];
    try reflexivity.
  exfalso. apply Hne. unfold Leads.categoriesToAdd.
  now rewrite Hticked, Hblank.
Qed.

Lemma X7_exclude_without_categories_witness :
  Db.user_accounts
    (Leads.db (Leads.confirmExcludeLeads Sample.healthy
                 (Sample.world Sample.exclusionDb (Sample.dialog [] []))))
  = [Sample.account7 (Some (Js.lit "roofer"))].
Proof.
  rewrite (X7_exclude_without_categories Sample.healthy
             (Sample.world Sample.exclusionDb (Sample.dialog [] []))
             eq_refl eq_refl).
  reflexivity.
Defined.

(** X8. Whatever the backend does, the confirm handler leaves the lead
    catalogue and the drafts alone, leaves every account row with another
    id as it was, and leaves every association as it was or, if it is the
    account's and its lead is selected, stamps it with the time of the
    click. *)
Theorem X8_exclude_frame :
  forall be w,
    let w' := Leads.confirmExcludeLeads be w in
    Db.serp_leads_v2 (Leads.db w') = Db.serp_leads_v2 (Leads.db w)
    /\ Db.email_drafts (Leads.db w') = Db.email_drafts (Leads.db w)
    /\ Forall2
         (fun a a' =>
            a' = a
            \/ (Some (Db.ua_id a) = Leads.account (Leads.page w)
                /\ exists v, a' = Db.set_serp_exc_cat (Some v) a))
         (Db.user_accounts (Leads.db w)) (Db.user_accounts (Leads.db w'))
    /\ Forall2
         (fun ul ul' =>
            ul' = ul
            \/ (ul' = Db.set_excluded (Some (Db.now be)) ul
                /\ Some (Db.ul_user_id ul) = Leads.account (Leads.page w)
                /\ In (Db.ul_lead_id ul) (Leads.selectedLeads (Leads.page w))))
         (Db.user_leads (Leads.db w)) (Db.user_leads (Leads.db w')).
Proof.
  intros be w w'. subst w'.
  destruct (confirm_store be w) as [->|[uid [Hacc H]]].
  - repeat split; apply Forall2_same; now left.
  - cbv zeta in H. rewrite Hacc.
    assert (Hrows : Forall2
              (fun ul ul' =>
                 ul' = ul
                 \/ (ul' = Db.set_excluded (Some (Db.now be)) ul
                     /\ Some (Db.ul_user_id ul) = Some uid
                     /\ In (Db.ul_lead_id ul)
                           (Leads.selectedLeads (Leads.page w))))
              (Db.user_leads (Leads.db w))
              (Db.user_leads
                 (Db.update_excluded uid (Leads.selectedLeads (Leads.page w))
                    (Some (Db.now be)) (Leads.db w)))).
    { eapply Forall2_impl; [|apply update_excluded_rows].
      intros a b [Hab|(Hab & Hu & Hin)]; [now left|right].
      repeat split; congruence. }
    destruct H as [->|[_ [v ->]]].
    + repeat split; [apply Forall2_same; now left|exact Hrows].
    + repeat split; [|exact Hrows].
      cbn [Db.update_serp_exc_cat Db.with_user_accounts Db.user_accounts
           Db.update_excluded Db.with_user_leads].
      induction (Db.user_accounts (Leads.db w)) as [|a l IH]; simpl;
        constructor; [|exact IH].
      destruct (Z.eqb_spec (Db.ua_id a) uid) as [E|E]; [|now left].
      right. split; [congruence|]. now exists v.
Qed.

Section Reloads.
Import Db Leads.

Lemma update_serp_exc_cat_user_leads uid v db0 :
  user_leads (update_serp_exc_cat uid v db0) = user_leads db0.
Proof. reflexivity. Qed.

(** A row of the updated table that belongs to the account and to a
    selected lead carries the written value. *)
Lemma update_excluded_written uid sel v db0 ul :
  In ul (user_leads (update_excluded uid sel v db0)) ->
  ul_user_id ul = uid -> In (ul_lead_id ul) sel ->
  ul_excluded ul = v.
Proof.
  cbn [update_excluded with_user_leads user_leads]. intros Hin Hu Hs.
  apply in_map_iff in Hin as [ul0 [E _]].
  destruct (Z.eqb_spec (ul_user_id ul0) uid) as [E1|E1]; simpl in E.
  - destruct (Js.includes sel (ul_lead_id ul0)) eqn:E2.
    + subst ul. reflexivity.
    + subst ul. apply includes_not_In in E2. contradiction.
  - subst ul. contradiction.
Qed.

End Reloads.

(** X9. After an answered Exclude from the normal view, none of the
    excluded leads is on screen any more; the selection is empty, the
    dialog is closed and reset, and the notice counts the excluded
    leads. *)
Theorem X9_excluded_leads_leave_the_view :
  forall be w uid,
    Db.answers be ->
    Leads.account (Leads.page w) = Some uid ->
    Leads.showExcludedLeads (Leads.page w) = false ->
    Leads.customCategoryError
      (Leads.validateCustomCategory (Leads.customCategory (Leads.page w))
         (Leads.page w)) = [] ->
    let w' := Leads.confirmExcludeLeads be w in
    (forall row,
        In row (Leads.leads (Leads.page w')) ->
        ~ In (Db.sl_id (Leads.lead row)) (Leads.selectedLeads (Leads.page w)))
    /\ Leads.selectedLeads (Leads.page w') = []
    /\ Leads.excludeDialogOpen (Leads.page w') = false
    /\ Leads.selectedCategories (Leads.page w') = []
    /\ Leads.customCategory (Leads.page w') = []
    /\ Leads.successMessage (Leads.page w')
       = Leads.successNotice (Js.lit "excluded")
           (List.length (Leads.selectedLeads (Leads.page w)))
    /\ Leads.alerts w' = Leads.alerts w.
Proof.
  intros be w uid Hbe Hacc Hview Hvalid w'. subst w'.
  assert (Hguard :
            Js.truthy (Js.trim (Leads.customCategory (Leads.page w)))
            && negb (Regex.test Regex.customCategoryPattern
                       (Leads.customCategory (Leads.page w))) = false).
  { rewrite validateCustomCategory_error in Hvalid.
    destruct (Js.truthy (Js.trim (Leads.customCategory (Leads.page w))));
      destruct (Regex.test Regex.customCategoryPattern
                  (Leads.customCategory (Leads.page w)));
      try reflexivity. simpl in Hvalid.
    now apply customCategoryMessage_nonempty in Hvalid. }
  destruct (confirm_answered be w uid Hbe Hacc Hguard) as (Hdb & Hpage & Hal & _).
  cbv zeta in Hdb, Hpage. rewrite Hpage, Hal.
  match goal with
  | |- context [Leads.loadLeads be ?d ?s] =>
      set (db2 := d) in *; set (st1 := s) in *
  end.
  destruct (loadLeads_frame be db2 st1) as (Hmsg & Hsel & Hdlg).
  destruct (loadLeads_keeps be db2 st1) as (_ & _ & Hcats & Hcust & _).
  cbn [Leads.leads Leads.selectedLeads Leads.excludeDialogOpen
       Leads.selectedCategories Leads.customCategory Leads.successMessage
       Leads.setIsLoading].
  rewrite Hmsg, Hsel, Hdlg, Hcats, Hcust.
  split; [|repeat split].
  intros row Hrow Hin.
  destruct (loadLeads_rows be db2 st1 uid Hbe Hacc row Hrow)
    as (_ & ul & Hul & Hid & _).
  apply filteredUserLeads_In in Hul as (Hul & Hu & Hside & _).
  change (Leads.showExcludedLeads st1)
    with (Leads.showExcludedLeads (Leads.page w)) in Hside.
  rewrite Hview in Hside.
  assert (Hrows : Db.user_leads db2
                  = Db.user_leads
                      (Db.update_excluded uid
                         (Leads.selectedLeads (Leads.page w))
                         (Some (Db.now be)) (Leads.db w))).
  { subst db2. destruct (Leads.categoriesToAdd (Leads.page w));
      [reflexivity|]. destruct (Db.select_account_single _ uid); reflexivity. }
  rewrite Hrows in Hul. rewrite <- Hid in Hin.
  rewrite (update_excluded_written _ _ _ _ _ Hul Hu Hin) in Hside.
  discriminate.
Qed.

Lemma X9_excluded_leads_leave_the_view_witness :
  let w' :=
    Leads.confirmExcludeLeads Sample.healthy
      (Sample.world Sample.exclusionDb
         (Sample.dialog [Js.lit "plumber"] [])) in
  Leads.selectedLeads (Leads.page w') = []
  /\ Leads.excludeDialogOpen (Leads.page w') = false
  /\ Forall (fun row =>
               ~ In (Db.sl_id (Leads.lead row))
                    [Sample.leadId 1; Sample.leadId 2])
            (Leads.leads (Leads.page w')).
Proof.
  intros w'.
  assert (Hbe : Db.answers Sample.healthy)
    by (split; [reflexivity|intros r; reflexivity]).
  destruct (X9_excluded_leads_leave_the_view Sample.healthy
              (Sample.world Sample.exclusionDb
                 (Sample.dialog [Js.lit "plumber"] []))
              7 Hbe eq_refl eq_refl eq_refl)
    as (Hrows & Hsel & Hopen & _).
  fold w' in Hrows, Hsel, Hopen.
  split; [exact Hsel|]. split; [exact Hopen|].
  apply Forall_forall. intros row Hrow. exact (Hrows row Hrow).
Defined.

(** X10. After an answered Restore from the excluded view, none of the
    restored leads is on screen any more. *)
Theorem X10_restored_leads_leave_the_view :
  forall be w uid,
    Db.answers be ->
    Leads.account (Leads.page w) = Some uid ->
    Leads.showExcludedLeads (Leads.page w) = true ->
    Leads.selectedLeads (Leads.page w) <> [] ->
    let w' := Leads.handleRestoreLeads be w in
    forall row,
      In row (Leads.leads (Leads.page w')) ->
      ~ In (Db.sl_id (Leads.lead row)) (Leads.selectedLeads (Leads.page w)).
Proof.
  intros be w uid Hbe Hacc Hview Hsel w' row Hrow Hin. subst w'.
  destruct (restore_answered be w uid Hbe Hacc Hsel) as (_ & Hpage).
  cbv zeta in Hpage. rewrite Hpage in Hrow.
  cbn [Leads.leads Leads.setIsLoading] in Hrow.
  match type of Hrow with
  | context [Leads.loadLeads be ?d ?s] =>
      set (db1 := d) in *; set (st1 := s) in *
  end.
  destruct (loadLeads_rows be db1 st1 uid Hbe Hacc row Hrow)
    as (_ & ul & Hul & Hid & _).
  apply filteredUserLeads_In in Hul as (Hul & Hu & Hside & _).
  change (Leads.showExcludedLeads st1)
    with (Leads.showExcludedLeads (Leads.page w)) in Hside.
  rewrite Hview in Hside. rewrite <- Hid in Hin.
  apply Hside. subst db1.
  exact (update_excluded_written _ _ _ _ _ Hul Hu Hin).
Qed.

Lemma X10_restored_leads_leave_the_view_witness :
  Forall (fun row =>
            ~ In (Db.sl_id (Leads.lead row))
                 [Sample.leadId 1; Sample.leadId 3])
         (Leads.leads
            (Leads.page
               (Leads.handleRestoreLeads Sample.healthy
                  (Sample.world Sample.exclusionDb Sample.restorePage)))).
Proof.
  assert (Hbe : Db.answers Sample.healthy)
    by (split; [reflexivity|intros r; reflexivity]).
  assert (Hsel : Leads.selectedLeads
                   (Leads.page
                      (Sample.world Sample.exclusionDb Sample.restorePage))
                 <> []) by discriminate.
  apply Forall_forall. intros row Hrow.
  exact (X10_restored_leads_leave_the_view Sample.healthy
           (Sample.world Sample.exclusionDb Sample.restorePage) 7
           Hbe eq_refl eq_refl Hsel row Hrow).
Defined.

Section RoundTrip.
Import Db Leads.

Lemma account_userAccountId st st' :
  userAccountId st' = userAccountId st -> account st' = account st.
Proof. unfold account. now intros ->. Qed.

Lemma exclude_then_restore_rows uid sel t rows :
  (forall ul, In ul rows -> ul_user_id ul = uid -> In (ul_lead_id ul) sel ->
              ul_excluded ul = None) ->
  map (fun ul =>
         if (ul_user_id ul =? uid) && Js.includes sel (ul_lead_id ul)
         then set_excluded None ul else ul)
      (map (fun ul =>
              if (ul_user_id ul =? uid) && Js.includes sel (ul_lead_id ul)
              then set_excluded (Some t) ul else ul)
           rows)
  = rows.
Proof.
  induction rows as [|ul rows IH]; intros H; simpl; [reflexivity|].
  rewrite IH by (intros u Hu; apply H; now right). f_equal.
  destruct ((ul_user_id ul =? uid) && Js.includes sel (ul_lead_id ul)) eqn:E.
  - cbn [ul_user_id ul_lead_id set_excluded]. rewrite E.
    apply andb_true_iff in E as [E1 E2].
    apply Z.eqb_eq in E1. apply includes_In in E2.
    specialize (H ul (or_introl eq_refl) E1 E2).
    destruct ul; simpl in *. now subst.
  - now rewrite E.
Qed.

End RoundTrip.

(** X11. Exclude followed by Restore of the same leads puts the
    association table back as it was, provided the leads were active
    before (as the rows of the normal view are) and both runs are
    answered; the exclusion set keeps what the Exclude merged into it. *)
Theorem X11_exclude_then_restore :
  forall be w uid,
    Db.answers be ->
    Leads.account (Leads.page w) = Some uid ->
    Leads.customCategoryError
      (Leads.validateCustomCategory (Leads.customCategory (Leads.page w))
         (Leads.page w)) = [] ->
    Leads.selectedLeads (Leads.page w) <> [] ->
    (forall ul,
        In ul (Db.user_leads (Leads.db w)) ->
        Db.ul_user_id ul = uid ->
        In (Db.ul_lead_id ul) (Leads.selectedLeads (Leads.page w)) ->
        Db.ul_excluded ul = None) ->
    let excluded := Leads.confirmExcludeLeads be w in
    let reselected :=
      Leads.on_page
        (fun st =>
           Leads.setSelectedLeads (Leads.selectedLeads (Leads.page w))
             (Leads.setShowExcludedLeads true st))
        excluded in
    let restored := Leads.handleRestoreLeads be reselected in
    Db.user_leads (Leads.db restored) = Db.user_leads (Leads.db w)
    /\ Db.user_accounts (Leads.db restored)
       = Db.user_accounts (Leads.db excluded).
Proof.
  intros be w uid Hbe Hacc Hvalid Hsel Active excluded reselected restored.
  assert (Hguard :
            Js.truthy (Js.trim (Leads.customCategory (Leads.page w)))
            && negb (Regex.test Regex.customCategoryPattern
                       (Leads.customCategory (Leads.page w))) = false).
  { rewrite validateCustomCategory_error in Hvalid.
    destruct (Js.truthy (Js.trim (Leads.customCategory (Leads.page w))));
      destruct (Regex.test Regex.customCategoryPattern
                  (Leads.customCategory (Leads.page w)));
      try reflexivity. simpl in Hvalid.
    now apply customCategoryMessage_nonempty in Hvalid. }
  destruct (confirm_answered be w uid Hbe Hacc Hguard) as (Hdb & Hpage & _).
  cbv zeta in Hdb, Hpage. fold excluded in Hdb, Hpage.
  assert (Hacc' : Leads.account (Leads.page reselected) = Some uid).
  { rewrite <- Hacc. apply account_userAccountId.
    subst reselected. cbn [Leads.page Leads.on_page Leads.userAccountId
      Leads.setSelectedLeads Leads.setShowExcludedLeads].
    rewrite Hpage. cbn [Leads.userAccountId Leads.setIsLoading].
    now rewrite (proj1 (loadLeads_keeps _ _ _)). }
  assert (Hsel' : Leads.selectedLeads (Leads.page reselected)
                  = Leads.selectedLeads (Leads.page w)) by reflexivity.
  destruct (restore_answered be reselected uid Hbe Hacc')
    as (Hdb' & _); [rewrite Hsel'; exact Hsel|].
  cbv zeta in Hdb'. fold restored in Hdb'. rewrite Hdb', Hsel'.
  change (Leads.db reselected) with (Leads.db excluded).
  cbn [Db.update_excluded Db.with_user_leads Db.user_leads Db.user_accounts].
  split; [|reflexivity].
  assert (Hrows : Db.user_leads (Leads.db excluded)
                  = Db.user_leads
                      (Db.update_excluded uid
                         (Leads.selectedLeads (Leads.page w))
                         (Some (Db.now be)) (Leads.db w))).
  { rewrite Hdb. destruct (Leads.categoriesToAdd (Leads.page w));
      [reflexivity|]. destruct (Db.select_account_single _ uid); reflexivity. }
  rewrite Hrows.
  cbn [Db.update_excluded Db.with_user_leads Db.user_leads].
  now apply exclude_then_restore_rows.
Qed.

Lemma X11_exclude_then_restore_witness :
  let w :=
    Sample.world Sample.exclusionDb (Sample.dialog [Js.lit "plumber"] []) in
  let excluded := Leads.confirmExcludeLeads Sample.healthy w in
  let reselected :=
    Leads.on_page
      (fun st =>
         Leads.setSelectedLeads [Sample.leadId 1; Sample.leadId 2]
           (Leads.setShowExcludedLeads true st))
      excluded in
  Db.user_leads (Leads.db (Leads.handleRestoreLeads Sample.healthy reselected))
  = Db.user_leads Sample.exclusionDb
  /\ map Db.ul_excluded (Db.user_leads (Leads.db excluded))
     = [Some 1700000000000; Some 1700000000000; Some 1690000000000;
        Some 1680000000000].
Proof.
  intros w excluded reselected.
  assert (Hbe : Db.answers Sample.healthy)
    by (split; [reflexivity|intros r; reflexivity]).
  assert (Hsel : Leads.selectedLeads (Leads.page w) <> []) by discriminate.
  assert (Hactive :
            forall ul,
              In ul (Db.user_leads (Leads.db w)) ->
              Db.ul_user_id ul = 7 ->
              In (Db.ul_lead_id ul) (Leads.selectedLeads (Leads.page w)) ->
              Db.ul_excluded ul = None).
  { intros ul Hin Hu Hl.
    destruct Hin as [<-|[<-|[<-|[<-|[]]]]]; try reflexivity;
      try discriminate Hu.
    apply includes_In in Hl. vm_compute in Hl. discriminate Hl. }
  destruct (X11_exclude_then_restore Sample.healthy w 7 Hbe eq_refl eq_refl
              Hsel Hactive) as [Hleads _].
  split; [exact Hleads|vm_compute; reflexivity].
Defined.

(** ** Validation of the settings fields *)

Section FieldValidation.
Import Db Settings SearchStart.

Lemma letter_or_underscore_spec c :
  Regex.letter_or_underscore c = true <-> isWordChar c.
Proof.
  unfold Regex.letter_or_underscore, isWordChar.
  rewrite !orb_true_iff, !andb_true_iff, !N.leb_le, N.eqb_eq. tauto.
Qed.

(** No code unit from [0] to [z] is white space. *)
Lemma ascii_ink c : (48 <= c <= 122)%N -> Js.isWhiteSpace c = false.
Proof.
  intros H. unfold Js.isWhiteSpace.
  assert (H1 : (c <=? 13)%N = false) by (apply N.leb_gt; lia).
  assert (H2 : (8192 <=? c)%N = false) by (apply N.leb_gt; lia).
  rewrite H1, H2.
  repeat match goal with
         | |- context [(c =? ?k)%N] =>
             replace (c =? k)%N with false
               by (symmetry; apply N.eqb_neq; lia)
         end.
  now rewrite andb_false_r.
Qed.

Lemma wordChar_not_whitespace c : isWordChar c -> Js.isWhiteSpace c = false.
Proof. intros H. apply ascii_ink. unfold isWordChar in H. lia. Qed.

Lemma digit_not_whitespace c : isDigit c -> Js.isWhiteSpace c = false.
Proof. intros H. apply ascii_ink. unfold isDigit in H. lia. Qed.

Lemma categoryItemPattern_spec item :
  Regex.test Regex.categoryItemPattern item = true
  <-> item <> [] /\ Forall isWordChar item.
Proof.
  rewrite test_matches. unfold Regex.categoryItemPattern.
  rewrite plus_class_group. unfold Regex.group.
  rewrite !Forall_forall. split; intros [Hne H]; (split; [exact Hne|]);
    intros c Hc; apply letter_or_underscore_spec; auto.
Qed.

Lemma dropWhile_nil_all p l :
  Js.dropWhile p l = [] -> Forall (fun c => p c = true) l.
Proof.
  induction l as [|c l IH]; simpl; [constructor|].
  destruct (p c) eqn:E; [|discriminate]. intros H. constructor; auto.
Qed.

(** A string that trims to nothing is all white space. *)
Lemma trim_nil_blank s :
  Js.trim s = [] -> Forall (fun c => Js.isWhiteSpace c = true) s.
Proof.
  unfold Js.trim, Js.trimEnd, Js.trimStart. intros H.
  assert (H1 : Js.dropWhile Js.isWhiteSpace
                 (rev (Js.dropWhile Js.isWhiteSpace s)) = []).
  { apply (f_equal (@rev _)) in H. now rewrite rev_involutive in H. }
  apply dropWhile_nil_all in H1. apply Forall_rev in H1.
  rewrite rev_involutive in H1.
  destruct (dropWhile_head Js.isWhiteSpace s) as [E|[c [l' [E Hc]]]].
  - now apply dropWhile_nil_all.
  - rewrite E in H1. inversion H1; subst. congruence.
Qed.

Lemma items_blank value : Js.trim value = [] -> items value = [].
Proof.
  intros H. unfold items.
  assert (Hc : ~ In Js.comma value).
  { intros Hin. apply trim_nil_blank in H. rewrite Forall_forall in H.
    specialize (H _ Hin). discriminate. }
  rewrite (split_token Js.comma value Hc). simpl. now rewrite H.
Qed.

Lemma validateCategoryField_filter value :
  validateCategoryField value
  = filter (fun item => negb (Regex.test Regex.categoryItemPattern item))
           (items value).
Proof.
  unfold validateCategoryField.
  destruct (Js.truthy (Js.trim value)) eqn:E; [reflexivity|].
  apply truthy_false in E. now rewrite (items_blank value E).
Qed.

Lemma items_nonempty value : Forall (fun item => item <> []) (items value).
Proof.
  apply Forall_forall. intros item H. apply filter_In in H as [_ H].
  now apply nonEmpty_true.
Qed.

Lemma forallb_wordChar item :
  forallb Regex.letter_or_underscore item = true <-> Forall isWordChar item.
Proof.
  rewrite forallb_forall, Forall_forall.
  split; intros H c Hc; apply letter_or_underscore_spec; auto.
Qed.

Lemma validateCategoryField_words value :
  validateCategoryField value
  = filter (fun item => negb (forallb Regex.letter_or_underscore item))
           (items value).
Proof.
  rewrite validateCategoryField_filter. apply filter_ext_in.
  intros item Hin. f_equal.
  pose proof (items_nonempty value) as Hne. rewrite Forall_forall in Hne.
  specialize (Hne item Hin).
  destruct (forallb Regex.letter_or_underscore item) eqn:E.
  - apply categoryItemPattern_spec. split; [exact Hne|].
    now apply forallb_wordChar.
  - destruct (Regex.test Regex.categoryItemPattern item) eqn:T;
      [|reflexivity].
    apply categoryItemPattern_spec in T as [_ T].
    apply forallb_wordChar in T. congruence.
Qed.

Lemma validateCategoryField_reports value item :
  In item (validateCategoryField value)
  <-> In item (items value) /\ ~ Forall isWordChar item.
Proof.
  rewrite validateCategoryField_words, filter_In, negb_true_iff,
    <- forallb_wordChar.
  destruct (forallb Regex.letter_or_underscore item); intuition congruence.
Qed.

Lemma validateCategoryField_accepts value :
  validateCategoryField value = []
  <-> Forall (fun item => Forall isWordChar item) (items value).
Proof.
  split.
  - intros H. apply Forall_forall. intros item Hin.
    destruct (forallb Regex.letter_or_underscore item) eqn:E;
      [now apply forallb_wordChar|].
    assert (Hi : In item (validateCategoryField value)).
    { apply validateCategoryField_reports. split; [exact Hin|].
      intros Hw. apply forallb_wordChar in Hw. congruence. }
    rewrite H in Hi. destruct Hi.
  - intros H. rewrite validateCategoryField_words. apply filter_none.
    intros item Hin. rewrite Forall_forall in H.
    apply negb_false_iff, forallb_wordChar. auto.
Qed.

End FieldValidation.

(** X12. The items the category validator reports are exactly the
    trimmed, non-empty pieces of the field that are not made of letters
    and underscores only, in the order typed; the field is accepted
    exactly when every piece is such a word. *)
Theorem X12_category_field_validation :
  forall value,
    Settings.validateCategoryField value
    = filter (fun item =>
                negb (forallb Regex.letter_or_underscore item))
             (SearchStart.items value)
    /\ (forall item,
           In item (Settings.validateCategoryField value)
           <-> In item (SearchStart.items value)
               /\ ~ Forall SearchStart.isWordChar item)
    /\ (Settings.validateCategoryField value = []
        <-> Forall (fun item => Forall SearchStart.isWordChar item)
                   (SearchStart.items value)).
Proof.
  intros value. split; [apply validateCategoryField_words|].
  split; [apply validateCategoryField_reports|].
  apply validateCategoryField_accepts.
Qed.

(** X13. A category field that the validator accepts is saved as its
    words joined by commas: cleaning it drops nothing but the white space
    and the empty pieces around the words. *)
Theorem X13_accepted_category_is_saved_as_words :
  forall value,
    Settings.validateCategoryField value = [] ->
    Settings.cleanCommaSeparatedValues value false
    = Js.join [Js.comma] (SearchStart.items value)
    /\ Forall (fun item => item <> [] /\ Forall SearchStart.isWordChar item)
              (SearchStart.items value).
Proof.
  intros value Hvalid.
  apply validateCategoryField_accepts in Hvalid.
  pose proof (items_nonempty value) as Hne.
  split.
  - rewrite clean_normalize. unfold Spec.normalize, SearchStart.items.
    rewrite <- (filter_ext _ _ nonEmpty_eqb).
    f_equal. apply map_fixed. revert Hvalid. apply Forall_impl.
    intros item Hitem. apply removeWhiteSpace_fixed.
    revert Hitem. apply Forall_impl. apply wordChar_not_whitespace.
  - apply Forall_forall. intros item Hin.
    rewrite Forall_forall in Hne, Hvalid. auto.
Qed.

Lemma X13_accepted_category_is_saved_as_words_witness :
  Settings.cleanCommaSeparatedValues (Js.lit " Plumber , roof_repair,, ") false
  = Js.lit "Plumber,roof_repair".
Proof.
  destruct (X13_accepted_category_is_saved_as_words
              (Js.lit " Plumber , roof_repair,, ") eq_refl) as [H _].
  rewrite H. reflexivity.
Defined.

(** ** Location codes *)

Section Locations.
Import Db Settings SearchStart.

Lemma split_chars sep s t c : In t (Js.split sep s) -> In c t -> In c s.
Proof.
  revert t. induction s as [|c0 s IH]; simpl; intros t Ht Hc.
  - destruct Ht as [<-|[]]. destruct Hc.
  - destruct (N.eqb c0 sep).
    + destruct Ht as [<-|Ht]; [destruct Hc|]. right. eapply IH; eauto.
    + destruct (Js.split sep s) as [|t0 ts] eqn:E.
      * destruct Ht as [<-|[]]. destruct Hc as [<-|[]]. now left.
      * destruct Ht as [<-|Ht].
        -- destruct Hc as [<-|Hc]; [now left|]. right.
           apply (IH t0); [now left|exact Hc].
        -- right. apply (IH t); [now right|exact Hc].
Qed.

Lemma items_chars value item c :
  In item (items value) -> In c item -> In c value.
Proof.
  unfold items. intros Hi Hc. apply filter_In in Hi as [Hi _].
  apply in_map_iff in Hi as [t [<- Ht]].
  apply trim_In in Hc. eapply split_chars; eauto.
Qed.

Lemma digitsAndCommas_chars v c :
  In c (digitsAndCommas v) <-> In c v /\ (isDigit c \/ c = Js.comma).
Proof.
  unfold digitsAndCommas, isDigit, Js.comma. rewrite filter_In.
  rewrite orb_true_iff, andb_true_iff, !N.leb_le, N.eqb_eq. tauto.
Qed.

Lemma items_no_comma value :
  Forall (fun item => ~ In Js.comma item) (items value).
Proof.
  apply Forall_forall. intros item Hi. unfold items in Hi.
  apply filter_In in Hi as [Hi _].
  apply in_map_iff in Hi as [t [<- Ht]]. intros Hc. apply trim_In in Hc.
  pose proof (split_no_sep Js.comma value) as H.
  rewrite Forall_forall in H. exact (H t Ht Hc).
Qed.

Lemma locationCodes_digits v st :
  Forall (fun code => code <> [] /\ Forall isDigit code)
         (locationCodes (setField Locations v st)).
Proof.
  change (locationCodes (setField Locations v st))
    with (items (digitsAndCommas v)).
  apply Forall_forall. intros code Hi. split.
  - pose proof (items_nonempty (digitsAndCommas v)) as H.
    rewrite Forall_forall in H. now apply H.
  - apply Forall_forall. intros c Hc.
    pose proof (items_chars _ _ _ Hi Hc) as H.
    apply digitsAndCommas_chars in H as [_ [H|H]]; [exact H|].
    subst c. pose proof (items_no_comma (digitsAndCommas v)) as Hn.
    rewrite Forall_forall in Hn. now contradiction (Hn code Hi).
Qed.

Lemma clean_items_words value :
  Forall (fun item => Forall (fun c => Js.isWhiteSpace c = false) item)
         (items value) ->
  cleanCommaSeparatedValues value false = Js.join [Js.comma] (items value).
Proof.
  intros H. rewrite clean_normalize. unfold Spec.normalize, items.
  rewrite <- (filter_ext _ _ nonEmpty_eqb).
  f_equal. apply map_fixed. revert H. apply Forall_impl.
  intros item Hitem. now apply removeWhiteSpace_fixed.
Qed.

Lemma invalid_codes_spec (table : list Z) codes code :
  In code
     (filter (fun code =>
                negb (Js.includes
                        (Js.set_of_list
                           (map code_toString
                              (filter (fun z =>
                                         Js.includes codes (code_toString z))
                                      table)))
                        code))
             codes)
  <-> In code codes /\ forall z, In z table -> code_toString z <> code.
Proof.
  rewrite filter_In, negb_true_iff, includes_set_of_list, includes_not_In.
  split; intros [Hc H]; (split; [exact Hc|]).
  - intros z Hz E. apply H. apply in_map_iff. exists z. split; [exact E|].
    apply filter_In. split; [exact Hz|]. apply includes_In. now rewrite E.
  - intros Hin. apply in_map_iff in Hin as [z [E Hz]].
    apply filter_In in Hz as [Hz _]. exact (H z Hz E).
Qed.

Lemma finish_fields be db closure st :
  let st' := validateLocationCodes_finish be db closure st in
  serpKeywords st' = serpKeywords st
  /\ serpCategory st' = serpCategory st
  /\ serpExcludedCategory st' = serpExcludedCategory st
  /\ serpLocations st' = serpLocations st
  /\ serpStates st' = serpStates st
  /\ Settings.error st' = Settings.error st
  /\ message st' = message st.
Proof.
  unfold validateLocationCodes_finish, request.
  destruct (getToken be); cbn; try (repeat split; fail).
  destruct (locationCodes closure); cbn; try (repeat split; fail).
  destruct (fault be SelectLocations); cbn; repeat split.
Qed.

End Locations.

(** X14. When the lookup of the location codes is answered, the codes
    flagged invalid are exactly the codes of the validated text that are
    not the decimal rendering of a code of the locations table, in the
    order typed. Answered or not, the validation flag is cleared at the
    end and the five fields, the error and the message are not touched. *)
Theorem X14_location_validation :
  forall be db closure st,
    Db.answers be ->
    let st' := Settings.validateLocationCodes_finish be db closure st in
    Settings.invalidLocationCodes st'
    = filter (fun code =>
                negb (existsb (fun z => Js.eqb (Settings.code_toString z) code)
                              (Db.google_locations db)))
             (Settings.locationCodes closure)
    /\ (forall code,
           In code (Settings.invalidLocationCodes st')
           <-> In code (Settings.locationCodes closure)
               /\ forall z, In z (Db.google_locations db) ->
                            Settings.code_toString z <> code)
    /\ Settings.isValidatingCodes st' = false
    /\ Settings.serpLocations st' = Settings.serpLocations st
    /\ Settings.error st' = Settings.error st
    /\ Settings.message st' = Settings.message st.
Proof.
  intros be db closure st [Htok Hf] st'.
  pose proof (finish_fields be db closure st) as (_ & _ & _ & Hl & _ & He & Hm).
  fold st' in Hl, He, Hm.
  assert (Hflag : Settings.isValidatingCodes st' = false).
  { subst st'. unfold Settings.validateLocationCodes_finish. reflexivity. }
  assert (Hspec : forall code,
             In code (Settings.invalidLocationCodes st')
             <-> In code (Settings.locationCodes closure)
                 /\ forall z, In z (Db.google_locations db) ->
                              Settings.code_toString z <> code).
  { intros code. subst st'.
    unfold Settings.validateLocationCodes_finish, Db.request.
    rewrite Htok, (Hf Db.SelectLocations).
    destruct (Settings.locationCodes closure) as [|c0 cs] eqn:Ec.
    - cbn. tauto.
    - cbn [Settings.invalidLocationCodes Settings.setIsValidatingCodes
           Settings.setInvalidLocationCodes].
      unfold Settings.select_locations. apply invalid_codes_spec. }
  split; [|split; [exact Hspec|repeat split; assumption]].
  subst st'. unfold Settings.validateLocationCodes_finish, Db.request.
  rewrite Htok, (Hf Db.SelectLocations).
  destruct (Settings.locationCodes closure) as [|c0 cs] eqn:Ec;
    [reflexivity|].
  cbn [Settings.invalidLocationCodes Settings.setIsValidatingCodes
       Settings.setInvalidLocationCodes].
  apply filter_ext_in. intros code Hc. f_equal.
  rewrite includes_set_of_list.
  unfold Settings.select_locations.
  destruct (existsb (fun z => Js.eqb (Settings.code_toString z) code)
                    (Db.google_locations db)) eqn:E.
  - apply existsb_exists in E as [z [Hz E]]. apply eqb_eq in E.
    apply includes_In. apply in_map_iff. exists z. split; [exact E|].
    apply filter_In. split; [exact Hz|]. apply includes_In. now rewrite E.
  - apply includes_not_In. intros Hin.
    apply in_map_iff in Hin as [z [Ez Hz]]. apply filter_In in Hz as [Hz _].
    assert (existsb (fun z => Js.eqb (Settings.code_toString z) code)
                    (Db.google_locations db) = true).
    { apply existsb_exists. exists z. split; [exact Hz|]. now apply eqb_eq. }
    congruence.
Qed.

Lemma X14_location_validation_witness :
  Settings.invalidLocationCodes
    (Settings.validateLocationCodes_finish Sample.healthy Sample.settingsDb
       Sample.settings7 Sample.settings7)
  = [Js.lit "1027744"].
Proof.
  destruct (X14_location_validation Sample.healthy Sample.settingsDb
              Sample.settings7 Sample.settings7) as [H _].
  - split; [reflexivity|intros r; reflexivity].
  - rewrite H. reflexivity.
Defined.

(** X15. Whatever is typed or pasted into the location box, the box
    holds digits and commas only; the codes cut from it for validation
    are non-empty strings of digits, and the value saved is these codes
    joined by commas. *)
Theorem X15_location_box_keeps_digits :
  forall v st,
    let st' := Settings.setField Settings.Locations v st in
    Forall (fun c => SearchStart.isDigit c \/ c = Js.comma)
           (Settings.serpLocations st')
    /\ Forall (fun code => code <> [] /\ Forall SearchStart.isDigit code)
              (Settings.locationCodes st')
    /\ Settings.cleanCommaSeparatedValues (Settings.serpLocations st') false
       = Js.join [Js.comma] (Settings.locationCodes st').
Proof.
  intros v st st'. split; [|split].
  - apply Forall_forall. intros c Hc.
    change (Settings.serpLocations st') with (Settings.digitsAndCommas v) in Hc.
    now apply digitsAndCommas_chars in Hc.
  - apply locationCodes_digits.
  - change (Settings.serpLocations st') with (Settings.digitsAndCommas v).
    change (Settings.locationCodes st')
      with (SearchStart.items (Settings.digitsAndCommas v)).
    apply clean_items_words.
    pose proof (locationCodes_digits v st) as H.
    change (Settings.locationCodes (Settings.setField Settings.Locations v st))
      with (SearchStart.items (Settings.digitsAndCommas v)) in H.
    revert H. apply Forall_impl. intros code [_ H]. revert H.
    apply Forall_impl. apply digit_not_whitespace.
Qed.

(** ** Saving and loading the settings *)

Section SaveAndLoad.
Import Db Settings SearchStart.

Lemma or_else_or_null s : Js.or_else (Js.or_null s) [] = s.
Proof. destruct s; reflexivity. Qed.

Lemma clean_idem value allowSpaces :
  cleanCommaSeparatedValues (cleanCommaSeparatedValues value allowSpaces)
    allowSpaces
  = cleanCommaSeparatedValues value allowSpaces.
Proof. rewrite !clean_normalize. apply normalize_idem. Qed.

Lemma update_settings_twice user k c e l s k' c' e' l' s' db :
  update_settings user k' c' e' l' s' (update_settings user k c e l s db)
  = update_settings user k' c' e' l' s' db.
Proof.
  unfold update_settings, with_user_accounts. cbn. f_equal.
  rewrite map_map. apply map_ext. intros a.
  destruct (Js.eqb (ua_clerk_id a) user) eqn:E; cbn; rewrite E; reflexivity.
Qed.

Lemma update_settings_rows user k c e l s db a' :
  In a' (user_accounts (update_settings user k c e l s db)) ->
  In a' (user_accounts db)
  \/ (ua_clerk_id a' = user /\ serp_keywords a' = k /\ serp_cat a' = c
      /\ serp_exc_cat a' = e /\ serp_locations a' = l /\ serp_states a' = s).
Proof.
  unfold update_settings, with_user_accounts. cbn. intros H.
  apply in_map_iff in H as [a [<- Ha]].
  destruct (Js.eqb (ua_clerk_id a) user) eqn:E; [|now left].
  right. apply eqb_eq in E. cbn. repeat split. exact E.
Qed.

Lemma select_after_update user k c e l s db row :
  select_settings_single db user = Some row ->
  select_settings_single (update_settings user k c e l s db) user
  = Some {| ua_id := ua_id row; ua_clerk_id := ua_clerk_id row;
            serp_keywords := k; serp_cat := c; serp_exc_cat := e;
            serp_locations := l; serp_states := s |}.
Proof.
  unfold select_settings_single, update_settings, with_user_accounts. cbn.
  set (f := fun a : UserAccount =>
              if Js.eqb (ua_clerk_id a) user
              then {| ua_id := ua_id a; ua_clerk_id := ua_clerk_id a;
                      serp_keywords := k; serp_cat := c; serp_exc_cat := e;
                      serp_locations := l; serp_states := s |}
              else a).
  assert (G : forall rows,
             filter (fun a => Js.eqb (ua_clerk_id a) user) (map f rows)
             = map f (filter (fun a => Js.eqb (ua_clerk_id a) user) rows)).
  { induction rows as [|a rows IH]; [reflexivity|]. cbn [map filter].
    assert (Ef : Js.eqb (ua_clerk_id (f a)) user
                 = Js.eqb (ua_clerk_id a) user).
    { unfold f. destruct (Js.eqb (ua_clerk_id a) user) eqn:E; cbn;
        [exact E|exact E]. }
    rewrite Ef. destruct (Js.eqb (ua_clerk_id a) user); cbn [map];
      now rewrite IH. }
  rewrite G.
  destruct (filter (fun a => Js.eqb (ua_clerk_id a) user) (user_accounts db))
    as [|a [|b rest]] eqn:E; try discriminate.
  intros [= ->]. cbn [map].
  assert (Ha : In row (filter (fun a => Js.eqb (ua_clerk_id a) user)
                              (user_accounts db)))
    by (rewrite E; now left).
  apply filter_In in Ha as [_ Ha]. unfold f. now rewrite Ha.
Qed.

(** What an autosave does to the store: nothing, or the update of the
    user's row with the normalised fields of a render that passed both
    guards. *)
Lemma autosave_store be closure w :
  fst (autoSaveSerpSettings be closure w) = fst w
  \/ exists user,
       signedInUser closure = Some user
       /\ isValidatingCodes closure = false
       /\ anyInvalid closure = false
       /\ fst (autoSaveSerpSettings be closure w)
          = update_settings user
              (Js.or_null (cleanCommaSeparatedValues (serpKeywords closure) true))
              (Js.or_null (cleanCommaSeparatedValues (serpCategory closure) false))
              (Js.or_null
                 (cleanCommaSeparatedValues (serpExcludedCategory closure) false))
              (Js.or_null (cleanCommaSeparatedValues (serpLocations closure) false))
              (Js.or_null (cleanCommaSeparatedValues (serpStates closure) true))
              (fst w).
Proof.
  unfold autoSaveSerpSettings.
  destruct (signedInUser closure) as [user|]; [|now left].
  destruct (isValidatingCodes closure) eqn:Ev; [now left|].
  destruct (anyInvalid closure) eqn:Ei; [now left|].
  destruct w as [db st]. unfold autoSave_try. cbn [fst snd].
  destruct (getToken be); cbn; try (now left).
  destruct (fault be UpdateSettings); cbn; try (now left).
  right. exists user. repeat split.
Qed.

Lemma autosave_answered be closure db st user :
  answers be ->
  signedInUser closure = Some user ->
  isValidatingCodes closure = false ->
  anyInvalid closure = false ->
  autoSaveSerpSettings be closure (db, st)
  = (update_settings user
       (Js.or_null (cleanCommaSeparatedValues (serpKeywords closure) true))
       (Js.or_null (cleanCommaSeparatedValues (serpCategory closure) false))
       (Js.or_null
          (cleanCommaSeparatedValues (serpExcludedCategory closure) false))
       (Js.or_null (cleanCommaSeparatedValues (serpLocations closure) false))
       (Js.or_null (cleanCommaSeparatedValues (serpStates closure) true))
       db,
     setIsSaving false
       (setMessage (Js.lit "Settings saved automatically")
          (Settings.setError [] (setIsSaving true st)))).
Proof.
  intros [Htok Hf] Hu Hv Hi. unfold autoSaveSerpSettings, autoSave_try.
  rewrite Hu, Hv, Hi. cbn [fst snd]. rewrite Htok, (Hf UpdateSettings).
  reflexivity.
Qed.

Lemma accepted_category value :
  validateCategoryField value = [] ->
  exists words,
    Forall (fun w => w <> [] /\ Forall isWordChar w) words
    /\ cleanCommaSeparatedValues value false = Js.join [Js.comma] words.
Proof.
  intros H. apply validateCategoryField_accepts in H.
  exists (items value). split.
  - pose proof (items_nonempty value) as Hne.
    rewrite Forall_forall in *. intros w Hw. split; auto.
  - apply clean_items_words. revert H. apply Forall_impl.
    intros item. apply Forall_impl. apply wordChar_not_whitespace.
Qed.

End SaveAndLoad.

(** X16. An answered autosave followed by an answered load of the same
    user's row shows the five fields in their normalised form and enables
    autosave; saving that page again leaves the table as the first save
    left it. *)
Theorem X16_settings_round_trip :
  forall be db closure st user row,
    Db.answers be ->
    Settings.signedInUser closure = Some user ->
    Settings.userId st = Settings.userId closure ->
    Settings.isValidatingCodes closure = false ->
    Settings.anyInvalid closure = false ->
    SearchStart.select_settings_single db user = Some row ->
    let saved := Settings.autoSaveSerpSettings be closure (db, st) in
    let reloaded :=
      SearchStart.loadSerpSettings be (fst saved) user (snd saved) in
    Settings.serpKeywords reloaded
    = Settings.cleanCommaSeparatedValues (Settings.serpKeywords closure) true
    /\ Settings.serpCategory reloaded
       = Settings.cleanCommaSeparatedValues (Settings.serpCategory closure)
           false
    /\ Settings.serpExcludedCategory reloaded
       = Settings.cleanCommaSeparatedValues
           (Settings.serpExcludedCategory closure) false
    /\ Settings.serpLocations reloaded
       = Settings.cleanCommaSeparatedValues (Settings.serpLocations closure)
           false
    /\ Settings.serpStates reloaded
       = Settings.cleanCommaSeparatedValues (Settings.serpStates closure) true
    /\ Settings.serpDataLoaded reloaded = true
    /\ fst (Settings.autoSaveSerpSettings be reloaded (fst saved, reloaded))
       = fst saved.
Proof.
  intros be db closure st user row Hbe Hu Hid Hv Hi Hrow saved reloaded.
  subst reloaded saved.
  rewrite (autosave_answered be closure db st user Hbe Hu Hv Hi).
  cbn [fst snd].
  destruct Hbe as [Htok Hf].
  unfold SearchStart.loadSerpSettings.
  rewrite Htok, (Hf Db.SelectAccount).
  rewrite (select_after_update user _ _ _ _ _ db row Hrow).
  set (db' := Settings.update_settings user _ _ _ _ _ db).
  set (page' := Settings.loaded _ _).
  assert (Ek : Settings.serpKeywords page'
               = Settings.cleanCommaSeparatedValues
                   (Settings.serpKeywords closure) true)
    by (subst page'; cbn; apply or_else_or_null).
  assert (Ec : Settings.serpCategory page'
               = Settings.cleanCommaSeparatedValues
                   (Settings.serpCategory closure) false)
    by (subst page'; cbn; apply or_else_or_null).
  assert (Ee : Settings.serpExcludedCategory page'
               = Settings.cleanCommaSeparatedValues
                   (Settings.serpExcludedCategory closure) false)
    by (subst page'; cbn; apply or_else_or_null).
  assert (El : Settings.serpLocations page'
               = Settings.cleanCommaSeparatedValues
                   (Settings.serpLocations closure) false)
    by (subst page'; cbn; apply or_else_or_null).
  assert (Es : Settings.serpStates page'
               = Settings.cleanCommaSeparatedValues
                   (Settings.serpStates closure) true)
    by (subst page'; cbn; apply or_else_or_null).
  assert (Eu : Settings.signedInUser page' = Some user).
  { rewrite <- Hu. unfold Settings.signedInUser. subst page'. cbn.
    now rewrite Hid. }
  repeat (split; [assumption|]). split; [reflexivity|].
  destruct (autosave_store be page' (db', page')) as [E|[u (Hu' & _ & _ & E)]];
    [exact E|].
  rewrite E. cbn [fst]. rewrite Eu in Hu'. injection Hu' as <-.
  rewrite Ek, Ec, Ee, El, Es, !clean_idem.
  subst db'. apply update_settings_twice.
Qed.

Lemma X16_settings_round_trip_witness :
  let saved :=
    Settings.autoSaveSerpSettings Sample.healthy Sample.settings7
      (Sample.settingsDb, Sample.settings7) in
  let reloaded :=
    SearchStart.loadSerpSettings Sample.healthy (fst saved)
      (Js.lit "user_7") (snd saved) in
  Settings.serpKeywords reloaded = Js.lit "roof repair,plumber"
  /\ Settings.serpCategory reloaded = Js.lit "roofing_contractor,plumber"
  /\ Settings.serpExcludedCategory reloaded = []
  /\ fst (Settings.autoSaveSerpSettings Sample.healthy reloaded
            (fst saved, reloaded))
     = fst saved.
Proof.
  intros saved reloaded.
  assert (Hbe : Db.answers Sample.healthy)
    by (split; [reflexivity|intros r; reflexivity]).
  destruct (X16_settings_round_trip Sample.healthy Sample.settingsDb
              Sample.settings7 Sample.settings7 (Js.lit "user_7")
              Sample.storedRow Hbe eq_refl eq_refl eq_refl eq_refl eq_refl)
    as (Hk & Hc & He & _ & _ & _ & Hs).
  fold saved in Hk, Hc, He, Hs. fold reloaded in Hk, Hc, He, Hs.
  rewrite Hk, Hc, He.
  split; [reflexivity|]. split; [reflexivity|]. split; [reflexivity|].
  exact Hs.
Defined.

(** ** Starting a search *)

Section Search.
Import Db Settings SearchStart.

Lemma or_else_nonempty v fallback :
  fallback <> [] -> Js.or_else v fallback <> [].
Proof.
  intros H. unfold Js.or_else. destruct v as [[|c s]|]; simpl;
    try exact H. discriminate.
Qed.

Lemma responseMessage_nonempty r : responseMessage r <> [].
Proof.
  unfold responseMessage.
  destruct (match contentType r with
            | Some ct => includesStr ct (Js.lit "application/json")
            | None => false
            end).
  - destruct (json r) as [[message result]|]; [|discriminate].
    apply or_else_nonempty, or_else_nonempty. discriminate.
  - apply or_else_nonempty. discriminate.
Qed.

Lemma knownAccount_nonzero sp n : knownAccount sp = Some n -> n <> 0.
Proof.
  unfold knownAccount. destruct (accountNumber sp) as [k|]; [|discriminate].
  destruct (Z.eqb_spec k 0); [discriminate|]. now intros [= <-].
Qed.

(** The ways a run of [executeSearch] can end. *)
Lemma executeSearch_outcome be wh repeatSearches w :
  let w' := executeSearch be wh repeatSearches w in
  let st := form (view w) in
  let saved user :=
    update_settings user
      (Js.or_null (cleanCommaSeparatedValues (serpKeywords st) true))
      (Js.or_null (cleanCommaSeparatedValues (serpCategory st) false))
      (Js.or_null (cleanCommaSeparatedValues (serpExcludedCategory st) false))
      (Js.or_null (cleanCommaSeparatedValues (serpLocations st) false))
      (Js.or_null (cleanCommaSeparatedValues (serpStates st) true))
      (store w) in
  let failed :=
    Settings.error (form (view w')) <> [] /\ message (form (view w')) = [] in
  (store w' = store w /\ calls w' = calls w /\ failed)
  \/ exists user,
       sessionUser st = Some user /\ getToken be = TokenIssued
       /\ fault be UpdateSettings = Healthy /\ store w' = saved user
       /\ ((calls w' = calls w /\ failed)
           \/ exists n,
                knownAccount (view w) = Some n
                /\ clerkToken wh = TokenIssued
                /\ calls w'
                   = calls w ++ [{| account_number := n;
                                    repeat_searches := repeatSearches |}]
                /\ (failed
                    \/ exists r,
                         fetch wh = Responds r /\ ok r = true
                         /\ Settings.error (form (view w')) = []
                         /\ message (form (view w')) = responseMessage r)).
Proof.
  intros w' st saved failed. subst w' failed saved.
  unfold executeSearch, executeSearch_try.
  change (sessionUser (form (view _))) with (sessionUser st).
  destruct (sessionUser st) as [user|] eqn:Eu;
    [|left; cbn; repeat split; discriminate].
  destruct (getToken be) eqn:Et;
    try (left; cbn; repeat split; discriminate).
  destruct (fault be UpdateSettings) eqn:Ef;
    try (left; cbn; repeat split; discriminate).
  right. exists user. split; [reflexivity|]. split; [reflexivity|].
  split; [reflexivity|].
  change (knownAccount (view _)) with (knownAccount (view w)).
  destruct (knownAccount (view w)) as [n|] eqn:En;
    [|split; [reflexivity|left; cbn; repeat split; discriminate]].
  destruct (clerkToken wh) eqn:Ec;
    try (split; [reflexivity|left; cbn; repeat split; discriminate]).
  destruct (fetch wh) as [r|] eqn:Er.
  - destruct (ok r) eqn:Eo; cbn [negb].
    + split; [reflexivity|]. right. exists n. repeat split.
      right. exists r. repeat split. exact Eo.
    + split; [reflexivity|]. right. exists n. repeat split.
      left. cbn. repeat split; discriminate.
  - split; [reflexivity|]. right. exists n. repeat split.
    left. cbn. repeat split; discriminate.
Qed.

End Search.

(** X18. A run of [executeSearch] ends with the loading flag cleared and
    with exactly one of an error and a message on the page. It calls the
    webhook at most once, with the page's non-zero account number and the
    flag passed in, and only after it has written the normalised fields
    to the signed-in user's row; the table is otherwise left alone. A
    message is shown only for a 2xx response, and is then the text read
    from it. *)
Theorem X18_search_is_sent_after_saving :
  forall be wh repeatSearches w,
    let w' := SearchStart.executeSearch be wh repeatSearches w in
    let st := SearchStart.form (SearchStart.view w) in
    let saved user :=
      Settings.update_settings user
        (Js.or_null
           (Settings.cleanCommaSeparatedValues (Settings.serpKeywords st) true))
        (Js.or_null
           (Settings.cleanCommaSeparatedValues (Settings.serpCategory st) false))
        (Js.or_null
           (Settings.cleanCommaSeparatedValues
              (Settings.serpExcludedCategory st) false))
        (Js.or_null
           (Settings.cleanCommaSeparatedValues (Settings.serpLocations st) false))
        (Js.or_null
           (Settings.cleanCommaSeparatedValues (Settings.serpStates st) true))
        (SearchStart.store w) in
    let error' := Settings.error (SearchStart.form (SearchStart.view w')) in
    let message' := Settings.message (SearchStart.form (SearchStart.view w')) in
    SearchStart.isLoading (SearchStart.view w') = false
    /\ (error' = [] <-> message' <> [])
    /\ (SearchStart.store w' = SearchStart.store w
        \/ exists user,
             SearchStart.sessionUser st = Some user
             /\ SearchStart.store w' = saved user)
    /\ (SearchStart.calls w' = SearchStart.calls w
        \/ exists user n,
             SearchStart.sessionUser st = Some user
             /\ SearchStart.store w' = saved user
             /\ SearchStart.accountNumber (SearchStart.view w) = Some n
             /\ n <> 0
             /\ SearchStart.calls w'
                = SearchStart.calls w
                  ++ [{| SearchStart.account_number := n;
                         SearchStart.repeat_searches := repeatSearches |}])
    /\ (message' <> [] ->
        exists r,
          SearchStart.fetch wh = SearchStart.Responds r
          /\ SearchStart.ok r = true
          /\ message' = SearchStart.responseMessage r
          /\ SearchStart.calls w' <> SearchStart.calls w).
Proof.
  intros be wh repeatSearches w w' st saved error' message'.
  assert (Hacc : forall n, SearchStart.knownAccount (SearchStart.view w) = Some n ->
                           SearchStart.accountNumber (SearchStart.view w) = Some n).
  { intros n. unfold SearchStart.knownAccount.
    destruct (SearchStart.accountNumber (SearchStart.view w)) as [k|];
      [|discriminate].
    destruct (k =? 0); [discriminate|]. now intros [= <-]. }
  assert (Hgrow : forall (l : list SearchStart.SearchCall) c, l ++ [c] <> l).
  { intros l c E. apply (f_equal (@List.length _)) in E.
    rewrite length_app in E. simpl in E. lia. }
  split; [reflexivity|].
  pose proof (executeSearch_outcome be wh repeatSearches w) as H.
  cbv zeta in H. fold w' st in H. fold error' message' in H.
  destruct H as [(Es & Ec & He & Hm)
                |(user & Hu & _ & _ & Es & [(Ec & He & Hm)
                                           |(n & Hn & _ & Ec & Hout)])].
  - split; [split; [intros E; contradiction|intros Hm'; contradiction]|].
    split; [now left|]. split; [now left|]. intros Hm'; contradiction.
  - split; [split; [intros E; contradiction|intros Hm'; contradiction]|].
    split; [right; now exists user|]. split; [now left|].
    intros Hm'; contradiction.
  - assert (Hcall : SearchStart.calls w' <> SearchStart.calls w)
      by (rewrite Ec; apply Hgrow).
    assert (Hsent :
              SearchStart.calls w' = SearchStart.calls w
              \/ exists user n,
                   SearchStart.sessionUser st = Some user
                   /\ SearchStart.store w' = saved user
                   /\ SearchStart.accountNumber (SearchStart.view w) = Some n
                   /\ n <> 0
                   /\ SearchStart.calls w'
                      = SearchStart.calls w
                        ++ [{| SearchStart.account_number := n;
                               SearchStart.repeat_searches := repeatSearches |}]).
    { right. exists user, n. repeat split; auto.
      now apply (knownAccount_nonzero (SearchStart.view w)). }
    destruct Hout as [(He & Hm)|(r & Hr & Ho & He & Hm)].
    + split; [split; [intros E; contradiction|intros Hm'; contradiction]|].
      split; [right; now exists user|]. split; [exact Hsent|].
      intros Hm'; contradiction.
    + pose proof (responseMessage_nonempty r) as Hne.
      split; [split; [intros _; now rewrite Hm|intros _; exact He]|].
      split; [right; now exists user|]. split; [exact Hsent|].
      intros _. exists r. now repeat split.
Qed.

(** X19. The "Start Search" button opens the preview exactly when the
    user is signed in, no item is flagged invalid, and neither the
    keywords nor the location codes are blank; otherwise it leaves the
    preview as it was and shows an error. It clears the message and
    touches none of the five fields. *)
Theorem X19_start_search_guard :
  forall sp,
    let sp' := SearchStart.handleStartSearchClick sp in
    let st := SearchStart.form sp in
    let st' := SearchStart.form sp' in
    let passes :=
      SearchStart.sessionUser st <> None
      /\ Settings.anyInvalid st = false
      /\ Js.trim (Settings.serpKeywords st) <> []
      /\ Js.trim (Settings.serpLocations st) <> [] in
    (passes ->
     SearchStart.searchPreviewModalOpen sp' = true /\ Settings.error st' = [])
    /\ (~ passes ->
        SearchStart.searchPreviewModalOpen sp'
        = SearchStart.searchPreviewModalOpen sp
        /\ Settings.error st' <> [])
    /\ Settings.message st' = []
    /\ Settings.serpKeywords st' = Settings.serpKeywords st
    /\ Settings.serpCategory st' = Settings.serpCategory st
    /\ Settings.serpExcludedCategory st' = Settings.serpExcludedCategory st
    /\ Settings.serpLocations st' = Settings.serpLocations st
    /\ Settings.serpStates st' = Settings.serpStates st
    /\ SearchStart.accountNumber sp' = SearchStart.accountNumber sp.
Proof.
  intros sp sp' st st' passes. subst sp' st' passes.
  unfold SearchStart.handleStartSearchClick.
  change (SearchStart.sessionUser (SearchStart.form _))
    with (SearchStart.sessionUser st).
  change (Settings.anyInvalid (SearchStart.form _))
    with (Settings.anyInvalid st).
  change (Settings.serpKeywords (SearchStart.form
            (SearchStart.on_form (Settings.setMessage [])
               (SearchStart.on_form (Settings.setError []) sp))))
    with (Settings.serpKeywords st).
  change (Settings.serpLocations (SearchStart.form
            (SearchStart.on_form (Settings.setMessage [])
               (SearchStart.on_form (Settings.setError []) sp))))
    with (Settings.serpLocations st).
  assert (Hnil : forall A (x : A) l, x :: l <> []) by discriminate.
  destruct (SearchStart.sessionUser st) as [user|];
    [destruct (Settings.anyInvalid st);
     [|destruct (Js.trim (Settings.serpKeywords st)) as [|c1 k];
       [|destruct (Js.trim (Settings.serpLocations st)) as [|c2 l]]]|];
    cbn; repeat split; try discriminate;
    try (lazymatch goal with
         | Hp : _ /\ _ /\ _ /\ _ |- _ =>
             destruct Hp as (Hp1 & Hp2 & Hp3 & Hp4);
             first [discriminate | now contradiction Hp1
                   | now contradiction Hp3 | now contradiction Hp4]
         | Hp : ~ _ |- _ =>
             exfalso; apply Hp; repeat split; first [discriminate|apply Hnil]
         end).
Qed.

(** ** The search preview *)

Section Preview.
Import Db SearchStart SearchPreview.

Lemma startsWith_spec needle s :
  startsWith needle s = true <-> exists post, s = needle ++ post.
Proof.
  revert s. induction needle as [|a needle IH]; intros s; simpl.
  - split; [intros _; now exists s|reflexivity].
  - destruct s as [|b s].
    + split; [discriminate|intros [post E]; discriminate].
    + rewrite andb_true_iff, N.eqb_eq, IH. split.
      * intros [-> [post ->]]. now exists post.
      * intros [post E]. injection E as -> ->. split; [reflexivity|].
        now exists post.
Qed.

Lemma includesStr_spec s needle :
  includesStr s needle = true <-> exists pre post, s = pre ++ needle ++ post.
Proof.
  induction s as [|c s IH].
  - simpl. rewrite orb_false_r, startsWith_spec. split.
    + intros [post E]. now exists [], post.
    + intros [pre [post E]]. destruct pre; [now exists post|discriminate].
  - cbn [includesStr]. rewrite orb_true_iff, startsWith_spec, IH. split.
    + intros [[post E]|[pre [post E]]].
      * now exists [], post.
      * exists (c :: pre), post. simpl. now rewrite E.
    + intros [pre [post E]]. destruct pre as [|c' pre].
      * left. now exists post.
      * right. injection E as -> E. now exists pre, post.
Qed.

Lemma split_app_sep sep a b :
  Js.split sep (a ++ sep :: b) = Js.split sep a ++ Js.split sep b.
Proof.
  induction a as [|c a IH]; simpl.
  - now rewrite N.eqb_refl.
  - destruct (N.eqb c sep); [now rewrite IH|].
    rewrite IH. pose proof (split_not_nil sep a) as Hne.
    destruct (Js.split sep a); [now contradiction Hne|reflexivity].
Qed.

Lemma join_split sep s : Js.join [sep] (Js.split sep s) = s.
Proof.
  induction s as [|c s IH]; [reflexivity|]. simpl.
  pose proof (split_not_nil sep s) as Hne.
  destruct (Js.split sep s) as [|t ts]; [now contradiction Hne|].
  destruct (N.eqb_spec c sep) as [->|Hc].
  - change (Js.join [sep] ([] :: t :: ts))
      with (sep :: Js.join [sep] (t :: ts)).
    now rewrite IH.
  - destruct ts as [|u ts].
    + cbn in *. now subst.
    + change (Js.join [sep] ((c :: t) :: u :: ts))
        with (c :: Js.join [sep] (t :: u :: ts)).
      now rewrite IH.
Qed.

Lemma join_app sep (x y : list Js.str) :
  x <> [] -> y <> [] ->
  Js.join [sep] (x ++ y) = Js.join [sep] x ++ sep :: Js.join [sep] y.
Proof.
  intros Hx Hy. induction x as [|t x IH]; [now contradiction Hx|].
  destruct x as [|u x].
  - destruct y as [|v y]; [now contradiction Hy|]. reflexivity.
  - change (Js.join [sep] ((t :: u :: x) ++ y))
      with (t ++ [sep] ++ Js.join [sep] ((u :: x) ++ y)).
    rewrite IH by discriminate.
    change (Js.join [sep] (t :: u :: x))
      with (t ++ [sep] ++ Js.join [sep] (u :: x)).
    now rewrite <- !app_assoc.
Qed.

Lemma removelast_In_split {A : Type} (k : A) l :
  In k (removelast l) -> exists x y, l = x ++ k :: y /\ y <> [].
Proof.
  induction l as [|a l IH]; [intros []|].
  destruct l as [|b l]; [intros []|].
  change (removelast (a :: b :: l)) with (a :: removelast (b :: l)).
  intros [<-|H].
  - exists [], (b :: l). split; [reflexivity|discriminate].
  - destruct (IH H) as (x & y & E & Hy). exists (a :: x), y.
    split; [now rewrite E|exact Hy].
Qed.

(** An entry with a comma on both sides. *)
Lemma enclosed_spec used k :
  ~ In Js.comma k ->
  In k (enclosed used)
  <-> exists pre post, used = pre ++ delimited k ++ post.
Proof.
  intros Hk. unfold enclosed, delimited. split.
  - intros H. apply removelast_In_split in H as (x & y & E & Hy).
    pose proof (split_not_nil Js.comma used) as Hne.
    destruct (Js.split Js.comma used) as [|h t] eqn:Es;
      [now contradiction Hne|].
    cbn [tl] in E. subst t.
    exists (Js.join [Js.comma] (h :: x)), (Js.join [Js.comma] y).
    rewrite <- (join_split Js.comma used), Es.
    change (h :: x ++ k :: y) with ((h :: x) ++ k :: y).
    rewrite join_app by discriminate.
    f_equal. cbn [app]. f_equal.
    change (k :: y) with ([k] ++ y). rewrite join_app by (auto; discriminate).
    cbn [Js.join]. now rewrite <- app_assoc.
  - intros (pre & post & ->). cbn [app].
    rewrite split_app_sep. rewrite <- app_assoc. cbn [app].
    rewrite (split_token_sep Js.comma k post Hk).
    pose proof (split_not_nil Js.comma pre) as Hpre.
    pose proof (split_not_nil Js.comma post) as Hpost.
    destruct (Js.split Js.comma pre) as [|h x]; [now contradiction Hpre|].
    cbn [app tl].
    change (x ++ k :: Js.split Js.comma post)
      with (x ++ [k] ++ Js.split Js.comma post).
    rewrite app_assoc, removelast_app by exact Hpost.
    apply in_or_app. left. apply in_or_app. right. now left.
Qed.

Lemma repeated_spec used k :
  ~ In Js.comma k ->
  includesStr used (delimited k) = true <-> In k (enclosed used).
Proof.
  intros Hk. now rewrite includesStr_spec, enclosed_spec.
Qed.

Lemma parseList_no_comma s :
  Forall (fun k => ~ In Js.comma k /\ k <> []) (parseList s).
Proof.
  apply Forall_forall. intros k Hk. unfold parseList in Hk.
  apply filter_In in Hk as [Hk Ht]. split.
  - apply in_map_iff in Hk as [t [<- Hin]]. intros Hc. apply trim_In in Hc.
    pose proof (split_no_sep Js.comma s) as H.
    rewrite Forall_forall in H. exact (H t Hin Hc).
  - now apply truthy_true.
Qed.

Lemma partition_perm {A : Type} (p : A -> bool) l :
  Permutation (filter (fun a => negb (p a)) l ++ filter p l) l.
Proof.
  induction l as [|a l IH]; [constructor|]. simpl.
  destruct (p a); simpl.
  - apply Permutation_sym, Permutation_cons_app. now apply Permutation_sym.
  - now constructor.
Qed.

Lemma classify_perm used keywordList :
  Permutation (fst (classify used keywordList)
               ++ snd (classify used keywordList))
              keywordList.
Proof.
  unfold classify. destruct used as [u|]; [|cbn; now rewrite app_nil_r].
  destruct (Js.truthy u); [|cbn; now rewrite app_nil_r].
  cbn [fst snd]. apply partition_perm.
Qed.

Lemma classify_repeated used keywordList k :
  Forall (fun k => ~ In Js.comma k /\ k <> []) keywordList ->
  In k (snd (classify used keywordList))
  <-> In k keywordList
      /\ exists u, used = Some u /\ In k (enclosed u).
Proof.
  intros Hall. rewrite Forall_forall in Hall. unfold classify.
  destruct used as [u|].
  - destruct (Js.truthy u) eqn:Et; cbn [snd].
    + rewrite filter_In. split.
      * intros [Hin Hinc]. split; [exact Hin|]. exists u. split; [reflexivity|].
        apply repeated_spec; [now apply Hall|exact Hinc].
      * intros [Hin (u' & [= <-] & He)]. split; [exact Hin|].
        apply repeated_spec; [now apply Hall|exact He].
    + apply truthy_false in Et. subst u. split; [intros []|].
      intros [_ (u' & [= <-] & He)]. exact He.
  - cbn. split; [intros []|]. intros [_ (u' & E & _)]. discriminate.
Qed.

Lemma classify_new used keywordList k :
  Forall (fun k => ~ In Js.comma k /\ k <> []) keywordList ->
  In k (fst (classify used keywordList))
  <-> In k keywordList
      /\ ~ exists u, used = Some u /\ In k (enclosed u).
Proof.
  intros Hall. rewrite Forall_forall in Hall. unfold classify.
  destruct used as [u|].
  - destruct (Js.truthy u) eqn:Et; cbn [fst].
    + rewrite filter_In, negb_true_iff. split.
      * intros [Hin Hinc]. split; [exact Hin|]. intros (u' & [= <-] & He).
        apply repeated_spec in He; [congruence|now apply Hall].
      * intros [Hin Hno]. split; [exact Hin|].
        destruct (includesStr u (delimited k)) eqn:E; [|reflexivity].
        exfalso. apply Hno. exists u. split; [reflexivity|].
        apply repeated_spec; [now apply Hall|exact E].
    + apply truthy_false in Et. subst u. split.
      * intros Hin. split; [exact Hin|]. intros (u' & [= <-] & He). exact He.
      * now intros [Hin _].
  - cbn. split.
    + intros Hin. split; [exact Hin|]. intros (u' & E & _). discriminate.
    + now intros [Hin _].
Qed.

Lemma statusOf_fields lk keywordList code :
  newKeywords (statusOf lk keywordList code)
  = fst (classify (used_keywords lk code) keywordList)
  /\ repeatedKeywords (statusOf lk keywordList code)
     = snd (classify (used_keywords lk code) keywordList)
  /\ locationCode (statusOf lk keywordList code) = code.
Proof.
  unfold statusOf. destruct (classify (used_keywords lk code) keywordList).
  repeat split.
Qed.

Lemma fold_sum {A : Type} (f : A -> nat) l a :
  fold_left (fun sum s => (sum + f s)%nat) l a
  = (a + list_sum (map f l))%nat.
Proof.
  revert a. induction l as [|x l IH]; intros a; simpl; [lia|].
  rewrite IH. lia.
Qed.

Lemma status_count lk keywordList code :
  (List.length (newKeywords (statusOf lk keywordList code))
   + List.length (repeatedKeywords (statusOf lk keywordList code)))%nat
  = List.length keywordList.
Proof.
  destruct (statusOf_fields lk keywordList code) as (-> & -> & _).
  rewrite <- length_app. apply Permutation_length, classify_perm.
Qed.

Lemma statuses_total lk keywordList codes :
  (list_sum (map (fun s => List.length (newKeywords s))
                 (map (statusOf lk keywordList) codes))
   + list_sum (map (fun s => List.length (repeatedKeywords s))
                   (map (statusOf lk keywordList) codes)))%nat
  = (List.length keywordList * List.length codes)%nat.
Proof.
  induction codes as [|code codes IH]; simpl; [lia|].
  pose proof (status_count lk keywordList code). lia.
Qed.

End Preview.

(** X20. In a location's line of the preview a keyword counts as
    repeated exactly when it is one of the entries of the location's
    [used_keywords] that have a comma on both sides, and as new otherwise;
    a location without a record, or with an empty one, has every keyword
    new. The two lists keep the order typed and together hold each
    keyword of the list as often as it was typed. *)
Theorem X20_repeated_keywords :
  forall lk keywords code,
    let keywordList := SearchPreview.parseList keywords in
    let status := SearchPreview.statusOf lk keywordList code in
    let used k :=
      exists u,
        SearchPreview.used_keywords lk code = Some u
        /\ In k (SearchPreview.enclosed u) in
    (forall k,
        In k (SearchPreview.repeatedKeywords status)
        <-> In k keywordList /\ used k)
    /\ (forall k,
           In k (SearchPreview.newKeywords status)
           <-> In k keywordList /\ ~ used k)
    /\ Permutation
         (SearchPreview.newKeywords status
          ++ SearchPreview.repeatedKeywords status)
         keywordList
    /\ SearchPreview.locationCode status = code.
Proof.
  intros lk keywords code keywordList status used.
  destruct (statusOf_fields lk keywordList code) as (En & Er & Ec).
  fold status in En, Er, Ec.
  pose proof (parseList_no_comma keywords) as Hall. fold keywordList in Hall.
  split; [|split; [|split; [|exact Ec]]].
  - intros k. rewrite Er. now apply classify_repeated.
  - intros k. rewrite En. now apply classify_new.
  - rewrite En, Er. apply classify_perm.
Qed.

(** X21. When its queries resolve, the preview has one line per location
    code, in the order typed, and its total is the number of keywords
    times the number of location codes; the loading flag is cleared and
    the "repeat searches" tick is kept. Without a token the lines stay
    as they were. *)
Theorem X21_preview_totals :
  forall lk keywords locationCodes p,
    let p' :=
      SearchPreview.analyzeSearches Db.TokenIssued lk keywords locationCodes p in
    SearchPreview.totalSearches p'
    = (List.length (SearchPreview.parseList keywords)
       * List.length (SearchPreview.parseList locationCodes))%nat
    /\ map SearchPreview.locationCode (SearchPreview.searchStatuses p')
       = SearchPreview.parseList locationCodes
    /\ SearchPreview.isLoading p' = false
    /\ SearchPreview.repeatSearches p' = SearchPreview.repeatSearches p
    /\ SearchPreview.searchStatuses
         (SearchPreview.analyzeSearches Db.TokenNull lk keywords locationCodes p)
       = SearchPreview.searchStatuses p
    /\ SearchPreview.searchStatuses
         (SearchPreview.analyzeSearches Db.TokenThrows lk keywords
            locationCodes p)
       = SearchPreview.searchStatuses p.
Proof.
  intros lk keywords locationCodes p p'. subst p'.
  split; [|split; [|repeat split]].
  - unfold SearchPreview.totalSearches, SearchPreview.totalNew,
      SearchPreview.totalRepeated, SearchPreview.analyzeSearches.
    cbn [SearchPreview.searchStatuses]. rewrite !fold_sum. cbn [Nat.add].
    apply statuses_total.
  - unfold SearchPreview.analyzeSearches. cbn [SearchPreview.searchStatuses].
    rewrite map_map. rewrite <- (map_id (SearchPreview.parseList locationCodes))
      at 2.
    apply map_ext. intros code. apply statusOf_fields.
Qed.

(** ** The email settings dialog *)

Section EmailDialog.
Import Db EmailSettings.

Lemma account_nonzero m uid : account m = Some uid -> userAccountId m = Some uid.
Proof.
  unfold account. destruct (userAccountId m) as [k|]; [|discriminate].
  destruct (k =? 0); [discriminate|]. now intros [= <-].
Qed.

Lemma saveEmailSettings_answered be thrown rows m uid :
  token be = TokenIssued -> saveFault be = Healthy ->
  account m = Some uid ->
  saveEmailSettings be thrown rows m
  = (update_email uid m rows,
     setIsSaving false (EmailSettings.setError [] (setIsSaving true m)), true).
Proof.
  intros Ht Hf Ha. unfold saveEmailSettings. rewrite Ha, Ht, Hf.
  reflexivity.
Qed.

(** The rows a save can leave behind. *)
Lemma saveEmailSettings_rows be thrown rows m :
  fst (fst (saveEmailSettings be thrown rows m)) = rows
  \/ exists uid,
       account m = Some uid
       /\ fst (fst (saveEmailSettings be thrown rows m))
          = update_email uid m rows.
Proof.
  unfold saveEmailSettings. destruct (account m) as [uid|]; [|now left].
  destruct (token be); try (now left).
  destruct (saveFault be); try (now left).
  right. now exists uid.
Qed.

Lemma update_email_rows uid m rows r' :
  In r' (update_email uid m rows) ->
  In r' rows
  \/ (er_id r' = uid
      /\ email_current_goal r' = Js.or_null (Js.trim (emailCurrentGoal m))
      /\ email_sig r' = Js.or_null (Js.trim (emailSig m))
      /\ email_include_sig r' = Some (emailIncludeSig m)
      /\ email_include_unsub r' = Some (emailIncludeUnsub m)).
Proof.
  unfold update_email. intros H. apply in_map_iff in H as [r [<- Hr]].
  destruct (Z.eqb_spec (er_id r) uid) as [E|_]; [|now left].
  right. repeat split. exact E.
Qed.

Lemma update_email_frame uid m rows :
  Forall2 (fun r r' => er_id r' = er_id r /\ (er_id r <> uid -> r' = r))
          rows (update_email uid m rows).
Proof.
  unfold update_email. induction rows as [|r rows IH]; [constructor|].
  cbn [map]. constructor; [|exact IH].
  destruct (Z.eqb_spec (er_id r) uid) as [E|E]; cbn; split; auto.
  intros H; contradiction.
Qed.

Lemma select_after_save uid m rows row :
  select_single rows uid = Some row ->
  select_single (update_email uid m rows) uid
  = Some {| er_id := er_id row;
            email_current_goal := Js.or_null (Js.trim (emailCurrentGoal m));
            email_sig := Js.or_null (Js.trim (emailSig m));
            email_include_sig := Some (emailIncludeSig m);
            email_include_unsub := Some (emailIncludeUnsub m) |}.
Proof.
  unfold select_single, update_email.
  set (f := fun r : EmailRow =>
              if er_id r =? uid
              then {| er_id := er_id r;
                      email_current_goal :=
                        Js.or_null (Js.trim (emailCurrentGoal m));
                      email_sig := Js.or_null (Js.trim (emailSig m));
                      email_include_sig := Some (emailIncludeSig m);
                      email_include_unsub := Some (emailIncludeUnsub m) |}
              else r).
  assert (G : forall l,
             filter (fun r => er_id r =? uid) (map f l)
             = map f (filter (fun r => er_id r =? uid) l)).
  { induction l as [|a l IH]; [reflexivity|]. cbn [map filter].
    assert (Ef : (er_id (f a) =? uid) = (er_id a =? uid)).
    { unfold f. destruct (er_id a =? uid) eqn:E; cbn; exact E. }
    rewrite Ef. destruct (er_id a =? uid); cbn [map]; now rewrite IH. }
  rewrite G.
  destruct (filter (fun r => er_id r =? uid) rows) as [|a [|b rest]] eqn:E;
    try discriminate.
  intros [= ->]. cbn [map].
  assert (Ha : In row (filter (fun r => er_id r =? uid) rows))
    by (rewrite E; now left).
  apply filter_In in Ha as [_ Ha]. unfold f. now rewrite Ha.
Qed.

Lemma update_email_twice uid m m' rows :
  Js.trim (emailCurrentGoal m') = Js.trim (emailCurrentGoal m) ->
  Js.trim (emailSig m') = Js.trim (emailSig m) ->
  emailIncludeSig m' = emailIncludeSig m ->
  emailIncludeUnsub m' = emailIncludeUnsub m ->
  update_email uid m' (update_email uid m rows) = update_email uid m rows.
Proof.
  intros Eg Es Ei Eu. unfold update_email. rewrite map_map.
  apply map_ext. intros r.
  destruct (er_id r =? uid) eqn:E; cbn; rewrite E; [|reflexivity].
  now rewrite Eg, Es, Ei, Eu.
Qed.

Lemma or_null_trim_back s : Js.or_else (Js.or_null (Js.trim s)) [] = Js.trim s.
Proof. destruct (Js.trim s); reflexivity. Qed.

Lemma uncheckEffect_spec m0 :
  emailIncludeSig (uncheckEffect m0)
  = emailIncludeSig m0 && negb (isSignatureEmpty m0)
  /\ emailSig (uncheckEffect m0) = emailSig m0
  /\ emailCurrentGoal (uncheckEffect m0) = emailCurrentGoal m0
  /\ emailIncludeUnsub (uncheckEffect m0) = emailIncludeUnsub m0.
Proof.
  unfold uncheckEffect.
  destruct (isSignatureEmpty m0) eqn:Ee, (emailIncludeSig m0) eqn:Ei; cbn;
    rewrite ?Ei; repeat split.
Qed.

Lemma signature_present m :
  isSignatureEmpty m = false -> Js.trim (emailSig m) <> [].
Proof.
  unfold isSignatureEmpty. intros H. apply orb_false_iff in H as [_ H].
  apply negb_false_iff in H. now apply truthy_true.
Qed.

End EmailDialog.

(** X22. "Generate Emails" calls [onContinue] exactly when the dialog
    has a non-zero account id, the token is issued and the update is
    answered; the account's row then holds what the dialog shows and the
    dialog closes without an error. In every other case no row changes,
    the dialog stays as open as it was, and an error is shown. What was
    typed is never changed. *)
Theorem X22_continue_only_after_saving :
  forall be thrown rows m,
    let out := EmailSettings.handleContinue be thrown rows m in
    let rows' := fst (fst out) in
    let m' := snd (fst out) in
    let called := snd out in
    (called = true
     <-> EmailSettings.account m <> None
         /\ EmailSettings.token be = Db.TokenIssued
         /\ EmailSettings.saveFault be = Db.Healthy)
    /\ (called = true ->
        (exists uid,
            EmailSettings.account m = Some uid
            /\ rows' = EmailSettings.update_email uid m rows)
        /\ EmailSettings.open m' = false
        /\ EmailSettings.error m' = [])
    /\ (called = false ->
        rows' = rows
        /\ EmailSettings.open m' = EmailSettings.open m
        /\ EmailSettings.error m' <> [])
    /\ EmailSettings.emailCurrentGoal m' = EmailSettings.emailCurrentGoal m
    /\ EmailSettings.emailSig m' = EmailSettings.emailSig m
    /\ EmailSettings.emailIncludeSig m' = EmailSettings.emailIncludeSig m
    /\ EmailSettings.emailIncludeUnsub m' = EmailSettings.emailIncludeUnsub m.
Proof.
  intros be thrown rows m out rows' m' called. subst rows' m' called out.
  assert (Hthrown : Js.or_else (Some thrown) EmailSettings.saveFailedMessage
                    <> []).
  { destruct thrown; discriminate. }
  unfold EmailSettings.handleContinue, EmailSettings.saveEmailSettings.
  destruct (EmailSettings.account m) as [uid|];
    [destruct (EmailSettings.token be);
     [destruct (EmailSettings.saveFault be)| |]|];
    cbn; repeat split; try discriminate; try assumption;
    try (lazymatch goal with
         | Hp : _ /\ _ /\ _ |- _ =>
             destruct Hp as (Hp1 & Hp2 & Hp3);
             first [discriminate | now contradiction Hp1]
         end);
    try (now exists uid);
    try (intros (Hp1 & Hp2 & Hp3);
         first [discriminate | now contradiction Hp1]).
Qed.

(** X23. A saved dialog, loaded again, shows the goal and the signature
    trimmed and the two ticks as they were, without an error; rows of
    other accounts are not changed by the save, and saving what was
    loaded changes nothing more. *)
Theorem X23_email_settings_round_trip :
  forall be thrown rows m uid row,
    EmailSettings.token be = Db.TokenIssued ->
    EmailSettings.loadFault be = Db.Healthy ->
    EmailSettings.saveFault be = Db.Healthy ->
    EmailSettings.account m = Some uid ->
    EmailSettings.select_single rows uid = Some row ->
    let saved := EmailSettings.saveEmailSettings be thrown rows m in
    let rows' := fst (fst saved) in
    let m' := EmailSettings.loadEmailSettings be rows' (snd (fst saved)) in
    EmailSettings.emailCurrentGoal m'
    = Js.trim (EmailSettings.emailCurrentGoal m)
    /\ EmailSettings.emailSig m' = Js.trim (EmailSettings.emailSig m)
    /\ EmailSettings.emailIncludeSig m' = EmailSettings.emailIncludeSig m
    /\ EmailSettings.emailIncludeUnsub m' = EmailSettings.emailIncludeUnsub m
    /\ EmailSettings.error m' = []
    /\ EmailSettings.isLoading m' = false
    /\ Forall2
         (fun r r' =>
            EmailSettings.er_id r' = EmailSettings.er_id r
            /\ (EmailSettings.er_id r <> uid -> r' = r))
         rows rows'
    /\ fst (fst (EmailSettings.saveEmailSettings be thrown rows' m')) = rows'.
Proof.
  intros be thrown rows m uid row Ht Hl Hs Ha Hrow saved rows' m'.
  subst m' rows' saved.
  rewrite (saveEmailSettings_answered be thrown rows m uid Ht Hs Ha).
  cbn [fst snd].
  set (m1 := EmailSettings.setIsSaving false _).
  assert (Ha1 : EmailSettings.account m1 = Some uid) by exact Ha.
  unfold EmailSettings.loadEmailSettings. rewrite Ha1, Ht, Hl.
  rewrite (select_after_save uid m rows row Hrow).
  cbn [EmailSettings.email_current_goal EmailSettings.email_sig
       EmailSettings.email_include_sig EmailSettings.email_include_unsub
       EmailSettings.or_false].
  set (m2 := EmailSettings.setIsLoading false _).
  assert (Eg : EmailSettings.emailCurrentGoal m2
               = Js.trim (EmailSettings.emailCurrentGoal m))
    by (subst m2; cbn; apply or_null_trim_back).
  assert (Es : EmailSettings.emailSig m2
               = Js.trim (EmailSettings.emailSig m))
    by (subst m2; cbn; apply or_null_trim_back).
  assert (Ei : EmailSettings.emailIncludeSig m2
               = EmailSettings.emailIncludeSig m) by reflexivity.
  assert (Eu : EmailSettings.emailIncludeUnsub m2
               = EmailSettings.emailIncludeUnsub m) by reflexivity.
  assert (Ha2 : EmailSettings.account m2 = Some uid) by exact Ha.
  repeat (split; [assumption|]).
  split; [reflexivity|]. split; [reflexivity|].
  split; [apply update_email_frame|].
  rewrite (saveEmailSettings_answered be thrown _ m2 uid Ht Hs Ha2).
  cbn [fst]. apply update_email_twice; auto.
  - rewrite Eg. apply trim_idem.
  - rewrite Es. apply trim_idem.
Qed.

Lemma X23_email_settings_round_trip_witness :
  let saved :=
    EmailSettings.saveEmailSettings Cases.emailHealthy [] Cases.emailRows
      Cases.modal7 in
  let m' :=
    EmailSettings.loadEmailSettings Cases.emailHealthy (fst (fst saved))
      (snd (fst saved)) in
  EmailSettings.emailCurrentGoal m' = Js.lit "Win back old customers"
  /\ EmailSettings.emailSig m' = Js.lit "Kind regards, Ada"
  /\ EmailSettings.emailIncludeSig m' = true
  /\ nth_error (fst (fst saved)) 1 = nth_error Cases.emailRows 1.
Proof.
  intros saved m'.
  destruct (X23_email_settings_round_trip Cases.emailHealthy []
              Cases.emailRows Cases.modal7 7
              {| EmailSettings.er_id := 7;
                 EmailSettings.email_current_goal := Some (Js.lit "Book demos");
                 EmailSettings.email_sig := None;
                 EmailSettings.email_include_sig := None;
                 EmailSettings.email_include_unsub := Some true |}
              eq_refl eq_refl eq_refl eq_refl eq_refl)
    as (Hg & Hs & Hi & _).
  fold saved in Hg, Hs, Hi. fold m' in Hg, Hs, Hi.
  rewrite Hg, Hs, Hi. repeat split.
Defined.

(** X24. Once the effect that unticks "include signature" has run, the
    tick is set only beside a signature that is not blank, and running
    the effect again changes nothing; it touches no other cell. A save
    from such a dialog never leaves a row that this save wrote with the
    signature flag set and the signature null. *)
Theorem X24_signature_flag_needs_signature :
  forall be thrown rows m0,
    let m := EmailSettings.uncheckEffect m0 in
    (EmailSettings.emailIncludeSig m = true ->
     EmailSettings.emailIncludeSig m0 = true
     /\ Js.trim (EmailSettings.emailSig m) <> [])
    /\ EmailSettings.uncheckEffect m = m
    /\ EmailSettings.emailSig m = EmailSettings.emailSig m0
    /\ EmailSettings.emailCurrentGoal m = EmailSettings.emailCurrentGoal m0
    /\ EmailSettings.emailIncludeUnsub m = EmailSettings.emailIncludeUnsub m0
    /\ forall r',
         In r' (fst (fst (EmailSettings.saveEmailSettings be thrown rows m))) ->
         In r' rows
         \/ (EmailSettings.email_include_sig r' = Some true ->
             exists s, EmailSettings.email_sig r' = Some s /\ Js.trim s = s
                       /\ s <> []).
Proof.
  intros be thrown rows m0 m.
  destruct (uncheckEffect_spec m0) as (Hflag0 & Hsig0 & Hgoal0 & Hunsub0).
  fold m in Hflag0, Hsig0, Hgoal0, Hunsub0.
  assert (Hinv : EmailSettings.emailIncludeSig m = true ->
                 EmailSettings.emailIncludeSig m0 = true
                 /\ Js.trim (EmailSettings.emailSig m) <> []).
  { rewrite Hflag0, Hsig0. intros H. apply andb_true_iff in H as [H1 H2].
    split; [exact H1|]. apply signature_present.
    now apply negb_true_iff. }
  split; [exact Hinv|].
  split.
  { unfold EmailSettings.uncheckEffect.
    destruct (EmailSettings.isSignatureEmpty m
              && EmailSettings.emailIncludeSig m) eqn:E; [|reflexivity].
    apply andb_true_iff in E as [E1 E2]. destruct (Hinv E2) as [_ Hne].
    unfold EmailSettings.isSignatureEmpty in E1.
    apply truthy_true in Hne. rewrite Hne in E1.
    rewrite orb_false_r in E1. apply negb_true_iff, truthy_false in E1.
    rewrite E1 in Hne. discriminate. }
  repeat (split; [assumption|]).
  intros r' Hr'.
  destruct (saveEmailSettings_rows be thrown rows m) as [E|(uid & _ & E)];
    rewrite E in Hr'; [now left|].
  apply update_email_rows in Hr' as [Hin|(_ & _ & Hsig & Hflag & _)];
    [now left|].
  right. intros Ht. rewrite Hflag in Ht. injection Ht as Ht.
  destruct (Hinv Ht) as [_ Hne].
  exists (Js.trim (EmailSettings.emailSig m)). split; [|split].
  - rewrite Hsig. unfold Js.or_null.
    destruct (Js.trim (EmailSettings.emailSig m)); [now contradiction Hne|].
    reflexivity.
  - apply trim_idem.
  - exact Hne.
Qed.

(** ** The validation flag *)

Section ValidationFlag.
Import Db Settings.

Lemma autosave_flag be closure w :
  isValidatingCodes (snd (autoSaveSerpSettings be closure w))
  = isValidatingCodes (snd w).
Proof.
  unfold autoSaveSerpSettings, autoSave_try.
  destruct (signedInUser closure); [|reflexivity].
  destruct (isValidatingCodes closure); [reflexivity|].
  destruct (anyInvalid closure); [reflexivity|].
  destruct w as [db st]. cbn [fst snd].
  destruct (getToken be); cbn; try reflexivity.
  destruct (fault be UpdateSettings); reflexivity.
Qed.

Lemma rearm_flag m :
  isValidatingCodes (page (rearm m)) = isValidatingCodes (page m)
  /\ inFlight (rearm m) = inFlight m.
Proof. split; reflexivity. Qed.

Lemma rearmValidation_flag m :
  isValidatingCodes (page (rearmValidation m)) = isValidatingCodes (page m)
  /\ inFlight (rearmValidation m) = inFlight m.
Proof.
  unfold rearmValidation, locationEffect.
  destruct (negb _ || negb _); split; reflexivity.
Qed.

Lemma on_page_flag f m :
  (forall st, isValidatingCodes (f st) = isValidatingCodes st) ->
  isValidatingCodes (page (on_page f m)) = isValidatingCodes (page m)
  /\ inFlight (on_page f m) = inFlight m.
Proof. intros H. split; [apply H|reflexivity]. Qed.

Lemma categoryEffect_flag st :
  isValidatingCodes (categoryEffect st) = isValidatingCodes st.
Proof. unfold categoryEffect. destruct (negb _); reflexivity. Qed.

Lemma excludedCategoryEffect_flag st :
  isValidatingCodes (excludedCategoryEffect st) = isValidatingCodes st.
Proof. unfold excludedCategoryEffect. destruct (negb _); reflexivity. Qed.

Lemma loaded_flag row st :
  isValidatingCodes (loaded row st) = isValidatingCodes st.
Proof. reflexivity. Qed.

Lemma setField_flag f v st :
  isValidatingCodes (setField f v st) = isValidatingCodes st.
Proof. destruct f; reflexivity. Qed.

(** Steps other than the two of a validation leave the flag and the
    lookups in flight as they are. *)
Lemma step_flag_frame e m :
  e <> ValidateTimerFires ->
  (forall n be, e <> ValidationReturns n be) ->
  isValidatingCodes (page (step e m)) = isValidatingCodes (page m)
  /\ inFlight (step e m) = inFlight m.
Proof.
  intros Hv Hr. destruct e as [row|f v| |n be|be]; cbn [step].
  - destruct (rearm_flag
                (rearmValidation
                   (on_page excludedCategoryEffect
                      (on_page categoryEffect (on_page (loaded row) m)))))
      as [-> ->].
    destruct (rearmValidation_flag
                (on_page excludedCategoryEffect
                   (on_page categoryEffect (on_page (loaded row) m))))
      as [-> ->].
    destruct (on_page_flag excludedCategoryEffect
                (on_page categoryEffect (on_page (loaded row) m))
                excludedCategoryEffect_flag) as [-> ->].
    destruct (on_page_flag categoryEffect (on_page (loaded row) m)
                categoryEffect_flag) as [-> ->].
    apply on_page_flag, loaded_flag.
  - match goal with
    | |- context [rearm ?x] => destruct (rearm_flag x) as [-> ->]
    end.
    assert (H0 : isValidatingCodes (page (on_page (setField f v) m))
                 = isValidatingCodes (page m)
                 /\ inFlight (on_page (setField f v) m) = inFlight m)
      by (apply on_page_flag, setField_flag).
    destruct H0 as [E1 E2]. rewrite <- E1, <- E2.
    destruct f; try (split; reflexivity).
    + apply on_page_flag, categoryEffect_flag.
    + apply on_page_flag, excludedCategoryEffect_flag.
    + apply rearmValidation_flag.
  - now contradiction Hv.
  - now contradiction (Hr n be).
  - destruct (saveTimer m) as [closure|]; [|now split].
    pose proof (autosave_flag be closure (store m, page m)) as H.
    destruct (autoSaveSerpSettings be closure (store m, page m)) as [db' st'].
    cbn in *. now split.
Qed.

Lemma step_flag e m :
  (isValidatingCodes (page m) = true -> inFlight m <> []) ->
  isValidatingCodes (page (step e m)) = true -> inFlight (step e m) <> [].
Proof.
  intros Hm.
  destruct e as [row|f v| |n be|be];
    try (lazymatch goal with
         | |- context [step ?e m] =>
             destruct (step_flag_frame e m) as [-> ->];
             [discriminate|intros n0 be0; discriminate|exact Hm]
         end).
  - cbn [step]. destruct (validateTimer m) as [closure|]; [|exact Hm].
    unfold validateLocationCodes_start.
    destruct (negb (Js.truthy (Js.trim (serpLocations closure)))); cbn.
    + exact Hm.
    + intros _. destruct (inFlight m); discriminate.
  - cbn [step]. destruct (nth_error (inFlight m) n) as [closure|];
      [|exact Hm].
    cbn. discriminate.
Qed.

Lemma reachable_flag start m :
  (isValidatingCodes (page start) = true -> inFlight start <> []) ->
  reachable start m ->
  isValidatingCodes (page m) = true -> inFlight m <> [].
Proof. intros H0. induction 1; [exact H0|now apply step_flag]. Qed.

End ValidationFlag.

(** X25. Along any run of the settings page the validation flag is set
    only while a lookup of location codes is in flight, so autosave is
    never left suppressed by a validation that has come back. The flag
    does not cover every lookup: when a second lookup is started before
    the first has come back, the return of the first clears the flag, the
    autosave timer is armed, and the codes the second lookup is still
    checking are saved; that lookup then flags one of them. *)
Theorem X25_validation_flag :
  (forall signedIn user db m,
      Settings.reachable (Settings.initial signedIn user db) m ->
      Settings.isValidatingCodes (Settings.page m) = true ->
      Settings.inFlight m <> [])
  /\ (let overlap :=
        Settings.run
          [ Settings.Load Sample.storedRow;
            Settings.Edit Settings.Locations (Js.lit "200819");
            Settings.ValidateTimerFires;
            Settings.Edit Settings.Locations (Js.lit "200819,1");
            Settings.ValidateTimerFires;
            Settings.ValidationReturns 0 Sample.healthy ]
          Sample.firstRender in
      let saved := Settings.step (Settings.SaveTimerFires Sample.healthy)
                     overlap in
      let checked := Settings.step (Settings.ValidationReturns 0 Sample.healthy)
                       saved in
      Settings.isValidatingCodes (Settings.page overlap) = false
      /\ List.length (Settings.inFlight overlap) = 1%nat
      /\ Settings.saveTimer overlap <> None
      /\ map Db.serp_locations (Db.user_accounts (Settings.store saved))
         = [Some (Js.lit "200819,1")]
      /\ Settings.invalidLocationCodes (Settings.page checked)
         = [Js.lit "1"]).
Proof.
  split.
  - intros signedIn user db m Hr.
    apply (reachable_flag (Settings.initial signedIn user db) m); [|exact Hr].
    cbn. discriminate.
  - vm_compute. repeat split; discriminate.
Qed.

(** ** The page as a whole *)

Section WholePage.
Import Db Settings.

(** A step of validation and autosave leaves the machine as it is, or
    leaves no timer, or leaves a timer that closes over the render it
    ends in. *)
Lemma step_armed e m closure :
  saveTimer (Settings.step e m) = Some closure ->
  Settings.step e m = m \/ closure = page (Settings.step e m).
Proof.
  assert (Hrearm : forall x,
             saveTimer (rearm x) = Some closure -> closure = page (rearm x))
    by (intros x H; exact (proj1 (rearm_fresh x closure H))).
  destruct e as [row|f v| |n be|be]; cbn [Settings.step].
  - intros H. right. exact (Hrearm _ H).
  - intros H. right. exact (Hrearm _ H).
  - destruct (validateTimer m) as [c|]; [|now left].
    destruct (validateLocationCodes_start c (page m)) as [st flying].
    intros H. right. exact (Hrearm _ H).
  - destruct (nth_error (inFlight m) n) as [c|]; [|now left].
    intros H. right. exact (Hrearm _ H).
  - destruct (saveTimer m) as [c|]; [|now left].
    destruct (autoSaveSerpSettings be c (store m, page m)) as [db' st'].
    discriminate.
Qed.

Lemma machine_settled e m :
  Session.current (page m) ->
  (forall closure, saveTimer m = Some closure -> Session.current closure) ->
  Session.current (page (Settings.step e m))
  /\ forall closure,
       saveTimer (Settings.step e m) = Some closure ->
       Session.current closure.
Proof.
  intros Hp Ht.
  assert (Hp' : Session.current (page (Settings.step e m)))
    by (apply (step_current e m); exact Hp).
  split; [exact Hp'|]. intros closure Hc.
  destruct (step_armed e m closure Hc) as [E| ->]; [|exact Hp'].
  rewrite E in Hc. now apply Ht.
Qed.

Lemma click_form sp :
  let st := SearchStart.form sp in
  let st' := SearchStart.form (SearchStart.handleStartSearchClick sp) in
  serpCategory st' = serpCategory st
  /\ serpExcludedCategory st' = serpExcludedCategory st
  /\ invalidCategoryItems st' = invalidCategoryItems st
  /\ invalidExcludedCategoryItems st' = invalidExcludedCategoryItems st.
Proof.
  unfold SearchStart.handleStartSearchClick.
  destruct (SearchStart.sessionUser _); [|repeat split].
  destruct (anyInvalid _); [repeat split|].
  destruct (negb _ || negb _); repeat split.
Qed.

Lemma executeSearch_form be wh repeatSearches w :
  let st := SearchStart.form (SearchStart.view w) in
  let st' :=
    SearchStart.form
      (SearchStart.view (SearchStart.executeSearch be wh repeatSearches w)) in
  serpCategory st' = serpCategory st
  /\ serpExcludedCategory st' = serpExcludedCategory st
  /\ invalidCategoryItems st' = invalidCategoryItems st
  /\ invalidExcludedCategoryItems st' = invalidExcludedCategoryItems st.
Proof.
  unfold SearchStart.executeSearch, SearchStart.executeSearch_try.
  destruct (SearchStart.sessionUser _); [|repeat split].
  destruct (getToken be); try (repeat split; fail).
  destruct (fault be UpdateSettings); try (repeat split; fail).
  destruct (SearchStart.knownAccount _); [|repeat split].
  destruct (SearchStart.clerkToken wh); try (repeat split; fail).
  destruct (SearchStart.fetch wh) as [r|]; [|repeat split].
  destruct (negb (SearchStart.ok r)); repeat split.
Qed.

Lemma current_same st st' :
  serpCategory st' = serpCategory st ->
  serpExcludedCategory st' = serpExcludedCategory st ->
  invalidCategoryItems st' = invalidCategoryItems st ->
  invalidExcludedCategoryItems st' = invalidExcludedCategoryItems st ->
  Session.current st -> Session.current st'.
Proof. unfold Session.current. intros -> -> -> ->. tauto. Qed.

Lemma on_machine_settled e s :
  Session.listsSettled s ->
  Session.listsSettled (Session.on_machine (Settings.step e) s).
Proof.
  intros [Hp Ht]. unfold Session.listsSettled, Session.on_machine.
  cbn [Session.machine]. apply machine_settled; assumption.
Qed.

Lemma step_settled a s :
  Session.listsSettled s -> Session.listsSettled (Session.step a s).
Proof.
  intros Hs. pose proof Hs as [Hp Ht].
  destruct a as [[row|f v| |n be|be]| | |be wh r| |]; cbn [Session.step].
  - now apply on_machine_settled.
  - destruct (Js.eqb _ _); [exact Hs|now apply on_machine_settled].
  - now apply on_machine_settled.
  - now apply on_machine_settled.
  - destruct (saveTimer (Session.machine s)) as [c|] eqn:E; [|exact Hs].
    exact (on_machine_settled (SaveTimerFires be) s Hs).
  - exact Hs.
  - destruct (Session.isLoading s); [exact Hs|].
    split; [|exact Ht].
    destruct (click_form (Session.viewOf s)) as (E1 & E2 & E3 & E4).
    exact (current_same _ _ E1 E2 E3 E4 Hp).
  - destruct (Session.searchPreviewModalOpen s); [|exact Hs].
    split; [|exact Ht].
    destruct (executeSearch_form be wh r (Session.worldOf s))
      as (E1 & E2 & E3 & E4).
    exact (current_same _ _ E1 E2 E3 E4 Hp).
  - exact Hs.
  - destruct (Session.messageTimers s); exact Hs.
Qed.

Lemma reachable_settled signedIn user db s :
  Session.reachable (Session.initial signedIn user db) s ->
  Session.listsSettled s.
Proof.
  induction 1 as [|s a _ IH]; [|now apply step_settled].
  split; [split; reflexivity|]. intros closure. discriminate.
Qed.

(** A render whose category lists are current and empty is saved as
    words. *)
Lemma current_words st :
  Session.current st ->
  invalidCategoryItems st = [] -> invalidExcludedCategoryItems st = [] ->
  (exists ws,
      Forall (fun w => w <> [] /\ Forall SearchStart.isWordChar w) ws
      /\ cleanCommaSeparatedValues (serpCategory st) false
         = Js.join [Js.comma] ws)
  /\ (exists ws,
         Forall (fun w => w <> [] /\ Forall SearchStart.isWordChar w) ws
         /\ cleanCommaSeparatedValues (serpExcludedCategory st) false
            = Js.join [Js.comma] ws).
Proof.
  intros [Hc Hx] H1 H2. rewrite Hc in H1. rewrite Hx in H2.
  split; now apply accepted_category.
Qed.

End WholePage.

(** X17. A step of the settings page (a load, an edit, a step of
    validation, the autosave timer, the timer that clears the notice, the
    arrival of the account number, "Start Search", or a button of the
    preview) leaves each row of [user_accounts] as it was or with both
    category columns null or non-empty words of letters and underscores
    joined by commas, with one exception: the preview's "Continue",
    clicked while a category field shows flagged items, for
    [executeSearch] makes no test of its own. Autosave never stores
    flagged category text. "Start Search" opens the preview only with
    nothing flagged, so the exception takes a change of a category field
    under the open preview. *)
Theorem X17_flagged_categories_are_stored_only_by_a_search :
  forall signedIn user db s a,
    Session.reachable (Session.initial signedIn user db) s ->
    let words (v : option Js.str) :=
      exists ws,
        Forall (fun w => w <> [] /\ Forall SearchStart.isWordChar w) ws
        /\ v = Js.or_null (Js.join [Js.comma] ws) in
    let flagged (t : Session.Session) :=
      Settings.invalidCategoryItems (Settings.page (Session.machine t)) <> []
      \/ Settings.invalidExcludedCategoryItems
           (Settings.page (Session.machine t)) <> [] in
    (forall row,
        In row (Db.user_accounts
                  (Settings.store (Session.machine (Session.step a s)))) ->
        In row (Db.user_accounts (Settings.store (Session.machine s)))
        \/ (words (Db.serp_cat row) /\ words (Db.serp_exc_cat row))
        \/ (flagged s
            /\ Session.searchPreviewModalOpen s = true
            /\ exists be wh repeatSearches,
                 a = Session.PreviewContinue be wh repeatSearches))
    /\ (Session.searchPreviewModalOpen s = false ->
        Session.searchPreviewModalOpen
          (Session.step Session.StartSearchClick s) = true ->
        ~ flagged (Session.step Session.StartSearchClick s)).
Proof.
  intros signedIn user db s a Hreach words flagged.
  pose proof (reachable_settled signedIn user db s Hreach) as [Hp Ht].
  split.
  - intros row.
    destruct a as [[r0|f v| |n be|be]| | |be wh r| |]; cbn [Session.step].
    + cbn [Session.machine Session.on_machine].
      destruct (step_quiet (Settings.Load r0) (Session.machine s)) as [-> _];
        [intros be0; discriminate|now left].
    + destruct (Js.eqb _ _); [now left|].
      cbn [Session.machine Session.on_machine].
      destruct (step_quiet (Settings.Edit f v) (Session.machine s))
        as [-> _]; [intros be0; discriminate|now left].
    + cbn [Session.machine Session.on_machine].
      destruct (step_quiet Settings.ValidateTimerFires (Session.machine s))
        as [-> _]; [intros be0; discriminate|now left].
    + cbn [Session.machine Session.on_machine].
      destruct (step_quiet (Settings.ValidationReturns n be)
                  (Session.machine s)) as [-> _];
        [intros be0; discriminate|now left].
    + destruct (Settings.saveTimer (Session.machine s)) as [closure|] eqn:Et;
        [|now left].
      cbn [Session.machine Settings.step]. rewrite Et.
      pose proof (autosave_store be closure
                    (Settings.store (Session.machine s),
                     Settings.page (Session.machine s))) as Hs.
      destruct (Settings.autoSaveSerpSettings be closure
                  (Settings.store (Session.machine s),
                   Settings.page (Session.machine s))) as [db' st'].
      cbn [fst Settings.store] in *.
      destruct Hs as [->|(u & _ & _ & Hi & ->)]; [now left|].
      intros Hrow.
      apply update_settings_rows in Hrow as [Hrow|Hrow]; [now left|].
      right. left. destruct Hrow as (_ & _ & Ecat & Eexc & _).
      apply anyInvalid_false in Hi as (Hi1 & Hi2 & _).
      destruct (current_words closure (Ht closure eq_refl) Hi1 Hi2)
        as [[ws1 [Hw1 E1]] [ws2 [Hw2 E2]]].
      split; [exists ws1|exists ws2]; (split; [assumption|]); congruence.
    + now left.
    + destruct (Session.isLoading s); now left.
    + destruct (Session.searchPreviewModalOpen s) eqn:Eo; [|now left].
      cbn [Session.machine Session.withWorld Settings.store
           SearchStart.on_view SearchStart.store].
      pose proof (executeSearch_outcome be wh r (Session.worldOf s)) as Ho.
      cbv zeta in Ho.
      assert (Hstore :
                SearchStart.store
                  (SearchStart.executeSearch be wh r (Session.worldOf s))
                = Settings.store (Session.machine s)
                \/ exists u,
                     SearchStart.store
                       (SearchStart.executeSearch be wh r (Session.worldOf s))
                     = Settings.update_settings u
                         (Js.or_null
                            (Settings.cleanCommaSeparatedValues
                               (Settings.serpKeywords
                                  (Settings.page (Session.machine s))) true))
                         (Js.or_null
                            (Settings.cleanCommaSeparatedValues
                               (Settings.serpCategory
                                  (Settings.page (Session.machine s))) false))
                         (Js.or_null
                            (Settings.cleanCommaSeparatedValues
                               (Settings.serpExcludedCategory
                                  (Settings.page (Session.machine s))) false))
                         (Js.or_null
                            (Settings.cleanCommaSeparatedValues
                               (Settings.serpLocations
                                  (Settings.page (Session.machine s))) false))
                         (Js.or_null
                            (Settings.cleanCommaSeparatedValues
                               (Settings.serpStates
                                  (Settings.page (Session.machine s))) true))
                         (Settings.store (Session.machine s))).
      { destruct Ho as [(Es & _)|(u & _ & _ & _ & Es & _)];
          [left; exact Es|right; exists u; exact Es]. }
      destruct Hstore as [->|[u ->]]; [now left|].
      intros Hrow.
      apply update_settings_rows in Hrow as [Hrow|Hrow]; [now left|].
      right. destruct Hrow as (_ & _ & Ecat & Eexc & _).
      destruct (Settings.invalidCategoryItems
                  (Settings.page (Session.machine s))) as [|i1 l1] eqn:E1;
        [|right; split; [left; unfold flagged; rewrite E1; discriminate|];
          split; [reflexivity|now exists be, wh, r]].
      destruct (Settings.invalidExcludedCategoryItems
                  (Settings.page (Session.machine s))) as [|i2 l2] eqn:E2;
        [|right; split; [right; rewrite E2; discriminate|];
          split; [reflexivity|now exists be, wh, r]].
      left.
      destruct (current_words (Settings.page (Session.machine s)) Hp E1 E2)
        as [[ws1 [Hw1 F1]] [ws2 [Hw2 F2]]].
      split; [exists ws1|exists ws2]; (split; [assumption|]); congruence.
    + now left.
    + destruct (Session.messageTimers s); now left.
  - intros Hclosed Hopen. cbn [Session.step] in *.
    destruct (Session.isLoading s);
      [rewrite Hclosed in Hopen; discriminate|].
    subst flagged. cbn in Hopen |- *.
    unfold SearchStart.handleStartSearchClick in *.
    cbn in Hopen |- *.
    destruct (SearchStart.sessionUser _);
      [|cbn in Hopen; rewrite Hclosed in Hopen; discriminate].
    destruct (Settings.anyInvalid _) eqn:Ei;
      [cbn in Hopen; rewrite Hclosed in Hopen; discriminate|].
    destruct (negb _ || negb _);
      [cbn in Hopen; rewrite Hclosed in Hopen; discriminate|].
    cbn. cbn in Ei. apply anyInvalid_false in Ei as (H1 & H2 & _).
    cbn in H1, H2. intros [H|H]; [now apply H|now apply H].
Qed.

Lemma X17_flagged_categories_are_stored_only_by_a_search_witness :
  let s :=
    Session.run
      [ Session.AccountLoaded 1001;
        Session.Page (Settings.Load Sample.storedRow);
        Session.Page
          (Settings.Edit Settings.Category
             (Js.lit " roofing_contractor , plumber ,"));
        Session.Page (Settings.Edit Settings.Locations (Js.lit "200819"));
        Session.StartSearchClick ]
      (Session.initial true (Some (Js.lit "user_7")) Sample.settingsDb) in
  let s' :=
    Session.step (Session.PreviewContinue Sample.healthy Cases.webhookOk false)
      s in
  Session.searchPreviewModalOpen s = true
  /\ map Db.serp_cat (Db.user_accounts (Settings.store (Session.machine s')))
     = [Some (Js.lit "roofing_contractor,plumber")]
  /\ Session.calls s'
     = [{| SearchStart.account_number := 1001;
           SearchStart.repeat_searches := false |}]
  /\ Forall (fun row =>
               In row (Db.user_accounts (Settings.store (Session.machine s)))
               \/ exists ws,
                    Forall (fun w => w <> []
                                     /\ Forall SearchStart.isWordChar w) ws
                    /\ Db.serp_cat row = Js.or_null (Js.join [Js.comma] ws))
            (Db.user_accounts (Settings.store (Session.machine s'))).
Proof.
  intros s s'.
  split; [vm_compute; reflexivity|].
  split; [vm_compute; reflexivity|].
  split; [vm_compute; reflexivity|].
  apply Forall_forall. intros row Hrow.
  assert (Hr : Session.reachable
                 (Session.initial true (Some (Js.lit "user_7"))
                    Sample.settingsDb) s).
  { subst s. unfold Session.run. cbn [fold_left].
    repeat apply Session.reach_step. apply Session.reach_start. }
  destruct (X17_flagged_categories_are_stored_only_by_a_search true
              (Some (Js.lit "user_7")) Sample.settingsDb s
              (Session.PreviewContinue Sample.healthy Cases.webhookOk false)
              Hr) as [Hrows _].
  destruct (Hrows row Hrow) as [H|[[H _]|[[H|H] _]]].
  - now left.
  - now right.
  - exfalso. apply H. vm_compute. reflexivity.
  - exfalso. apply H. vm_compute. reflexivity.
Defined.

(** The page as a whole at work. A search started while a lookup of the
    location codes is out: "Start Search" does not read the validation
    flag, and the search stores and sends a code that is not in the
    table of locations. A successful autosave shows its notice and
    leaves a timer that clears it. An edit to the text a field already
    holds arms no timer. *)
Example session_runs :
  let start :=
    Session.run
      [ Session.AccountLoaded 1001;
        Session.Page (Settings.Load Sample.storedRow) ]
      (Session.initial true (Some (Js.lit "user_7")) Sample.settingsDb) in
  let validating :=
    Session.run
      [ Session.Page (Settings.Edit Settings.Locations (Js.lit "999"));
        Session.Page Settings.ValidateTimerFires;
        Session.StartSearchClick ]
      start in
  let searched :=
    Session.step (Session.PreviewContinue Sample.healthy Cases.webhookOk true)
      validating in
  let saved :=
    Session.step (Session.Page (Settings.SaveTimerFires Sample.healthy))
      start in
  let cleared := Session.step Session.MessageTimerFires saved in
  Settings.isValidatingCodes (Settings.page (Session.machine validating))
  = true
  /\ Session.searchPreviewModalOpen validating = true
  /\ map Db.serp_locations
         (Db.user_accounts (Settings.store (Session.machine searched)))
     = [Some (Js.lit "999")]
  /\ Db.google_locations (Settings.store (Session.machine searched))
     = [200819]
  /\ Session.calls searched
     = [{| SearchStart.account_number := 1001;
           SearchStart.repeat_searches := true |}]
  /\ Session.searchPreviewModalOpen searched = false
  /\ Settings.message (Settings.page (Session.machine searched))
     = Js.lit "Workflow started"
  /\ Settings.message (Settings.page (Session.machine saved))
     = Js.lit "Settings saved automatically"
  /\ Session.messageTimers saved = 1%nat
  /\ Settings.message (Settings.page (Session.machine cleared)) = []
  /\ Session.messageTimers cleared = 0%nat
  /\ Settings.saveTimer (Session.machine saved) = None
  /\ Session.step
       (Session.Page (Settings.Edit Settings.Keywords (Js.lit "roofing")))
       saved
     = saved
  /\ Settings.saveTimer
       (Settings.step (Settings.Edit Settings.Keywords (Js.lit "roofing"))
          (Session.machine saved))
     <> None.
Proof. vm_compute. repeat split; discriminate. Qed.
